(** * Budget tracker: the dashboard

    A shallow embedding of [DashboardPage] (src/app/(dashboard)/page.tsx):
    the computations it performs on every render (the search filter, the
    grouping by category, the grouping by month and category, the monthly
    chart series and the totals), its handlers, and what it shows.

    Modelling conventions.
    - JavaScript strings are [string]s of ASCII text; [toLowerCase] maps
      [A-Z] to [a-z] and leaves every other character alone.
    - JavaScript numbers are binary64 floats ([float]), added with the
      rounding of IEEE 754; [JSNumber.exact] is the rational number that a
      finite float denotes.
    - An ordinary object used as a dictionary is the list of its own
      properties in creation order, read through the prototype chain
      ([JSObject.get]) and enumerated in own-property order
      ([JSObject.entries]): array-index keys first, ascending, then the other
      keys in creation order.
    - A statement that can throw returns a [Completion].
    - [Array.prototype.sort] is the stable sort ECMAScript requires.
    - Dates are the date-only ISO strings [YYYY-MM-DD] that the form and the
      table produce. [new Date(s)] reads such a string as midnight UTC;
      [toLocaleDateString] renders it in the host's time zone, whose offset
      from UTC (in minutes, positive east of Greenwich, less than a day in
      magnitude) is the parameter [timeZoneOffset].
    - A handler is a [Task]: the actions it performs in order, each [await]
      continuing with what the request resolved to. [run] runs a task to its
      end against a backend, which is any state with a function that answers
      the requests. The state setters update the [State] of the page; the
      requests, alerts, navigations and resets of the form are recorded as
      [Event]s. A handler reads the state of the render that created it.
    - The JSX is the record [Screen] of its parts that depend on the state. *)

From Stdlib Require Import List String Ascii Bool ZArith NArith QArith Lia.
From Stdlib Require Import Floats.
From Stdlib Require Import Permutation Sorted DecimalString DecimalN OrderedTypeEx.
Import ListNotations.

Open Scope string_scope.
Open Scope list_scope.

(** ** Strings *)

Module JSString.

Definition isUpper (c : ascii) : bool :=
  let n := N_of_ascii c in (65 <=? n)%N && (n <=? 90)%N.

Definition lowerChar (c : ascii) : ascii :=
  if isUpper c then ascii_of_N (N_of_ascii c + 32) else c.

(** [String.prototype.toLowerCase]. *)
Fixpoint toLowerCase (s : string) : string :=
  match s with
  | EmptyString => EmptyString
  | String c s' => String (lowerChar c) (toLowerCase s')
  end.

(** [String.prototype.toLocaleLowerCase] in the [en-US] host locale, where it
    agrees with [toLowerCase]. *)
Definition toLocaleLowerCase (s : string) : string := toLowerCase s.

(** [startsWith t s]: [t] is a prefix of [s]. *)
Fixpoint startsWith (t s : string) : bool :=
  match t, s with
  | EmptyString, _ => true
  | String a t', String b s' => Ascii.eqb a b && startsWith t' s'
  | String _ _, EmptyString => false
  end.

(** [String.prototype.includes]: [t] occurs in [s] at some position. *)
Fixpoint includes (s t : string) : bool :=
  startsWith t s ||
  match s with
  | EmptyString => false
  | String _ s' => includes s' t
  end.

(** What remains of [s] after the prefix [t], when [t] is a prefix. *)
Fixpoint stripPrefix (t s : string) : option string :=
  match t, s with
  | EmptyString, _ => Some s
  | String a t', String b s' => if Ascii.eqb a b then stripPrefix t' s' else None
  | String _ _, EmptyString => None
  end.

Definition digit (c : ascii) : option N :=
  let n := N_of_ascii c in
  if (48 <=? n)%N && (n <=? 57)%N then Some (n - 48)%N else None.

(** The number written by a string of decimal digits, most significant
    first, continuing from [acc]. *)
Fixpoint digits (s : string) (acc : N) : option N :=
  match s with
  | EmptyString => Some acc
  | String c s' =>
      match digit c with
      | Some d => digits s' (10 * acc + d)%N
      | None => None
      end
  end.

(** The substring relation that [includes] decides. *)
Definition Substring (t s : string) : Prop :=
  exists pre suf, s = (pre ++ t ++ suf)%string.

End JSString.

(** ** Numbers *)

Module JSNumber.

(** [ToBoolean] of a number: false for [+0], [-0] and [NaN]. *)
Definition falsy (v : float) : bool :=
  PrimFloat.eqb v 0%float || PrimFloat.is_nan v.

(** [Number.isFinite]: neither [NaN] nor an infinity. *)
Definition isFinite (v : float) : bool :=
  match Prim2SF v with
  | S754_zero _ | S754_finite _ _ _ => true
  | _ => false
  end.

(** The rational number that a finite float denotes; [NaN] and the
    infinities denote none. *)
Definition exact (v : float) : option Q :=
  match Prim2SF v with
  | S754_zero _ => Some 0%Q
  | S754_finite s m e =>
      let r := if (0 <=? e)%Z then inject_Z (Z.pos m * 2 ^ e)
               else Z.pos m # (2 ^ Z.to_pos (- e)) in
      Some (if s then - r else r)%Q
  | _ => None
  end.

End JSNumber.

(** ** Completions *)

Inductive Exn : Type := TypeError.

Inductive Completion (A : Type) : Type :=
| Normal (a : A)
| Throw (e : Exn).

Arguments Normal {A} a.
Arguments Throw {A} e.

Definition bind {A B : Type} (c : Completion A) (k : A -> Completion B) : Completion B :=
  match c with
  | Normal a => k a
  | Throw e => Throw e
  end.

Notation "x <- c ;; k" := (bind c (fun x => k))
  (at level 61, c at next level, right associativity).

(** [xs.forEach(x => body)] where [body] updates the state [st] and may
    throw, which abandons the loop. *)
Fixpoint forEach {A S : Type} (body : S -> A -> Completion S) (xs : list A) (st : S)
  : Completion S :=
  match xs with
  | [] => Normal st
  | x :: xs' => st' <- body st x ;; forEach body xs' st'
  end.

(** ** Ordinary objects used as dictionaries *)

Module JSObject.

(** The own properties of an object literal, in creation order. *)
Definition object (V : Type) : Type := list (string * V).

(** The property names an object literal inherits from [Object.prototype]. *)
Definition ObjectPrototype : list string :=
  [ "constructor"; "__proto__"; "hasOwnProperty"; "isPrototypeOf";
    "propertyIsEnumerable"; "toLocaleString"; "toString"; "valueOf";
    "__defineGetter__"; "__defineSetter__"; "__lookupGetter__";
    "__lookupSetter__" ].

Definition inherited (k : string) : bool :=
  existsb (String.eqb k) ObjectPrototype.

Fixpoint getOwn {V : Type} (o : object V) (k : string) : option V :=
  match o with
  | [] => None
  | (k', v) :: o' => if String.eqb k' k then Some v else getOwn o' k
  end.

(** What [o[k]] evaluates to: an own value, a member of [Object.prototype]
    (a function or the prototype itself, always truthy), or [undefined]. *)
Inductive property (V : Type) : Type :=
| Own (v : V)
| Inherited
| Undefined.

Arguments Own {V} v.
Arguments Inherited {V}.
Arguments Undefined {V}.

Definition get {V : Type} (o : object V) (k : string) : property V :=
  match getOwn o k with
  | Some v => Own v
  | None => if inherited k then Inherited else Undefined
  end.

(** [o[k] = v]: an existing own property keeps its place, a new one is
    created last. *)
Fixpoint set {V : Type} (o : object V) (k : string) (v : V) : object V :=
  match o with
  | [] => [(k, v)]
  | (k', v') :: o' =>
      if String.eqb k' k then (k', v) :: o' else (k', v') :: set o' k v
  end.

(** A property key is an array index when it is the canonical decimal
    spelling of an integer from 0 to 2^32 - 2. *)
Definition arrayIndex (k : string) : option N :=
  match k with
  | EmptyString => None
  | String "0" EmptyString => Some 0%N
  | String "0" _ => None
  | _ =>
      match JSString.digits k 0 with
      | Some n => if (n <=? 4294967294)%N then Some n else None
      | None => None
      end
  end.

Definition isArrayIndex (k : string) : bool :=
  match arrayIndex k with Some _ => true | None => false end.

Definition indexOf (k : string) : N :=
  match arrayIndex k with Some n => n | None => 0%N end.

Fixpoint insertByIndex {V : Type} (p : string * V) (l : list (string * V))
  : list (string * V) :=
  match l with
  | [] => [p]
  | q :: l' =>
      if (indexOf (fst p) <=? indexOf (fst q))%N then p :: l
      else q :: insertByIndex p l'
  end.

Definition ascendingIndex {V : Type} (l : list (string * V)) : list (string * V) :=
  fold_right insertByIndex [] l.

(** [Object.entries(o)]: own-property order puts the array-index keys first,
    in ascending numeric order, and then the other keys in creation order. *)
Definition entries {V : Type} (o : object V) : list (string * V) :=
  ascendingIndex (filter (fun p => isArrayIndex (fst p)) o)
  ++ filter (fun p => negb (isArrayIndex (fst p))) o.

(** [Object.keys(o)] and [Object.values(o)]. *)
Definition keys {V : Type} (o : object V) : list string := map fst (entries o).
Definition values {V : Type} (o : object V) : list V := map snd (entries o).

(** Updating every own value in place, as a loop over [Object.values(o)]
    that mutates each value does. *)
Definition mapValues {V W : Type} (f : V -> W) (o : object V) : object W :=
  map (fun p => (fst p, f (snd p))) o.

End JSObject.

(** ** Arrays *)

Module JSArray.

(** The insertion step of a stable sort: [x] preceded every element of [l]
    in the input, so it moves behind exactly the elements it is strictly
    greater than. *)
Fixpoint insert {A : Type} (comparefn : A -> A -> Z) (x : A) (l : list A) : list A :=
  match l with
  | [] => [x]
  | y :: l' =>
      if (0 <? comparefn x y)%Z then y :: insert comparefn x l' else x :: l
  end.

(** [Array.prototype.sort(comparefn)]: stable (ECMAScript 2019), and for a
    consistent comparator the result does not depend on the algorithm. *)
Definition sort {A : Type} (comparefn : A -> A -> Z) (l : list A) : list A :=
  fold_right (insert comparefn) [] l.

(** The number a comparator returns, as [sort] reads it: [NaN] counts as 0. *)
Definition SortCompare (v : option Z) : Z :=
  match v with Some z => z | None => 0%Z end.

(** Subtraction of time values; [None] is [NaN]. *)
Definition minus (a b : option Z) : option Z :=
  match a, b with
  | Some x, Some y => Some (x - y)%Z
  | _, _ => None
  end.

End JSArray.

(** ** Dates *)

Module JSDate.

Open Scope Z_scope.

Definition msPerDay : Z := 86400000.
Definition msPerMinute : Z := 60000.

(** The day number of the first day of year [y] (ECMAScript, Day Number and
    Time within Day). *)
Definition DayFromYear (y : Z) : Z :=
  365 * (y - 1970) + (y - 1969) / 4 - (y - 1901) / 100 + (y - 1601) / 400.

Definition InLeapYear (y : Z) : bool :=
  (y mod 4 =? 0) && (negb (y mod 100 =? 0) || (y mod 400 =? 0)).

Definition DaysInMonth (y m : Z) : Z :=
  if m =? 2 then (if InLeapYear y then 29 else 28)
  else if (m =? 4) || (m =? 6) || (m =? 9) || (m =? 11) then 30
  else 31.

Fixpoint daysBefore (y : Z) (months : nat) : Z :=
  match months with
  | O => 0
  | S k => daysBefore y k + DaysInMonth y (Z.of_nat (S k))
  end.

(** The day number of day [d] of month [m] (1 to 12) of year [y]. *)
Definition MakeDay (y m d : Z) : Z :=
  DayFromYear y + daysBefore y (Z.to_nat (m - 1)) + (d - 1).

Definition number (s : string) : option Z :=
  option_map Z.of_N (JSString.digits s 0).

(** The date-only form [YYYY-MM-DD] of the ISO format, naming a day that
    exists. Any other string is not a date of the model. *)
Definition parseISODate (s : string) : option (Z * Z * Z) :=
  match s with
  | String y1 (String y2 (String y3 (String y4 (String h1
      (String m1 (String m2 (String h2 (String d1 (String d2 EmptyString))))))))) =>
      if Ascii.eqb h1 "-" && Ascii.eqb h2 "-" then
        match number (String y1 (String y2 (String y3 (String y4 EmptyString)))),
              number (String m1 (String m2 EmptyString)),
              number (String d1 (String d2 EmptyString)) with
        | Some y, Some m, Some d =>
            if (1 <=? m) && (m <=? 12) && (1 <=? d) && (d <=? DaysInMonth y m)
            then Some (y, m, d) else None
        | _, _, _ => None
        end
      else None
  | _ => None
  end.

(** [new Date(s).getTime()] for a date-only string: midnight UTC of that day,
    in milliseconds since the epoch; [None] is [NaN] (Invalid Date). *)
Definition getTime (s : string) : option Z :=
  match parseISODate s with
  | Some (y, m, d) => Some (MakeDay y m d * msPerDay)
  | None => None
  end.

Definition previousDay (ymd : Z * Z * Z) : Z * Z * Z :=
  let '(y, m, d) := ymd in
  if 1 <? d then (y, m, d - 1)
  else if 1 <? m then (y, m - 1, DaysInMonth y (m - 1))
  else (y - 1, 12, 31).

Definition monthNames : list string :=
  [ "January"; "February"; "March"; "April"; "May"; "June"; "July";
    "August"; "September"; "October"; "November"; "December" ]%string.

Definition monthName (m : Z) : string :=
  nth (Z.to_nat (m - 1)) monthNames EmptyString.

(** The long month name and the year, as [en-US] writes them. *)
Definition formatMonthYear (y m : Z) : string :=
  (monthName m ++ " " ++ NilZero.string_of_uint (N.to_uint (Z.to_N y)))%string.

Fixpoint findMonth (names : list string) (m : Z) (s : string) : option (Z * string) :=
  match names with
  | [] => None
  | n :: rest =>
      match JSString.stripPrefix (n ++ " ")%string s with
      | Some r => Some (m, r)
      | None => findMonth rest (m + 1) s
      end
  end.

(** Reading back a label of the form [Month YYYY]: the year and the month. *)
Definition parseMonthYear (s : string) : option (Z * Z) :=
  match findMonth monthNames 1 s with
  | Some (m, String c r) =>
      match number (String c r) with
      | Some y => Some (y, m)
      | None => None
      end
  | _ => None
  end.

Section HostTimeZone.

(** Minutes to add to UTC to get the host's local time. *)
Variable timeZoneOffset : Z.

(** The local calendar day that holds midnight UTC of the day [ymd]: the
    same day at or east of Greenwich, the day before west of it. *)
Definition localDate (ymd : Z * Z * Z) : Z * Z * Z :=
  if timeZoneOffset <? 0 then previousDay ymd else ymd.

(** [new Date(s).toLocaleDateString('en-US', { month: 'long', year: 'numeric' })]. *)
Definition toLocaleMonthYear (s : string) : string :=
  match parseISODate s with
  | Some ymd => let '(y, m, _) := localDate ymd in formatMonthYear y m
  | None => "Invalid Date"%string
  end.

(** [new Date(label).getTime()] for a label [Month YYYY], which is not in the
    ISO format: the engine reads it as local midnight of the first day of
    that month. Years of fewer than three digits follow engine-specific
    rules and are not dates of the model. *)
Definition getTimeOfLabel (label : string) : option Z :=
  match parseMonthYear label with
  | Some (y, m) =>
      if 100 <=? y
      then Some (MakeDay y m 1 * msPerDay - timeZoneOffset * msPerMinute)
      else None
  | None => None
  end.

End HostTimeZone.

End JSDate.

(** ** The dashboard *)

Record Expense : Type := {
  id : string;
  title : string;
  amount : float;
  category : string;
  date : string;
  notes : option string
}.

(** A value of [expensesByCategory]. *)
Record Group : Type := {
  display : string;
  items : list Expense
}.

(** An element of [sortedMonths]. *)
Record Month : Type := {
  label : string;
  categories : JSObject.object (list Expense)
}.

(** [xs.reduce((sum, exp) => sum + exp.amount, 0)], the sum used for every
    total of the page. *)
Definition sumAmounts (xs : list Expense) : float :=
  fold_left (fun sum exp => (sum + amount exp)%float) xs 0%float.

Definition totalSpent (expenses : list Expense) : float := sumAmounts expenses.

(** The callback of [expenses.filter]. *)
Definition matchesSearch (searchTerm : string) (exp : Expense) : bool :=
  if String.eqb searchTerm "" then true
  else
    let text := JSString.toLowerCase searchTerm in
    JSString.includes (JSString.toLowerCase (title exp)) text
    || JSString.includes (JSString.toLowerCase (category exp)) text
    || match notes exp with
       | Some n => JSString.includes (JSString.toLowerCase n) text
       | None => false
       end.

Definition filteredExpenses (expenses : list Expense) (searchTerm : string)
  : list Expense :=
  filter (matchesSearch searchTerm) expenses.

(** The callback of the first [filteredExpenses.forEach]. Reading
    [expensesByCategory[normalized]] goes through the prototype chain: for a
    key that [Object.prototype] defines the test [!expensesByCategory[normalized]]
    is false, no group is created, and [.items.push] is applied to
    [undefined]. *)
Definition addToCategory (obj : JSObject.object Group) (exp : Expense)
  : Completion (JSObject.object Group) :=
  let normalized := JSString.toLowerCase (category exp) in
  let obj1 :=
    match JSObject.get obj normalized with
    | JSObject.Undefined =>
        JSObject.set obj normalized {| display := category exp; items := [] |}
    | _ => obj
    end in
  match JSObject.get obj1 normalized with
  | JSObject.Own g =>
      Normal (JSObject.set obj1 normalized
                {| display := display g; items := items g ++ [exp] |})
  | _ => Throw TypeError
  end.

(** [(a, b) => new Date(b.date).getTime() - new Date(a.date).getTime()]. *)
Definition newestFirst (a b : Expense) : Z :=
  JSArray.SortCompare
    (JSArray.minus (JSDate.getTime (date b)) (JSDate.getTime (date a))).

Definition sortItems (cat : Group) : Group :=
  {| display := display cat; items := JSArray.sort newestFirst (items cat) |}.

(** [expensesByCategory] once both loops over it have run. *)
Definition expensesByCategory (filtered : list Expense)
  : Completion (JSObject.object Group) :=
  obj <- forEach addToCategory filtered [] ;;
  Normal (JSObject.mapValues sortItems obj).

(** The callback of the second [filteredExpenses.forEach]. The month object
    is read through the prototype chain like the groups above: for a category
    key that [Object.prototype] defines no array is created, and [.push] is
    not a function. A month label is never such a name ([monthLabel_own]
    below), so the outer read always finds the month just created and the
    last branch is not reached. *)
Definition addToMonth (monthLabelOf : string -> string)
  (obj : JSObject.object (JSObject.object (list Expense))) (exp : Expense)
  : Completion (JSObject.object (JSObject.object (list Expense))) :=
  let monthLabel := monthLabelOf (date exp) in
  let obj1 :=
    match JSObject.get obj monthLabel with
    | JSObject.Undefined => JSObject.set obj monthLabel []
    | _ => obj
    end in
  let categoryKey := JSString.toLocaleLowerCase (category exp) in
  match JSObject.get obj1 monthLabel with
  | JSObject.Own month =>
      let month1 :=
        match JSObject.get month categoryKey with
        | JSObject.Undefined => JSObject.set month categoryKey []
        | _ => month
        end in
      match JSObject.get month1 categoryKey with
      | JSObject.Own arr =>
          Normal (JSObject.set obj1 monthLabel
                    (JSObject.set month1 categoryKey (arr ++ [exp])))
      | _ => Throw TypeError
      end
  | _ => Throw TypeError
  end.

(** The callback of [expenses.forEach] that fills [monthlyTotals]. The test
    [!monthlyTotals[monthLabel]] also holds for a total that is 0 or [NaN],
    which is then set to 0. The label is an own property by the time it is
    added to, so the last branch is not reached. *)
Definition addToMonthlyTotals (monthLabelOf : string -> string)
  (obj : JSObject.object float) (exp : Expense) : JSObject.object float :=
  let monthLabel := monthLabelOf (date exp) in
  let obj1 :=
    match JSObject.get obj monthLabel with
    | JSObject.Undefined => JSObject.set obj monthLabel 0%float
    | JSObject.Own v =>
        if JSNumber.falsy v then JSObject.set obj monthLabel 0%float else obj
    | JSObject.Inherited => obj
    end in
  match JSObject.get obj1 monthLabel with
  | JSObject.Own v => JSObject.set obj1 monthLabel (v + amount exp)%float
  | _ => obj1
  end.

(** [monthTotal] and [categoryTotal] of the rendering loop. *)
Definition monthTotal (month : Month) : float :=
  sumAmounts (List.concat (JSObject.values (categories month))).

Definition categoryTotal (arr : list Expense) : float := sumAmounts arr.

Section Dashboard.

(** The host: its time zone and the collation of its locale. *)
Variable timeZoneOffset : Z.
Variable localeCompare : string -> string -> Z.

Definition monthLabelOf (d : string) : string :=
  JSDate.toLocaleMonthYear timeZoneOffset d.

Definition byDisplay (a b : Group) : Z :=
  localeCompare (JSString.toLocaleLowerCase (display a))
                (JSString.toLocaleLowerCase (display b)).

Definition sortedCategories (filtered : list Expense) : Completion (list Group) :=
  obj <- expensesByCategory filtered ;;
  Normal (JSArray.sort byDisplay (JSObject.values obj)).

Definition expensesByMonth (filtered : list Expense)
  : Completion (JSObject.object (JSObject.object (list Expense))) :=
  forEach (addToMonth monthLabelOf) filtered [].

(** [(a, b) => new Date(b).getTime() - new Date(a).getTime()] on labels. *)
Definition newestMonthFirst (a b : string) : Z :=
  JSArray.SortCompare
    (JSArray.minus (JSDate.getTimeOfLabel timeZoneOffset b)
                   (JSDate.getTimeOfLabel timeZoneOffset a)).

Definition sortedMonths (filtered : list Expense) : Completion (list Month) :=
  obj <- expensesByMonth filtered ;;
  Normal (map (fun l =>
                 {| label := l;
                    categories := match JSObject.getOwn obj l with
                                  | Some c => c
                                  | None => []
                                  end |})
              (JSArray.sort newestMonthFirst (JSObject.keys obj))).

Definition monthlyTotals (expenses : list Expense) : JSObject.object float :=
  fold_left (addToMonthlyTotals monthLabelOf) expenses [].

Definition monthLabels (expenses : list Expense) : list string :=
  JSObject.keys (monthlyTotals expenses).

Definition monthValues (expenses : list Expense) : list float :=
  JSObject.values (monthlyTotals expenses).

(** Everything one render derives from the state [expenses], [searchTerm]. *)
Record View : Type := {
  viewTotalSpent : float;
  viewFiltered : list Expense;
  viewCategories : list Group;
  viewMonths : list Month;
  chartLabels : list string;
  chartData : list float
}.

Definition DashboardPage (expenses : list Expense) (searchTerm : string)
  : Completion View :=
  let filtered := filteredExpenses expenses searchTerm in
  cats <- sortedCategories filtered ;;
  months <- sortedMonths filtered ;;
  Normal {| viewTotalSpent := totalSpent expenses;
            viewFiltered := filtered;
            viewCategories := cats;
            viewMonths := months;
            chartLabels := monthLabels expenses;
            chartData := monthValues expenses |}.

End Dashboard.

(** ** Vocabulary of the statements *)

(** The distinct keys of a list, each at its first occurrence. *)
Fixpoint firstSeen (ks : list string) : list string :=
  match ks with
  | [] => []
  | k :: ks' => k :: filter (fun k' => negb (String.eqb k' k)) (firstSeen ks')
  end.

Definition categoryKey (exp : Expense) : string :=
  JSString.toLowerCase (category exp).

(** The object whose keys are [ks], in this creation order, with [f k]
    stored at [k]. *)
Definition tabulate {V : Type} (f : string -> V) (ks : list string)
  : JSObject.object V :=
  map (fun k => (k, f k)) ks.

Definition update {V : Type} (f : string -> V) (k : string) (v : V) : string -> V :=
  fun k' => if String.eqb k' k then v else f k'.

Definition mem (k : string) (ks : list string) : bool :=
  existsb (String.eqb k) ks.

(** Own-property order on a list of distinct keys given in creation order:
    the array indices in ascending order, then the other keys as created. *)
Fixpoint insertKey (k : string) (l : list string) : list string :=
  match l with
  | [] => [k]
  | q :: l' =>
      if (JSObject.indexOf k <=? JSObject.indexOf q)%N then k :: l
      else q :: insertKey k l'
  end.

Definition ascendingKeys (ks : list string) : list string :=
  fold_right insertKey [] ks.

Definition ownPropertyOrder (ks : list string) : list string :=
  ascendingKeys (filter JSObject.isArrayIndex ks)
  ++ filter (fun k => negb (JSObject.isArrayIndex k)) ks.

(** [a] may stand before [b] in an array sorted by [comparefn]. *)
Definition inOrder {A : Type} (comparefn : A -> A -> Z) (a b : A) : Prop :=
  (comparefn a b <= 0)%Z.

(** The sum of a list of rationals. *)
Definition sumQ (l : list Q) : Q := fold_left Qplus l 0.

(** The sum of a list of numbers as the page adds numbers: from the left,
    starting at 0, rounding at every step. *)
Definition sumNumbers (l : list float) : float :=
  fold_left PrimFloat.add l 0%float.

(** The elements whose key is [k]. *)
Definition filedUnder {A : Type} (key : A -> string) (k : string) (x : A) : bool :=
  String.eqb (key x) k.

(** The records of [l] filed under the category key [k]. *)
Definition inCategory (k : string) (exp : Expense) : bool :=
  String.eqb (categoryKey exp) k.

(** The category text of the first record of [l] filed under [k]. *)
Definition firstDisplay (l : list Expense) (k : string) : string :=
  match find (inCategory k) l with
  | Some exp => category exp
  | None => EmptyString
  end.

Definition groupOf (l : list Expense) (k : string) : Group :=
  {| display := firstDisplay l k; items := filter (inCategory k) l |}.

(** The category cells of the records [l] of one month: one cell per
    category key, created in first-seen order, each holding its records in
    input order. *)
Definition cellsOf (l : list Expense) : JSObject.object (list Expense) :=
  tabulate (fun k => filter (inCategory k) l) (firstSeen (map categoryKey l)).

(** The records whose month label, computed by [lab], is [L]. *)
Definition inMonth (lab : string -> string) (L : string) (exp : Expense) : bool :=
  String.eqb (lab (date exp)) L.

(** What [expensesByMonth] holds after the records [l]: one property per
    month label, created in first-seen order, holding the cells of the
    records of that month. *)
Definition monthsOf (lab : string -> string) (l : list Expense)
  : JSObject.object (JSObject.object (list Expense)) :=
  tabulate (fun L => cellsOf (filter (inMonth lab L) l))
           (firstSeen (map (fun exp => lab (date exp)) l)).

(** The addition [a + b] does not round: the two numbers and their sum are
    finite, and the sum denotes the sum of what the two numbers denote. *)
Definition exactAddition (a b : float) : bool :=
  match JSNumber.exact a, JSNumber.exact b, JSNumber.exact (a + b) with
  | Some x, Some y, Some z => Qeq_bool z (x + y)
  | _, _, _ => false
  end.

(** No addition rounds when the numbers [l] are added to [acc] from the
    left, as [reduce] adds them. *)
Fixpoint noRoundingFrom (acc : float) (l : list float) : bool :=
  match l with
  | [] => true
  | x :: l' => exactAddition acc x && noRoundingFrom (acc + x) l'
  end.

Definition noRounding (l : list float) : bool := noRoundingFrom 0 l.

(** The rational that a number denotes, with 0 standing in for a number
    that denotes none. It serves the lemmas about sums, which use it of
    numbers known to be finite. *)
Definition denoted (v : float) : Q :=
  match JSNumber.exact v with
  | Some q => q
  | None => 0
  end.

(** The sum of the amounts of [l] as rational numbers, without rounding. *)
Definition exactSum (l : list Expense) : Q :=
  sumQ (map (fun exp => denoted (amount exp)) l).

(** The total that [monthlyTotals] keeps for the records [l] of one month:
    their amounts added in input order, from 0 again whenever the total so
    far is 0 or [NaN]. *)
Definition runningTotal (l : list Expense) : float :=
  fold_left (fun acc exp =>
               ((if JSNumber.falsy acc then 0 else acc) + amount exp)%float)
            l 0%float.

(** The label of a group as the comparator of [sortedCategories] sees it. *)
Definition foldedLabel (g : Group) : string :=
  JSString.toLocaleLowerCase (display g).

(** The records of [l] that [sortedMonths] files under the label [L]. *)
Definition monthRecords (tz : Z) (L : string) (l : list Expense) : list Expense :=
  filter (inMonth (monthLabelOf tz) L) l.

(** The cells of every month come in first-seen order of their category. *)
Definition cellsInFirstSeenOrder (tz : Z) (l : list Expense) : Prop :=
  forall ms m,
    sortedMonths tz l = Normal ms -> In m ms ->
    JSObject.keys (categories m)
    = firstSeen (map categoryKey (monthRecords tz (label m) l)).


(** The values of the monthly series add up to the grand total, as numbers. *)
Definition seriesAddsUp (tz : Z) (expenses : list Expense) : Prop :=
  PrimFloat.eqb (sumNumbers (monthValues tz expenses)) (totalSpent expenses) = true.

(** No category of [l] lowercases to a name of [Object.prototype]. *)
Definition ownCategories (l : list Expense) : bool :=
  forallb (fun exp => negb (JSObject.inherited (categoryKey exp))) l.

(** The date of a record is a date: [new Date(exp.date)] is not Invalid Date. *)
Definition validDate (exp : Expense) : Prop :=
  JSDate.getTime (date exp) <> None.

(** The time value of the date of a record. *)
Definition timeValue (exp : Expense) : Z :=
  JSArray.SortCompare (JSDate.getTime (date exp)).

(** The text searched in the notes of a record: nothing when there are none. *)
Definition notesText (exp : Expense) : string :=
  match notes exp with
  | Some n => n
  | None => EmptyString
  end.

(** A record matches a search term when the lowercased term occurs in its
    lowercased title, category or notes. *)
Definition Matches (searchTerm : string) (exp : Expense) : Prop :=
  let text := JSString.toLowerCase searchTerm in
  JSString.Substring text (JSString.toLowerCase (title exp))
  \/ JSString.Substring text (JSString.toLowerCase (category exp))
  \/ JSString.Substring text (JSString.toLowerCase (notesText exp)).

(** The date of a record as the number [yyyymmdd]. *)
Definition calendarDay (exp : Expense) : Z :=
  match JSDate.parseISODate (date exp) with
  | Some (y, m, d) => (y * 10000 + m * 100 + d)%Z
  | None => 0%Z
  end.

(** The month of a label [Month YYYY], counted from year 0. *)
Definition monthNumber (L : string) : Z :=
  match JSDate.parseMonthYear L with
  | Some (y, m) => (12 * y + m)%Z
  | None => 0%Z
  end.

(** A date of the year 101 or later: its month label, in any time zone,
    carries a year of at least three digits. *)
Definition threeDigitYear (exp : Expense) : Prop :=
  exists y m d, JSDate.parseISODate (date exp) = Some (y, m, d) /\ (101 <= y)%Z.

(** ** Sample inputs *)

(** Amounts are written in decimal and stand for the nearest float, as they
    do in JavaScript. *)
#[local] Set Warnings "-inexact-float".

(** A collation for examples: strings compared by their code units. *)
Definition codeUnitCompare (a b : string) : Z :=
  match String.compare a b with
  | Lt => (-1)%Z
  | Eq => 0%Z
  | Gt => 1%Z
  end.

Definition coffee : Expense :=
  {| id := "1"; title := "Coffee"; amount := 4.5; category := "Food";
     date := "2024-03-01"; notes := None |}.

Definition bus : Expense :=
  {| id := "2"; title := "Bus"; amount := 2.75; category := "Transport";
     date := "2024-03-15"; notes := None |}.

Definition lunch : Expense :=
  {| id := "3"; title := "Lunch"; amount := 12; category := "food";
     date := "2024-04-02"; notes := Some "team lunch" |}.

Definition scenarioA : list Expense := [coffee; bus; lunch].

(** A record with the date and the category of [coffee]. *)
Definition tea : Expense :=
  {| id := "7"; title := "Tea"; amount := 3; category := "Food";
     date := "2024-03-01"; notes := None |}.

(** A record whose category is a property name of [Object.prototype]. *)
Definition hardware : Expense :=
  {| id := "4"; title := "Lego set"; amount := 30; category := "Constructor";
     date := "2024-03-02"; notes := None |}.

(** Two categories of one month, the second an array index. *)
Definition stamps : Expense :=
  {| id := "5"; title := "Stamps"; amount := 3; category := "Post";
     date := "2024-04-02"; notes := None |}.

Definition locker : Expense :=
  {| id := "6"; title := "Locker"; amount := 2; category := "2024";
     date := "2024-04-03"; notes := None |}.

(** Three amounts whose sum depends on the order of the additions. *)
Definition paper : Expense :=
  {| id := "9"; title := "Paper"; amount := 1.1; category := "Office";
     date := "2024-03-01"; notes := None |}.

Definition fare : Expense :=
  {| id := "10"; title := "Fare"; amount := 2.2; category := "Travel";
     date := "2024-04-05"; notes := None |}.

Definition toner : Expense :=
  {| id := "11"; title := "Toner"; amount := 3.3; category := "Office";
     date := "2024-03-20"; notes := None |}.

Definition officeSupplies : list Expense := [paper; fare; toner].

(** Amounts that add without rounding in the order of the input and round
    when they are added group by group: 2^53, 0, -1 and 1. *)
Definition deposit : Expense :=
  {| id := "13"; title := "Deposit"; amount := 9007199254740992;
     category := "A"; date := "2024-03-10"; notes := None |}.

Definition voucher : Expense :=
  {| id := "14"; title := "Voucher"; amount := 0; category := "B";
     date := "2024-04-10"; notes := None |}.

Definition refund : Expense :=
  {| id := "15"; title := "Refund"; amount := -1; category := "C";
     date := "2024-05-10"; notes := None |}.

Definition fee : Expense :=
  {| id := "16"; title := "Fee"; amount := 1; category := "B";
     date := "2024-04-20"; notes := None |}.

Definition largeAmounts : list Expense := [deposit; voucher; refund; fee].

(** The category of [coffee] followed by a space. *)
Definition snack : Expense :=
  {| id := "8"; title := "Snack"; amount := 2; category := "Food ";
     date := "2024-03-03"; notes := None |}.

(** ** The page's state and its handlers *)

(** [ToBoolean] of a value that is a string or [null]: false for [null] and
    for the empty string. *)
Definition ToBoolean (v : option string) : bool :=
  match v with
  | Some s => negb (String.eqb s "")
  | None => false
  end.

Module Supabase.

(** The signed-in user, of which the page reads [id] and [email]. *)
Record User : Type := {
  id : string;
  email : string
}.

Record PostgrestError : Type := {
  message : string
}.

(** What a query resolves to: [{ data, error }], either of them [null]. *)
Record Response (D : Type) : Type := {
  data : option D;
  error : option PostgrestError
}.

Arguments data {D} _.
Arguments error {D} _.

End Supabase.

Module ExpenseFormValues.

Record t : Type := {
  title : string;
  amount : float;
  category : string;
  date : string;
  notes : string
}.

End ExpenseFormValues.

(** The [useState] cells of [DashboardPage]. *)
Record State : Type := {
  user : option Supabase.User;
  expenses : list Expense;
  loadingExpenses : bool;
  expensesError : option string;
  editingExpenseId : option string;
  openMonth : option string;
  searchTerm : string
}.

(** The state of the first render. *)
Definition initialState : State :=
  {| user := None; expenses := []; loadingExpenses := false;
     expensesError := None; editingExpenseId := None; openMonth := None;
     searchTerm := "" |}.

(** The requests the page sends, each with what it resolves to:
    [supabase.auth.getUser()] (of which the page reads [data.user]),
    [supabase.auth.signOut()], the query
    [from('expenses').select('*').eq('user_id', user_id).order('date', { ascending: false })],
    [from('expenses').delete().eq('id', id)],
    [from('expenses').update(values).eq('id', id)] and
    [rpc('add_expense', { p_title, p_amount, p_category, p_date, p_notes })]. *)
Inductive Request : Type -> Type :=
| authGetUser : Request (option Supabase.User)
| authSignOut : Request unit
| selectExpenses (user_id : string) : Request (Supabase.Response (list Expense))
| deleteExpense (id : string) : Request (Supabase.Response unit)
| updateExpense (values : ExpenseFormValues.t) (id : string)
    : Request (Supabase.Response unit)
| rpcAddExpense (p_title : string) (p_amount : float)
    (p_category p_date p_notes : string) : Request (Supabase.Response unit).

(** What a handler does besides sending requests: the state setters,
    [alert], [router.push] and the [reset] of the form, without values or
    with the values to show. *)
Inductive Action : Type :=
| setUser (v : option Supabase.User)
| setExpenses (v : list Expense)
| setLoadingExpenses (v : bool)
| setExpensesError (v : option string)
| setEditingExpenseId (v : option string)
| setOpenMonth (v : option string)
| setSearchTerm (v : string)
| alert (message : string)
| routerPush (href : string)
| reset (values : option ExpenseFormValues.t).

(** A handler run to its end: the actions it performs in order, each
    [await] continuing with what the request resolved to. *)
Inductive Task : Type :=
| done
| perform (a : Action) (next : Task)
| await {R : Type} (q : Request R) (next : R -> Task).

(** [await t] for an async function [t], followed by [k]. *)
Fixpoint andThen (t k : Task) : Task :=
  match t with
  | done => k
  | perform a next => perform a (andThen next k)
  | await q next => await q (fun r => andThen (next r) k)
  end.

(** [Number(v)] of a number. *)
Definition Number (v : float) : float := v.

(** [fetchExpenses(currentUser = user)]; a caller that passes no argument
    passes the [user] of its render. *)
Definition fetchExpenses (currentUser : option Supabase.User) : Task :=
  match currentUser with
  | None => perform (alert "No user logged in") done
  | Some u =>
      perform (setLoadingExpenses true)
        (perform (setExpensesError None)
           (await (selectExpenses (Supabase.id u)) (fun r =>
              perform
                (match Supabase.error r with
                 | Some e => setExpensesError (Some (Supabase.message e))
                 | None =>
                     setExpenses (match Supabase.data r with
                                  | Some rows => rows
                                  | None => []
                                  end)
                 end)
                (perform (setLoadingExpenses false) done))))
  end.

(** The effect that runs once the page is mounted. *)
Definition checkUser : Task :=
  await authGetUser (fun u =>
    match u with
    | None => perform (routerPush "/login") done
    | Some u' => perform (setUser (Some u')) (fetchExpenses (Some u'))
    end).

Definition handleLogOut : Task :=
  await authSignOut (fun _ => perform (routerPush "/login") done).

(** The handlers below are closures of a render: [st] is the state that
    render saw. *)
Definition handleDeleteExpense (st : State) (id : string) : Task :=
  await (deleteExpense id) (fun r =>
    match Supabase.error r with
    | Some e =>
        perform (alert ("Error deleting expense: " ++ Supabase.message e)) done
    | None => fetchExpenses (user st)
    end).

Definition onSubmit (st : State) (data : ExpenseFormValues.t) : Task :=
  match user st with
  | None => perform (alert "No user logged in") done
  | Some _ =>
      let refresh := andThen (fetchExpenses (user st)) (perform (reset None) done) in
      let add :=
        await (rpcAddExpense (ExpenseFormValues.title data)
                 (Number (ExpenseFormValues.amount data))
                 (ExpenseFormValues.category data)
                 (ExpenseFormValues.date data)
                 (ExpenseFormValues.notes data)) (fun r =>
          match Supabase.error r with
          | Some e =>
              perform (alert ("Error updating expense: " ++ Supabase.message e)) done
          | None => refresh
          end) in
      match editingExpenseId st with
      | Some editing =>
          if ToBoolean (Some editing) then
            await (updateExpense data editing) (fun r =>
              match Supabase.error r with
              | Some e =>
                  perform (alert ("Error updating expense: " ++ Supabase.message e))
                          done
              | None =>
                  perform (alert "Expense updated!")
                    (perform (setEditingExpenseId None) refresh)
              end)
          else add
      | None => add
      end
  end.

(** [onClick] of a month header. *)
Definition toggleMonth (st : State) (monthLabel : string) : Task :=
  perform
    (setOpenMonth
       (match openMonth st with
        | Some o => if String.eqb o monthLabel then None else Some monthLabel
        | None => Some monthLabel
        end))
    done.

(** [onClick] of the Edit button of a card; [exp.notes || ''] fills the
    notes. *)
Definition startEdit (exp : Expense) : Task :=
  perform (setEditingExpenseId (Some (id exp)))
    (perform
       (reset (Some {| ExpenseFormValues.title := title exp;
                       ExpenseFormValues.amount := amount exp;
                       ExpenseFormValues.category := category exp;
                       ExpenseFormValues.date := date exp;
                       ExpenseFormValues.notes :=
                         match notes exp with
                         | Some n => if ToBoolean (Some n) then n else ""
                         | None => ""
                         end |}))
       done).

(** [onClick] of the Cancel Edit button. *)
Definition cancelEdit : Task :=
  perform (setEditingExpenseId None) (perform (reset None) done).

(** [onChange] of the search input. *)
Definition onSearchChange (value : string) : Task :=
  perform (setSearchTerm value) done.

(** What the user does to the mounted page, and the handler that the JSX
    wires to it; [Submit] is a submit that passed the validation of the
    form. *)
Inductive Interaction : Type :=
| Mount
| ClickLogout
| Submit (data : ExpenseFormValues.t)
| ClickCancelEdit
| TypeSearch (value : string)
| ClickMonth (monthLabel : string)
| ClickDelete (id : string)
| ClickEdit (exp : Expense).

Definition handler (st : State) (i : Interaction) : Task :=
  match i with
  | Mount => checkUser
  | ClickLogout => handleLogOut
  | Submit data => onSubmit st data
  | ClickCancelEdit => cancelEdit
  | TypeSearch value => onSearchChange value
  | ClickMonth monthLabel => toggleMonth st monthLabel
  | ClickDelete id => handleDeleteExpense st id
  | ClickEdit exp => startEdit exp
  end.

(** ** Running a handler *)

(** What can be observed of a run besides the state: the requests sent, the
    alerts shown, the navigations and the resets of the form. *)
Inductive Event : Type :=
| Requested {R : Type} (q : Request R)
| Alerted (message : string)
| Navigated (href : string)
| FormReset (values : option ExpenseFormValues.t).

(** The page, the backend it talks to, and what has been observed so far. *)
Record World (Backend : Type) : Type := {
  page : State;
  server : Backend;
  events : list Event
}.

Arguments page {Backend} _.
Arguments server {Backend} _.
Arguments events {Backend} _.

Definition act (a : Action) (st : State) : State * list Event :=
  match a with
  | setUser v =>
      ({| user := v; expenses := expenses st;
          loadingExpenses := loadingExpenses st;
          expensesError := expensesError st;
          editingExpenseId := editingExpenseId st;
          openMonth := openMonth st; searchTerm := searchTerm st |}, [])
  | setExpenses v =>
      ({| user := user st; expenses := v;
          loadingExpenses := loadingExpenses st;
          expensesError := expensesError st;
          editingExpenseId := editingExpenseId st;
          openMonth := openMonth st; searchTerm := searchTerm st |}, [])
  | setLoadingExpenses v =>
      ({| user := user st; expenses := expenses st;
          loadingExpenses := v;
          expensesError := expensesError st;
          editingExpenseId := editingExpenseId st;
          openMonth := openMonth st; searchTerm := searchTerm st |}, [])
  | setExpensesError v =>
      ({| user := user st; expenses := expenses st;
          loadingExpenses := loadingExpenses st;
          expensesError := v;
          editingExpenseId := editingExpenseId st;
          openMonth := openMonth st; searchTerm := searchTerm st |}, [])
  | setEditingExpenseId v =>
      ({| user := user st; expenses := expenses st;
          loadingExpenses := loadingExpenses st;
          expensesError := expensesError st;
          editingExpenseId := v;
          openMonth := openMonth st; searchTerm := searchTerm st |}, [])
  | setOpenMonth v =>
      ({| user := user st; expenses := expenses st;
          loadingExpenses := loadingExpenses st;
          expensesError := expensesError st;
          editingExpenseId := editingExpenseId st;
          openMonth := v; searchTerm := searchTerm st |}, [])
  | setSearchTerm v =>
      ({| user := user st; expenses := expenses st;
          loadingExpenses := loadingExpenses st;
          expensesError := expensesError st;
          editingExpenseId := editingExpenseId st;
          openMonth := openMonth st; searchTerm := v |}, [])
  | alert message => (st, [Alerted message])
  | routerPush href => (st, [Navigated href])
  | reset values => (st, [FormReset values])
  end.

Section Run.

(** The backend: a state and the way it answers a request. *)
Variable Backend : Type.
Variable respond : forall R : Type, Request R -> Backend -> R * Backend.

Fixpoint run (t : Task) (w : World Backend) : World Backend :=
  match t with
  | done => w
  | perform a next =>
      run next {| page := fst (act a (page w));
                  server := server w;
                  events := events w ++ snd (act a (page w)) |}
  | await q next =>
      run (next (fst (respond _ q (server w))))
          {| page := page w;
             server := snd (respond _ q (server w));
             events := events w ++ [Requested q] |}
  end.

(** The interactions of a session, each handled by the closure of the
    render that precedes it. *)
Definition session (interactions : list Interaction) (w : World Backend)
  : World Backend :=
  fold_left (fun w i => run (handler (page w) i) w) interactions w.

End Run.

Arguments run {Backend} respond t w.
Arguments session {Backend} respond interactions w.

(** ** What the page shows *)

Definition shortMonthNames : list string :=
  [ "Jan"; "Feb"; "Mar"; "Apr"; "May"; "Jun"; "Jul"; "Aug"; "Sep"; "Oct";
    "Nov"; "Dec" ].

Definition shortMonthName (m : Z) : string :=
  nth (Z.to_nat (m - 1)) shortMonthNames EmptyString.

Definition decimal (n : Z) : string :=
  NilZero.string_of_uint (N.to_uint (Z.to_N n)).

(** The short month name, the day and the year, as [en-US] writes them:
    [Mar 1, 2024]. *)
Definition formatShortDate (y m d : Z) : string :=
  shortMonthName m ++ " " ++ decimal d ++ ", " ++ decimal y.

(** [new Date(s).toLocaleDateString('en-US', { year: 'numeric', month: 'short', day: 'numeric' })]
    on a host whose offset from UTC is [timeZoneOffset]. *)
Definition toLocaleShortDate (timeZoneOffset : Z) (s : string) : string :=
  match JSDate.parseISODate s with
  | Some ymd =>
      let '(y, m, d) := JSDate.localDate timeZoneOffset ymd in formatShortDate y m d
  | None => "Invalid Date"
  end.

(** [array.map(callback)] for a callback that may throw. *)
Fixpoint mapM {A B : Type} (callback : A -> Completion B) (l : list A)
  : Completion (list B) :=
  match l with
  | [] => Normal []
  | x :: l' => y <- callback x ;; ys <- mapM callback l' ;; Normal (y :: ys)
  end.

(** The parts of the JSX that depend on the state. An amount stands for its
    rendering by [toLocaleString('en-US', { style: 'currency', currency: 'USD' })]. *)
Record ExpenseCard : Type := {
  cardKey : string;
  cardTitle : string;
  cardAmount : float;
  cardDate : string;
  cardNotes : option string
}.

Record CategoryBlock : Type := {
  categoryBlockKey : string;
  categoryHeading : string;
  categoryBlockTotal : float;
  expenseCards : list ExpenseCard
}.

Record MonthBlock : Type := {
  monthBlockKey : string;
  expanded : bool;
  monthHeader : string;
  monthBlockTotal : float;
  categoryBlocks : option (list CategoryBlock)
}.

Record Screen : Type := {
  welcome : string;
  submitLabel : string;
  cancelEditButton : bool;
  searchValue : string;
  chart : option (list string * list float);
  totalText : option float;
  loadingText : bool;
  errorText : option string;
  emptyText : bool;
  monthBlocks : list MonthBlock
}.

(** A render returns the paragraph [Loading...] or the dashboard. *)
Inductive Rendered : Type :=
| LoadingUser
| Dashboard (screen : Screen).

Section Render.

Variable timeZoneOffset : Z.
Variable localeCompare : string -> string -> Z.

Definition renderCard (exp : Expense) : ExpenseCard :=
  {| cardKey := id exp;
     cardTitle := title exp;
     cardAmount := amount exp;
     cardDate := toLocaleShortDate timeZoneOffset (date exp);
     cardNotes := if ToBoolean (notes exp) then notes exp else None |}.

(** The callback of [Object.entries(month.categories).map]; reading
    [items[0].category] of an empty array throws. *)
Definition renderCategory (entry : string * list Expense) : Completion CategoryBlock :=
  let '(categoryKey, items) := entry in
  match items with
  | [] => Throw TypeError
  | first :: _ =>
      Normal {| categoryBlockKey := categoryKey;
                categoryHeading := category first;
                categoryBlockTotal := categoryTotal items;
                expenseCards := map renderCard items |}
  end.

(** The callback of [sortedMonths.map]; the cells are rendered only for the
    month that is open. *)
Definition renderMonth (openMonth : option string) (month : Month)
  : Completion MonthBlock :=
  let isOpen :=
    match openMonth with
    | Some o => String.eqb o (label month)
    | None => false
    end in
  blocks <- (if isOpen
             then bs <- mapM renderCategory (JSObject.entries (categories month)) ;;
                  Normal (Some bs)
             else Normal None) ;;
  Normal {| monthBlockKey := label month;
            expanded := isOpen;
            monthHeader := label month;
            monthBlockTotal := monthTotal month;
            categoryBlocks := blocks |}.

(** [DashboardPage] as a whole, for the state [st] and the [isSubmitting]
    flag of the form. *)
Definition render (isSubmitting : bool) (st : State) : Completion Rendered :=
  match user st with
  | None => Normal LoadingUser
  | Some u =>
      view <- DashboardPage timeZoneOffset localeCompare (expenses st) (searchTerm st) ;;
      blocks <- mapM (renderMonth (openMonth st)) (viewMonths view) ;;
      Normal
        (Dashboard
           {| welcome := Supabase.email u;
              submitLabel :=
                if isSubmitting then "Saving..."
                else if ToBoolean (editingExpenseId st) then "Update Expense"
                     else "Add Expense";
              cancelEditButton := ToBoolean (editingExpenseId st);
              searchValue := searchTerm st;
              chart :=
                if (0 <? List.length (chartLabels view))%nat
                then Some (chartLabels view, chartData view)
                else None;
              totalText :=
                if negb (loadingExpenses st) && (0 <? List.length (expenses st))%nat
                then Some (viewTotalSpent view)
                else None;
              loadingText := loadingExpenses st;
              errorText :=
                if ToBoolean (expensesError st) then expensesError st else None;
              emptyText :=
                negb (loadingExpenses st) && (List.length (expenses st) =? 0)%nat;
              monthBlocks := blocks |})
  end.

End Render.

(** ** More sample inputs *)

Definition ana : Supabase.User :=
  {| Supabase.id := "u-1"; Supabase.email := "ana@example.com" |}.

(** A backend that knows [ana] and refuses every query. *)
Definition refusing (R : Type) (q : Request R) (b : unit) : R * unit :=
  match q in Request R return R * unit with
  | authGetUser => (Some ana, tt)
  | authSignOut => (tt, tt)
  | selectExpenses _ =>
      ({| Supabase.data := None;
          Supabase.error := Some {| Supabase.message := "permission denied" |} |}, tt)
  | deleteExpense _ | updateExpense _ _ | rpcAddExpense _ _ _ _ _ =>
      ({| Supabase.data := None;
          Supabase.error := Some {| Supabase.message := "permission denied" |} |}, tt)
  end.

(** A backend that holds the table as a list of rows, kept in the order
    of the query: it returns the rows to every query for them, removes the
    row that a deletion names, and accepts the other writes without
    carrying them out. *)
Definition serving (R : Type) (q : Request R) (rows : list Expense)
  : R * list Expense :=
  match q in Request R return R * list Expense with
  | authGetUser => (Some ana, rows)
  | authSignOut => (tt, rows)
  | selectExpenses _ =>
      ({| Supabase.data := Some rows; Supabase.error := None |}, rows)
  | deleteExpense i =>
      ({| Supabase.data := None; Supabase.error := None |},
       filter (fun exp => negb (String.eqb (id exp) i)) rows)
  | updateExpense _ _ | rpcAddExpense _ _ _ _ _ =>
      ({| Supabase.data := None; Supabase.error := None |}, rows)
  end.

(** The page of [ana] showing [scenarioA], April open. *)
Definition aprilOpen : State :=
  {| user := Some ana; expenses := scenarioA; loadingExpenses := false;
     expensesError := None; editingExpenseId := None;
     openMonth := Some "April 2024"; searchTerm := "" |}.

(** Values typed into the form. *)
Definition groceries : ExpenseFormValues.t :=
  {| ExpenseFormValues.title := "Groceries";
     ExpenseFormValues.amount := 23.5;
     ExpenseFormValues.category := "Food";
     ExpenseFormValues.date := "2024-04-06";
     ExpenseFormValues.notes := "" |}.

(** ** Vocabulary of the statements about the screen *)

(** The block of the category key [k] among the records [l] of one month. *)
Definition categoryBlockOf (tz : Z) (l : list Expense) (k : string) : CategoryBlock :=
  {| categoryBlockKey := k;
     categoryHeading := firstDisplay l k;
     categoryBlockTotal := categoryTotal (filter (inCategory k) l);
     expenseCards := map (renderCard tz) (filter (inCategory k) l) |}.

(** The block of the month labelled [L] among the filtered records [l], on
    a page whose open month is [o]. *)
Definition monthBlockOf (tz : Z) (o : option string) (l : list Expense) (L : string)
  : MonthBlock :=
  let isOpen := match o with Some o' => String.eqb o' L | None => false end in
  {| monthBlockKey := L;
     expanded := isOpen;
     monthHeader := L;
     monthBlockTotal :=
       monthTotal {| label := L; categories := cellsOf (monthRecords tz L l) |};
     categoryBlocks :=
       if isOpen
       then Some (map (categoryBlockOf tz (monthRecords tz L l))
                      (ownPropertyOrder
                         (firstSeen (map categoryKey (monthRecords tz L l)))))
       else None |}.

(** The cards of a month block, in the order shown. *)
Definition cardsShown (bs : list CategoryBlock) : list ExpenseCard :=
  flat_map expenseCards bs.

(** ** Facts about strings *)

Lemma startsWith_spec (t s : string) :
  JSString.startsWith t s = true <-> exists suf, s = (t ++ suf)%string.
Proof.
  revert s. induction t as [|a t IH]; intros s; simpl.
  - split; [intros _; now exists s | reflexivity].
  - destruct s as [|b s].
    + split; [discriminate | intros [suf H]; discriminate].
    + rewrite andb_true_iff, Ascii.eqb_eq, IH. split.
      * intros [-> [suf ->]]. now exists suf.
      * intros [suf H]. injection H as -> ->. split; [reflexivity | now exists suf].
Qed.

Lemma includes_spec (s t : string) :
  JSString.includes s t = true <-> JSString.Substring t s.
Proof.
  unfold JSString.Substring. induction s as [|c s IH].
  - simpl. rewrite orb_false_r, startsWith_spec. split.
    + intros [suf H]. now exists EmptyString, suf.
    + intros [pre [suf H]]. destruct pre; [now exists suf | discriminate].
  - cbn [JSString.includes]. rewrite orb_true_iff, startsWith_spec, IH. split.
    + intros [[suf H] | [pre [suf H]]].
      * now exists EmptyString, suf.
      * exists (String c pre), suf. simpl. now rewrite H.
    + intros [pre [suf H]]. destruct pre as [|c' pre].
      * left. now exists suf.
      * right. simpl in H. injection H as _ H. now exists pre, suf.
Qed.

Lemma mem_In (k : string) (ks : list string) : mem k ks = true <-> In k ks.
Proof.
  unfold mem. rewrite existsb_exists. split.
  - intros [x [Hin Heq]]. apply String.eqb_eq in Heq. now subst.
  - intros Hin. exists k. split; [assumption | apply String.eqb_refl].
Qed.

Lemma mem_false (k : string) (ks : list string) : mem k ks = false <-> ~ In k ks.
Proof.
  rewrite <- mem_In. destruct (mem k ks); split; congruence.
Qed.

(** ** Facts about first-seen order *)

Lemma firstSeen_In (k : string) (ks : list string) :
  In k (firstSeen ks) <-> In k ks.
Proof.
  induction ks as [|a ks IH]; simpl; [tauto|].
  rewrite filter_In, IH, negb_true_iff, String.eqb_neq.
  destruct (String.eqb_spec k a); subst; intuition congruence.
Qed.

Lemma firstSeen_NoDup (ks : list string) : NoDup (firstSeen ks).
Proof.
  induction ks as [|a ks IH]; simpl; constructor.
  - rewrite filter_In, String.eqb_refl. simpl. intros [_ H]. discriminate.
  - now apply NoDup_filter.
Qed.

Lemma firstSeen_snoc (ks : list string) (k : string) :
  firstSeen (ks ++ [k]) = if mem k ks then firstSeen ks else firstSeen ks ++ [k].
Proof.
  induction ks as [|a ks IH]; simpl; [reflexivity|].
  rewrite IH. destruct (String.eqb_spec k a) as [->|Hne]; simpl.
  - destruct (mem a ks); [reflexivity|].
    rewrite filter_app. simpl. rewrite String.eqb_refl. simpl.
    now rewrite app_nil_r.
  - destruct (mem k ks); [reflexivity|].
    rewrite filter_app. simpl.
    apply String.eqb_neq in Hne. now rewrite Hne.
Qed.

(** ** Facts about objects *)

Section ObjectFacts.

Context {V : Type}.

Lemma tabulate_ext (f g : string -> V) (ks : list string) :
  (forall k, In k ks -> f k = g k) -> tabulate f ks = tabulate g ks.
Proof.
  intros H. unfold tabulate. apply map_ext_in. intros k Hk. now rewrite H.
Qed.

Lemma tabulate_app (f : string -> V) (ks ks' : list string) :
  tabulate f (ks ++ ks') = tabulate f ks ++ tabulate f ks'.
Proof. apply map_app. Qed.

Lemma getOwn_tabulate (f : string -> V) (ks : list string) (k : string) :
  JSObject.getOwn (tabulate f ks) k = if mem k ks then Some (f k) else None.
Proof.
  induction ks as [|a ks IH]; simpl; [reflexivity|].
  rewrite (String.eqb_sym k a).
  destruct (String.eqb_spec a k) as [->|Hne]; simpl; [reflexivity | exact IH].
Qed.

Lemma get_tabulate_in (f : string -> V) (ks : list string) (k : string) :
  In k ks -> JSObject.get (tabulate f ks) k = JSObject.Own (f k).
Proof.
  intros Hin. unfold JSObject.get. rewrite getOwn_tabulate.
  apply mem_In in Hin. now rewrite Hin.
Qed.

Lemma get_tabulate_notin (f : string -> V) (ks : list string) (k : string) :
  ~ In k ks ->
  JSObject.get (tabulate f ks) k =
  if JSObject.inherited k then JSObject.Inherited else JSObject.Undefined.
Proof.
  intros Hin. unfold JSObject.get. rewrite getOwn_tabulate.
  apply mem_false in Hin. now rewrite Hin.
Qed.

Lemma set_tabulate_notin (f : string -> V) (ks : list string) (k : string) (v : V) :
  ~ In k ks ->
  JSObject.set (tabulate f ks) k v = tabulate (update f k v) (ks ++ [k]).
Proof.
  induction ks as [|a ks IH]; intros Hin; simpl.
  - unfold update. now rewrite String.eqb_refl.
  - destruct (String.eqb_spec a k) as [->|Hne].
    + exfalso. apply Hin. now left.
    + unfold update at 1. apply String.eqb_neq in Hne. rewrite Hne.
      f_equal. apply IH. intros H. apply Hin. now right.
Qed.

Lemma set_tabulate_in (f : string -> V) (ks : list string) (k : string) (v : V) :
  NoDup ks -> In k ks ->
  JSObject.set (tabulate f ks) k v = tabulate (update f k v) ks.
Proof.
  induction ks as [|a ks IH]; intros Hnd Hin; simpl; [contradiction|].
  inversion Hnd as [|? ? Hna Hnd']; subst.
  destruct (String.eqb_spec a k) as [->|Hne].
  - unfold update at 1. rewrite String.eqb_refl. f_equal.
    apply tabulate_ext. intros k' Hk'. unfold update.
    destruct (String.eqb_spec k' k); [subst; contradiction | reflexivity].
  - unfold update at 1. apply String.eqb_neq in Hne. rewrite Hne.
    f_equal. apply IH; [assumption|].
    destruct Hin as [Heq|Hin]; [|assumption].
    apply String.eqb_neq in Hne. congruence.
Qed.

Lemma tabulate_keys (f : string -> V) (ks : list string) :
  map fst (tabulate f ks) = ks.
Proof.
  unfold tabulate. rewrite map_map. simpl. apply map_id.
Qed.

Lemma tabulate_values (f : string -> V) (ks : list string) :
  map snd (tabulate f ks) = map f ks.
Proof.
  unfold tabulate. now rewrite map_map.
Qed.

End ObjectFacts.

Lemma mapValues_tabulate {V W : Type} (g : V -> W) (f : string -> V) (ks : list string) :
  JSObject.mapValues g (tabulate f ks) = tabulate (fun k => g (f k)) ks.
Proof.
  unfold JSObject.mapValues, tabulate. now rewrite map_map.
Qed.

(** ** Facts about loops *)

Lemma forEach_snoc {A S : Type} (body : S -> A -> Completion S)
  (xs : list A) (x : A) (st : S) :
  forEach body (xs ++ [x]) st = (st' <- forEach body xs st ;; body st' x).
Proof.
  revert st. induction xs as [|a xs IH]; intros st; simpl.
  - now destruct (body st x).
  - destruct (body st a) as [st1|e]; simpl; [apply IH | reflexivity].
Qed.

Lemma find_snoc {A : Type} (p : A -> bool) (l : list A) (x : A) :
  find p (l ++ [x]) =
  match find p l with Some y => Some y | None => if p x then Some x else None end.
Proof.
  induction l as [|a l IH]; simpl; [reflexivity|].
  destruct (p a); [reflexivity | exact IH].
Qed.

Lemma find_none_filter {A : Type} (p : A -> bool) (l : list A) :
  find p l = None <-> filter p l = [].
Proof.
  induction l as [|a l IH]; simpl; [tauto|].
  destruct (p a); [split; discriminate | exact IH].
Qed.

Lemma inCategory_keys (l : list Expense) (k : string) :
  In k (map categoryKey l) <-> exists exp, In exp l /\ inCategory k exp = true.
Proof.
  rewrite in_map_iff. unfold inCategory.
  split; intros [exp [H1 H2]]; exists exp.
  - subst. split; [assumption | apply String.eqb_refl].
  - apply String.eqb_eq in H2. now split.
Qed.

(** ** The loop that fills [expensesByCategory] *)

Lemma groupOf_snoc_other (l : list Expense) (x : Expense) (k : string) :
  In k (map categoryKey l) -> k <> categoryKey x ->
  groupOf (l ++ [x]) k = groupOf l k.
Proof.
  intros Hin Hne. unfold groupOf, firstDisplay.
  rewrite find_snoc, filter_app. simpl.
  assert (Hx : inCategory k x = false).
  { unfold inCategory. apply String.eqb_neq. congruence. }
  rewrite Hx, app_nil_r. now destruct (find (inCategory k) l).
Qed.

Lemma groupOf_snoc_same (l : list Expense) (x : Expense) :
  groupOf (l ++ [x]) (categoryKey x) =
  {| display := if mem (categoryKey x) (map categoryKey l)
                then display (groupOf l (categoryKey x)) else category x;
     items := items (groupOf l (categoryKey x)) ++ [x] |}.
Proof.
  unfold groupOf, firstDisplay. simpl.
  rewrite find_snoc, filter_app. simpl.
  assert (Hx : inCategory (categoryKey x) x = true) by apply String.eqb_refl.
  rewrite Hx. f_equal.
  destruct (mem (categoryKey x) (map categoryKey l)) eqn:Hm.
  - apply mem_In, inCategory_keys in Hm. destruct Hm as [e [He1 He2]].
    destruct (find (inCategory (categoryKey x)) l) eqn:Hf; [reflexivity|].
    exfalso. eapply find_none in Hf; eauto. congruence.
  - apply mem_false in Hm.
    destruct (find (inCategory (categoryKey x)) l) eqn:Hf; [|reflexivity].
    exfalso. apply find_some in Hf. apply Hm, inCategory_keys. now exists e.
Qed.

Lemma forEach_addToCategory (l : list Expense) :
  forEach addToCategory l [] =
  if ownCategories l
  then Normal (tabulate (groupOf l) (firstSeen (map categoryKey l)))
  else Throw TypeError.
Proof.
  induction l as [|x l IH] using rev_ind; [reflexivity|].
  rewrite forEach_snoc, IH. unfold ownCategories in *.
  rewrite forallb_app. simpl. rewrite andb_true_r.
  destruct (forallb _ l) eqn:Hown; simpl; [|reflexivity].
  rewrite map_app. change (map categoryKey [x]) with [categoryKey x].
  rewrite firstSeen_snoc. simpl.
  unfold addToCategory. fold (categoryKey x).
  set (ks := firstSeen (map categoryKey l)).
  assert (Hnd : NoDup ks) by apply firstSeen_NoDup.
  destruct (mem (categoryKey x) (map categoryKey l)) eqn:Hm.
  - assert (Hin : In (categoryKey x) ks).
    { apply (proj2 (firstSeen_In _ _)), (proj1 (mem_In _ _)). exact Hm. }
    assert (Hni : JSObject.inherited (categoryKey x) = false).
    { apply mem_In, in_map_iff in Hm. destruct Hm as [e [He1 He2]].
      rewrite forallb_forall in Hown. specialize (Hown e He2).
      rewrite He1 in Hown. now apply negb_true_iff in Hown. }
    rewrite Hni. simpl.
    rewrite (get_tabulate_in _ _ _ Hin). cbv beta iota.
    rewrite (get_tabulate_in _ _ _ Hin).
    rewrite (set_tabulate_in _ _ _ _ Hnd Hin). f_equal.
    apply tabulate_ext. intros k Hk. unfold update.
    destruct (String.eqb_spec k (categoryKey x)) as [->|Hne].
    + rewrite groupOf_snoc_same, Hm. reflexivity.
    + symmetry. apply groupOf_snoc_other; [|assumption].
      now apply (proj1 (firstSeen_In _ _)).
  - assert (Hin : ~ In (categoryKey x) ks).
    { intros H. apply (proj1 (firstSeen_In _ _)), (proj2 (mem_In _ _)) in H. congruence. }
    rewrite (get_tabulate_notin _ _ _ Hin).
    destruct (JSObject.inherited (categoryKey x)) eqn:Hni; simpl.
    + rewrite (get_tabulate_notin _ _ _ Hin), Hni. reflexivity.
    + rewrite (set_tabulate_notin _ _ _ _ Hin).
      assert (Hin' : In (categoryKey x) (ks ++ [categoryKey x])).
      { apply in_or_app. right. now left. }
      assert (Hnd' : NoDup (ks ++ [categoryKey x])).
      { subst ks. change [categoryKey x] with (map categoryKey [x]).
        replace (firstSeen (map categoryKey l) ++ map categoryKey [x])
          with (firstSeen (map categoryKey (l ++ [x]))).
        - apply firstSeen_NoDup.
        - rewrite map_app. change (map categoryKey [x]) with [categoryKey x].
          rewrite firstSeen_snoc. now rewrite Hm. }
      rewrite (get_tabulate_in _ _ _ Hin').
      rewrite (set_tabulate_in _ _ _ _ Hnd' Hin'). f_equal.
      apply tabulate_ext. intros k Hk. unfold update.
      destruct (String.eqb_spec k (categoryKey x)) as [->|Hne].
      * rewrite String.eqb_refl. simpl. rewrite groupOf_snoc_same, Hm.
        unfold groupOf. simpl.
        replace (filter (inCategory (categoryKey x)) l) with (@nil Expense); [reflexivity|].
        symmetry. apply find_none_filter.
        destruct (find (inCategory (categoryKey x)) l) eqn:Hf; [|reflexivity].
        exfalso. apply find_some in Hf. apply mem_false in Hm.
        apply Hm, inCategory_keys. now exists e.
      * symmetry. apply groupOf_snoc_other; [|assumption].
        apply in_app_or in Hk. destruct Hk as [Hk|[Hk|[]]]; [|congruence].
        now apply (proj1 (firstSeen_In _ _)).
Qed.

(** ** Facts about [Array.prototype.sort] *)

Section SortFacts.

Context {A : Type}.
Variable comparefn : A -> A -> Z.

Lemma insert_perm (x : A) (l : list A) :
  Permutation (JSArray.insert comparefn x l) (x :: l).
Proof.
  induction l as [|y l IH]; simpl; [reflexivity|].
  destruct (0 <? comparefn x y)%Z; [|reflexivity].
  rewrite IH. apply perm_swap.
Qed.

Lemma sort_perm (l : list A) : Permutation (JSArray.sort comparefn l) l.
Proof.
  induction l as [|x l IH]; simpl; [reflexivity|].
  unfold JSArray.sort in *. simpl. rewrite insert_perm. now constructor.
Qed.

Lemma sort_In (l : list A) (x : A) : In x (JSArray.sort comparefn l) <-> In x l.
Proof.
  split; apply Permutation_in; [|symmetry]; apply sort_perm.
Qed.

(** Stability: elements that the comparator never puts strictly after one
    another keep their input order. *)
Lemma insert_stable (p : A -> bool) (x : A) (l : list A) :
  (p x = true -> forall y, In y l -> p y = true -> inOrder comparefn x y) ->
  filter p (JSArray.insert comparefn x l) = filter p (x :: l).
Proof.
  induction l as [|y l IH]; intros H; [reflexivity|].
  simpl. destruct (0 <? comparefn x y)%Z eqn:Hc; [|reflexivity].
  simpl. rewrite IH by (intros Hx z Hz; apply H; [assumption | now right]).
  simpl. destruct (p x) eqn:Hx, (p y) eqn:Hy; try reflexivity.
  exfalso. apply Z.ltb_lt in Hc.
  specialize (H eq_refl y (or_introl eq_refl) Hy). unfold inOrder in H. lia.
Qed.

Lemma sort_stable (p : A -> bool) (l : list A) :
  (forall a b, In a l -> In b l -> p a = true -> p b = true -> inOrder comparefn a b) ->
  filter p (JSArray.sort comparefn l) = filter p l.
Proof.
  induction l as [|x l IH]; intros H; [reflexivity|].
  unfold JSArray.sort in *. simpl fold_right.
  rewrite insert_stable.
  - simpl. rewrite IH; [reflexivity|].
    intros a b Ha Hb. apply H; now right.
  - intros Hx y Hy Hpy. apply H; [now left | right | assumption | assumption].
    now apply sort_In.
Qed.

(** Sortedness, for a comparator that is consistent on the elements. *)
Variable P : A -> Prop.
Hypothesis comparefn_total :
  forall a b, P a -> P b -> (0 < comparefn a b)%Z -> inOrder comparefn b a.
Hypothesis comparefn_trans :
  forall a b c, P a -> P b -> P c -> inOrder comparefn a b -> inOrder comparefn b c -> inOrder comparefn a c.

Lemma insert_sorted (x : A) (l : list A) :
  P x -> Forall P l -> StronglySorted (inOrder comparefn) l ->
  StronglySorted (inOrder comparefn) (JSArray.insert comparefn x l).
Proof.
  intros Px. induction l as [|y l IH]; intros HP Hs; simpl.
  - repeat constructor.
  - inversion HP as [|? ? Py HP']; subst.
    inversion Hs as [|? ? Hs' Hy]; subst.
    destruct (0 <? comparefn x y)%Z eqn:Hc.
    + constructor; [now apply IH|].
      apply (Permutation_Forall (Permutation_sym (insert_perm x l))).
      constructor; [|assumption].
      apply comparefn_total; try assumption. now apply Z.ltb_lt.
    + constructor; [assumption|].
      assert (Hxy : inOrder comparefn x y).
      { unfold inOrder. apply Z.ltb_ge in Hc. lia. }
      constructor; [assumption|].
      rewrite Forall_forall in *. intros z Hz.
      apply (comparefn_trans x y z); auto.
Qed.

Lemma sort_sorted (l : list A) :
  Forall P l -> StronglySorted (inOrder comparefn) (JSArray.sort comparefn l).
Proof.
  induction l as [|x l IH]; intros HP; [constructor|].
  inversion HP; subst. unfold JSArray.sort in *. simpl.
  apply insert_sorted; auto.
  apply (Permutation_Forall (Permutation_sym (sort_perm l))). assumption.
Qed.

End SortFacts.

(** ** Facts about own-property order *)

Lemma insertKey_perm (k : string) (l : list string) :
  Permutation (insertKey k l) (k :: l).
Proof.
  induction l as [|q l IH]; simpl; [reflexivity|].
  destruct (JSObject.indexOf k <=? JSObject.indexOf q)%N; [reflexivity|].
  rewrite IH. apply perm_swap.
Qed.

Lemma ascendingKeys_perm (ks : list string) : Permutation (ascendingKeys ks) ks.
Proof.
  induction ks as [|k ks IH]; simpl; [reflexivity|].
  rewrite insertKey_perm. now constructor.
Qed.

Lemma ascendingKeys_sorted (ks : list string) :
  Sorted (fun a b => (JSObject.indexOf a <= JSObject.indexOf b)%N) (ascendingKeys ks).
Proof.
  induction ks as [|k ks IH]; simpl; [constructor|].
  revert IH. generalize (ascendingKeys ks) as l. clear ks.
  induction l as [|q l IHl]; intros Hs; simpl.
  - repeat constructor.
  - destruct (JSObject.indexOf k <=? JSObject.indexOf q)%N eqn:Hc.
    + constructor; [assumption|]. constructor. now apply N.leb_le.
    + inversion Hs as [|? ? Hs' Hq]; subst.
      constructor; [now apply IHl|].
      apply N.leb_gt in Hc.
      destruct l as [|r l]; simpl.
      * constructor. lia.
      * destruct (JSObject.indexOf k <=? JSObject.indexOf r)%N.
        -- constructor. lia.
        -- inversion Hq; subst. now constructor.
Qed.

Lemma ownPropertyOrder_perm (ks : list string) :
  Permutation (ownPropertyOrder ks) ks.
Proof.
  unfold ownPropertyOrder. rewrite ascendingKeys_perm.
  induction ks as [|k ks IH]; simpl; [reflexivity|].
  destruct (JSObject.isArrayIndex k); simpl.
  - now constructor.
  - rewrite <- Permutation_middle. now constructor.
Qed.

Lemma ownPropertyOrder_no_index (ks : list string) :
  forallb (fun k => negb (JSObject.isArrayIndex k)) ks = true ->
  ownPropertyOrder ks = ks.
Proof.
  intros H. unfold ownPropertyOrder.
  assert (H1 : filter JSObject.isArrayIndex ks = []).
  { induction ks as [|k ks IH]; [reflexivity|].
    simpl in H. apply andb_true_iff in H. destruct H as [Hk H].
    simpl. apply negb_true_iff in Hk. rewrite Hk. now apply IH. }
  rewrite H1. simpl.
  induction ks as [|k ks IH]; [reflexivity|].
  simpl in *. apply andb_true_iff in H. destruct H as [Hk H].
  rewrite Hk. apply negb_true_iff in Hk. rewrite Hk in H1.
  f_equal. now apply IH.
Qed.

Lemma entries_tabulate {V : Type} (f : string -> V) (ks : list string) :
  JSObject.entries (tabulate f ks) = tabulate f (ownPropertyOrder ks).
Proof.
  unfold JSObject.entries, ownPropertyOrder. rewrite tabulate_app. f_equal.
  - transitivity (JSObject.ascendingIndex (tabulate f (filter JSObject.isArrayIndex ks))).
    + f_equal. induction ks as [|k ks IH]; [reflexivity|].
      simpl. destruct (JSObject.isArrayIndex k); simpl; now rewrite IH.
    + generalize (filter JSObject.isArrayIndex ks) as l. clear ks.
      induction l as [|k l IH]; [reflexivity|].
      unfold JSObject.ascendingIndex in *. simpl. rewrite IH.
      fold (ascendingKeys l). generalize (ascendingKeys l). clear IH.
      intros l'. induction l' as [|q l' IH]; [reflexivity|].
      simpl. destruct (JSObject.indexOf k <=? JSObject.indexOf q)%N; [reflexivity|].
      simpl. now rewrite IH.
  - induction ks as [|k ks IH]; [reflexivity|].
    simpl. destruct (JSObject.isArrayIndex k); simpl; now rewrite IH.
Qed.

Lemma keys_tabulate {V : Type} (f : string -> V) (ks : list string) :
  JSObject.keys (tabulate f ks) = ownPropertyOrder ks.
Proof.
  unfold JSObject.keys. rewrite entries_tabulate. apply tabulate_keys.
Qed.

Lemma values_tabulate {V : Type} (f : string -> V) (ks : list string) :
  JSObject.values (tabulate f ks) = map f (ownPropertyOrder ks).
Proof.
  unfold JSObject.values. rewrite entries_tabulate. apply tabulate_values.
Qed.

(** ** Facts about sums *)

Lemma fold_Qplus_acc (l : list Q) (a : Q) :
  fold_left Qplus l a == a + sumQ l.
Proof.
  unfold sumQ. revert a. induction l as [|x l IH]; intros a; simpl.
  - ring.
  - rewrite IH, (IH (0 + x)). ring.
Qed.

Lemma sumQ_cons (x : Q) (l : list Q) : sumQ (x :: l) == x + sumQ l.
Proof.
  unfold sumQ at 1. simpl. rewrite fold_Qplus_acc. ring.
Qed.

Lemma sumQ_app (l l' : list Q) : sumQ (l ++ l') == sumQ l + sumQ l'.
Proof.
  induction l as [|x l IH]; simpl.
  - unfold sumQ at 2. simpl. ring.
  - rewrite !sumQ_cons, IH. ring.
Qed.

Lemma sumQ_map_ext {A : Type} (f g : A -> Q) (l : list A) :
  (forall x, In x l -> f x == g x) -> sumQ (map f l) == sumQ (map g l).
Proof.
  induction l as [|x l IH]; intros H; simpl; [reflexivity|].
  assert (Hx : f x == g x) by (apply H; now left).
  assert (Hl : sumQ (map f l) == sumQ (map g l)).
  { apply IH. intros y Hy. apply H. now right. }
  now rewrite !sumQ_cons, Hx, Hl.
Qed.

Lemma sumQ_map_perm {A : Type} (f : A -> Q) (l l' : list A) :
  Permutation l l' -> sumQ (map f l) == sumQ (map f l').
Proof.
  induction 1 as [|x l l' _ IH|x y l|l l' l'' _ IH1 _ IH2]; simpl.
  - reflexivity.
  - now rewrite !sumQ_cons, IH.
  - rewrite !sumQ_cons. ring.
  - now rewrite IH1.
Qed.

Lemma exactSum_app (l l' : list Expense) :
  exactSum (l ++ l') == exactSum l + exactSum l'.
Proof.
  unfold exactSum. rewrite map_app. apply sumQ_app.
Qed.

(** The exact sum does not depend on the order of the records. *)
Lemma exactSum_perm (l l' : list Expense) :
  Permutation l l' -> exactSum l == exactSum l'.
Proof.
  intros H. unfold exactSum. now apply sumQ_map_perm.
Qed.

Lemma exactSum_concat (ls : list (list Expense)) :
  sumQ (map exactSum ls) == exactSum (List.concat ls).
Proof.
  induction ls as [|l ls IH]; simpl; [reflexivity|].
  now rewrite sumQ_cons, exactSum_app, IH.
Qed.

(** ** Grouping is a partition *)

Lemma filter_all {A : Type} (p : A -> bool) (l : list A) :
  (forall x, In x l -> p x = true) -> filter p l = l.
Proof.
  induction l as [|x l IH]; intros H; simpl; [reflexivity|].
  rewrite (H x) by now left. f_equal. apply IH. intros y Hy. apply H. now right.
Qed.

Section Partition.

Context {A : Type}.
Variable key : A -> string.

Lemma filter_disjoint_perm (p q : A -> bool) (l : list A) :
  (forall x, p x = true -> q x = true -> False) ->
  Permutation (filter p l ++ filter q l) (filter (fun x => p x || q x) l).
Proof.
  intros H. induction l as [|x l IH]; simpl; [reflexivity|].
  destruct (p x) eqn:Hp, (q x) eqn:Hq; simpl.
  - exfalso. now apply (H x).
  - now constructor.
  - rewrite <- Permutation_middle. now constructor.
  - assumption.
Qed.

Lemma partition_perm (ks : list string) (l : list A) :
  NoDup ks ->
  Permutation (List.concat (map (fun k => filter (filedUnder key k) l) ks))
              (filter (fun x => mem (key x) ks) l).
Proof.
  induction 1 as [|k ks Hk Hnd IH]; simpl.
  - induction l; simpl; auto.
  - rewrite IH, filter_disjoint_perm.
    + apply Permutation_refl'. apply filter_ext. intros x.
      unfold filedUnder. now rewrite String.eqb_sym.
    + unfold filedUnder. intros x Hx Hm.
      apply String.eqb_eq in Hx. apply mem_In in Hm. congruence.
Qed.

Lemma partition_all (l : list A) :
  Permutation
    (List.concat (map (fun k => filter (filedUnder key k) l) (firstSeen (map key l)))) l.
Proof.
  rewrite partition_perm by apply firstSeen_NoDup.
  apply Permutation_refl', filter_all.
  intros x Hx. apply mem_In, firstSeen_In, in_map. exact Hx.
Qed.

End Partition.

(** ** The loop that fills [expensesByMonth] *)

Lemma filter_inCategory_nil (l : list Expense) (k : string) :
  ~ In k (map categoryKey l) -> filter (inCategory k) l = [].
Proof.
  intros H. apply find_none_filter.
  destruct (find (inCategory k) l) eqn:Hf; [|reflexivity].
  exfalso. apply find_some in Hf. apply H, inCategory_keys. now exists e.
Qed.

Lemma ownCategories_filter (p : Expense -> bool) (l : list Expense) :
  ownCategories l = true -> ownCategories (filter p l) = true.
Proof.
  unfold ownCategories. rewrite !forallb_forall. intros H x Hx.
  apply H. apply filter_In in Hx. tauto.
Qed.

Lemma ownCategories_key (l : list Expense) (k : string) :
  ownCategories l = true -> In k (map categoryKey l) -> JSObject.inherited k = false.
Proof.
  unfold ownCategories. rewrite forallb_forall. intros H Hk.
  apply in_map_iff in Hk. destruct Hk as [e [<- He]].
  apply negb_true_iff. now apply H.
Qed.

(** One record filed in the cells of its month. *)
Lemma addToCells (l : list Expense) (x : Expense) :
  ownCategories l = true ->
  (let k := categoryKey x in
   let month := cellsOf l in
   let month1 :=
     match JSObject.get month k with
     | JSObject.Undefined => JSObject.set month k []
     | _ => month
     end in
   match JSObject.get month1 k with
   | JSObject.Own arr => Normal (JSObject.set month1 k (arr ++ [x]))
   | _ => Throw TypeError
   end)
  = if JSObject.inherited (categoryKey x) then Throw TypeError
    else Normal (cellsOf (l ++ [x])).
Proof.
  intros Hown. cbv zeta. unfold cellsOf.
  rewrite map_app. change (map categoryKey [x]) with [categoryKey x].
  rewrite firstSeen_snoc.
  set (ks := firstSeen (map categoryKey l)).
  assert (Hnd : NoDup ks) by apply firstSeen_NoDup.
  assert (Hstep : forall ks' f,
    NoDup ks' -> In (categoryKey x) ks' ->
    (forall k, In k ks' -> k <> categoryKey x -> In k ks) ->
    f (categoryKey x) = filter (inCategory (categoryKey x)) l ->
    (forall k, k <> categoryKey x -> f k = filter (inCategory k) l) ->
    JSObject.set (tabulate f ks') (categoryKey x) (f (categoryKey x) ++ [x])
    = tabulate (fun k => filter (inCategory k) (l ++ [x])) ks').
  { intros ks' f Hnd' Hin' Hsub Hf1 Hf2.
    rewrite (set_tabulate_in _ _ _ _ Hnd' Hin').
    apply tabulate_ext. intros k Hk. unfold update.
    rewrite filter_app. simpl. unfold inCategory at 2.
    rewrite (String.eqb_sym (categoryKey x) k).
    destruct (String.eqb_spec k (categoryKey x)) as [->|Hne].
    - now rewrite Hf1.
    - rewrite app_nil_r. now apply Hf2. }
  destruct (mem (categoryKey x) (map categoryKey l)) eqn:Hm.
  - assert (Hin : In (categoryKey x) ks).
    { apply (proj2 (firstSeen_In _ _)), (proj1 (mem_In _ _)). exact Hm. }
    rewrite (ownCategories_key l _ Hown) by (now apply mem_In).
    rewrite (get_tabulate_in _ _ _ Hin). cbv beta iota.
    rewrite (get_tabulate_in _ _ _ Hin). f_equal.
    apply (Hstep ks (fun k => filter (inCategory k) l)); auto.
  - assert (Hin : ~ In (categoryKey x) ks).
    { intros H. apply (proj1 (firstSeen_In _ _)), (proj2 (mem_In _ _)) in H. congruence. }
    rewrite (get_tabulate_notin _ _ _ Hin).
    destruct (JSObject.inherited (categoryKey x)) eqn:Hni; cbv beta iota.
    + now rewrite (get_tabulate_notin _ _ _ Hin), Hni.
    + rewrite (set_tabulate_notin _ _ _ _ Hin).
      assert (Hin' : In (categoryKey x) (ks ++ [categoryKey x])).
      { apply in_or_app. right. now left. }
      assert (Hempty : filter (inCategory (categoryKey x)) l = []).
      { apply filter_inCategory_nil. now apply mem_false. }
      rewrite (get_tabulate_in _ _ _ Hin'). f_equal.
      assert (Hu : update (fun k => filter (inCategory k) l) (categoryKey x) []
                     (categoryKey x) = []).
      { unfold update. now rewrite String.eqb_refl. }
      apply Hstep.
      * apply NoDup_app; [assumption | repeat constructor; auto |].
        intros k Hk [<-|[]]. contradiction.
      * assumption.
      * intros k Hk Hne. apply in_app_or in Hk.
        destruct Hk as [Hk|[Hk|[]]]; [assumption | congruence].
      * now rewrite Hu, Hempty.
      * intros k Hne. unfold update. apply String.eqb_neq in Hne. now rewrite Hne.
Qed.

Section MonthLoop.

Variable lab : string -> string.
Hypothesis lab_own : forall d, JSObject.inherited (lab d) = false.

Lemma filter_inMonth_nil (l : list Expense) (L : string) :
  ~ In L (map (fun exp => lab (date exp)) l) -> filter (inMonth lab L) l = [].
Proof.
  intros H. apply find_none_filter.
  destruct (find (inMonth lab L) l) eqn:Hf; [|reflexivity].
  exfalso. apply find_some in Hf. destruct Hf as [He HL].
  apply H, in_map_iff. exists e. split; [|assumption].
  now apply String.eqb_eq in HL.
Qed.

Lemma forEach_addToMonth (l : list Expense) :
  forEach (addToMonth lab) l [] =
  if ownCategories l then Normal (monthsOf lab l) else Throw TypeError.
Proof.
  induction l as [|x l IH] using rev_ind; [reflexivity|].
  rewrite forEach_snoc, IH.
  assert (Hsplit : ownCategories (l ++ [x]) =
                   ownCategories l && negb (JSObject.inherited (categoryKey x))).
  { unfold ownCategories. rewrite forallb_app. simpl. now rewrite andb_true_r. }
  rewrite Hsplit. clear Hsplit IH.
  destruct (ownCategories l) eqn:Hown; simpl; [|reflexivity].
  unfold monthsOf. rewrite map_app.
  change (map (fun exp => lab (date exp)) [x]) with [lab (date x)].
  rewrite firstSeen_snoc.
  set (labels := map (fun exp => lab (date exp)) l).
  set (ks := firstSeen labels).
  set (L := lab (date x)).
  set (F := fun L' => cellsOf (filter (inMonth lab L') l)).
  set (ks1 := if mem L labels then ks else ks ++ [L]).
  assert (Hnd1 : NoDup ks1).
  { subst ks1. destruct (mem L labels) eqn:Hm; [apply firstSeen_NoDup|].
    apply NoDup_app; [apply firstSeen_NoDup | repeat constructor; auto |].
    intros k Hk [<-|[]].
    apply (proj1 (firstSeen_In _ _)), (proj2 (mem_In _ _)) in Hk. congruence. }
  assert (Hin1 : In L ks1).
  { subst ks1. destruct (mem L labels) eqn:Hm.
    - apply (proj2 (firstSeen_In _ _)), (proj1 (mem_In _ _)). exact Hm.
    - apply in_or_app. right. now left. }
  assert (Hobj1 :
    match JSObject.get (tabulate F ks) L with
    | JSObject.Undefined => JSObject.set (tabulate F ks) L []
    | _ => tabulate F ks
    end = tabulate F ks1).
  { subst ks1. destruct (mem L labels) eqn:Hm.
    - rewrite get_tabulate_in; [reflexivity|].
      apply (proj2 (firstSeen_In _ _)), (proj1 (mem_In _ _)). exact Hm.
    - assert (Hni : ~ In L ks).
      { intros H. apply (proj1 (firstSeen_In _ _)), (proj2 (mem_In _ _)) in H.
        congruence. }
      rewrite (get_tabulate_notin _ _ _ Hni). subst L. rewrite lab_own.
      rewrite (set_tabulate_notin _ _ _ _ Hni).
      apply tabulate_ext. intros k Hk. unfold update.
      destruct (String.eqb_spec k (lab (date x))) as [->|Hne]; [|reflexivity].
      subst F. cbv beta.
      rewrite filter_inMonth_nil; [reflexivity|]. now apply mem_false. }
  unfold addToMonth. fold L. rewrite Hobj1.
  rewrite (get_tabulate_in _ _ _ Hin1).
  change (JSString.toLocaleLowerCase (category x)) with (categoryKey x).
  subst F. cbv beta.
  set (l' := filter (inMonth lab L) l).
  pose proof (addToCells l' x (ownCategories_filter _ _ Hown)) as Hcells.
  cbv zeta in Hcells.
  destruct (JSObject.get
              match JSObject.get (cellsOf l') (categoryKey x) with
              | JSObject.Undefined => JSObject.set (cellsOf l') (categoryKey x) []
              | _ => cellsOf l'
              end (categoryKey x)) as [arr| |];
    destruct (JSObject.inherited (categoryKey x)); simpl; try congruence.
  injection Hcells as Hcells. rewrite Hcells. f_equal.
  rewrite (set_tabulate_in _ _ _ _ Hnd1 Hin1).
  apply tabulate_ext. intros k Hk. unfold update.
  rewrite filter_app. simpl.
  destruct (String.eqb_spec k L) as [->|Hne].
  - assert (Hx : inMonth lab L x = true) by apply String.eqb_refl.
    now rewrite Hx.
  - assert (Hx : inMonth lab k x = false).
    { apply String.eqb_neq. fold L. congruence. }
    now rewrite Hx, app_nil_r.
Qed.

End MonthLoop.

(** ** The loop that fills [monthlyTotals] *)

Section TotalsLoop.

Variable lab : string -> string.
Hypothesis lab_own : forall d, JSObject.inherited (lab d) = false.

Lemma runningTotal_snoc (l : list Expense) (x : Expense) :
  runningTotal (l ++ [x])
  = ((if JSNumber.falsy (runningTotal l) then 0 else runningTotal l) + amount x)%float.
Proof.
  unfold runningTotal. now rewrite fold_left_app.
Qed.

Lemma fold_addToMonthlyTotals (l : list Expense) :
  fold_left (addToMonthlyTotals lab) l []
  = tabulate (fun L => runningTotal (filter (inMonth lab L) l))
             (firstSeen (map (fun exp => lab (date exp)) l)).
Proof.
  induction l as [|x l IH] using rev_ind; [reflexivity|].
  rewrite fold_left_app. simpl. rewrite IH. clear IH.
  rewrite map_app. change (map (fun exp => lab (date exp)) [x]) with [lab (date x)].
  rewrite firstSeen_snoc.
  set (labels := map (fun exp => lab (date exp)) l).
  set (ks := firstSeen labels).
  set (L := lab (date x)).
  set (F := fun L' => runningTotal (filter (inMonth lab L') l)).
  assert (Hnd : NoDup ks) by apply firstSeen_NoDup.
  assert (Hnew : forall ks', In L ks' ->
    tabulate (update F L ((if JSNumber.falsy (F L) then 0 else F L) + amount x)%float) ks'
    = tabulate (fun L' => runningTotal (filter (inMonth lab L') (l ++ [x]))) ks').
  { intros ks' _. apply tabulate_ext. intros k _. unfold update.
    rewrite filter_app. simpl.
    destruct (String.eqb_spec k L) as [->|Hne].
    - assert (Hx : inMonth lab L x = true) by apply String.eqb_refl.
      rewrite Hx. apply (eq_sym (runningTotal_snoc _ x)).
    - assert (Hx : inMonth lab k x = false).
      { apply String.eqb_neq. fold L. congruence. }
      now rewrite Hx, app_nil_r. }
  unfold addToMonthlyTotals. fold L.
  destruct (mem L labels) eqn:Hm.
  - assert (Hin : In L ks).
    { apply (proj2 (firstSeen_In _ _)), (proj1 (mem_In _ _)). exact Hm. }
    rewrite (get_tabulate_in _ _ _ Hin). rewrite <- (Hnew ks Hin).
    fold (F L). destruct (JSNumber.falsy (F L)) eqn:Hz.
    + rewrite (set_tabulate_in _ _ _ _ Hnd Hin).
      rewrite (get_tabulate_in _ _ _ Hin).
      rewrite (set_tabulate_in _ _ _ _ Hnd Hin).
      apply tabulate_ext. intros k _. unfold update.
      rewrite String.eqb_refl. now destruct (String.eqb k L).
    + rewrite (get_tabulate_in _ _ _ Hin).
      now rewrite (set_tabulate_in _ _ _ _ Hnd Hin).
  - assert (Hni : ~ In L ks).
    { intros H. apply (proj1 (firstSeen_In _ _)), (proj2 (mem_In _ _)) in H.
      congruence. }
    assert (HL : JSObject.inherited L = false) by apply lab_own.
    assert (Hin' : In L (ks ++ [L])) by (apply in_or_app; right; now left).
    assert (Hnd' : NoDup (ks ++ [L])).
    { apply NoDup_app; [assumption | repeat constructor; auto |].
      intros k Hk [<-|[]]. contradiction. }
    assert (HF : F L = 0%float).
    { subst F. cbv beta. rewrite filter_inMonth_nil; [reflexivity|].
      now apply mem_false. }
    rewrite (get_tabulate_notin _ _ _ Hni), HL.
    rewrite (set_tabulate_notin _ _ _ _ Hni).
    rewrite (get_tabulate_in _ _ _ Hin'). cbv beta iota.
    rewrite (set_tabulate_in _ _ _ _ Hnd' Hin').
    rewrite <- (Hnew (ks ++ [L]) Hin'). rewrite HF.
    apply tabulate_ext. intros k _. unfold update.
    rewrite String.eqb_refl. now destruct (String.eqb k L).
Qed.

End TotalsLoop.

(** ** Facts about month labels *)

Lemma monthName_cases (m : Z) :
  In (JSDate.monthName m) (EmptyString :: JSDate.monthNames).
Proof.
  unfold JSDate.monthName.
  destruct (nth_in_or_default (Z.to_nat (m - 1)) JSDate.monthNames EmptyString) as [H|H].
  - now right.
  - left. now rewrite H.
Qed.

Lemma toLocaleMonthYear_cases (tz : Z) (d : string) :
  JSDate.toLocaleMonthYear tz d = "Invalid Date"
  \/ exists name rest, In name (EmptyString :: JSDate.monthNames)
       /\ JSDate.toLocaleMonthYear tz d = (name ++ String " " rest)%string.
Proof.
  unfold JSDate.toLocaleMonthYear.
  destruct (JSDate.parseISODate d) as [ymd|]; [right | now left].
  destruct (JSDate.localDate tz ymd) as [[y m] d'].
  unfold JSDate.formatMonthYear. eexists _, _. split; [apply monthName_cases|].
  reflexivity.
Qed.

Lemma monthLabel_own (tz : Z) (d : string) :
  JSObject.inherited (JSDate.toLocaleMonthYear tz d) = false.
Proof.
  destruct (toLocaleMonthYear_cases tz d) as [->|[name [rest [Hin ->]]]];
    [reflexivity|].
  simpl in Hin.
  repeat (destruct Hin as [<-|Hin]; [reflexivity|]). contradiction.
Qed.

Lemma monthLabel_not_index (tz : Z) (d : string) :
  JSObject.isArrayIndex (JSDate.toLocaleMonthYear tz d) = false.
Proof.
  destruct (toLocaleMonthYear_cases tz d) as [->|[name [rest [Hin ->]]]];
    [reflexivity|].
  simpl in Hin.
  repeat (destruct Hin as [<-|Hin]; [reflexivity|]). contradiction.
Qed.

(** ** What the page computes *)

Lemma expensesByCategory_spec (l : list Expense) :
  expensesByCategory l =
  if ownCategories l
  then Normal (tabulate (fun k => sortItems (groupOf l k))
                        (firstSeen (map categoryKey l)))
  else Throw TypeError.
Proof.
  unfold expensesByCategory. rewrite forEach_addToCategory.
  destruct (ownCategories l); simpl; [|reflexivity].
  now rewrite mapValues_tabulate.
Qed.

Lemma sortedCategories_spec (cmp : string -> string -> Z) (l : list Expense) :
  sortedCategories cmp l =
  if ownCategories l
  then Normal (JSArray.sort (byDisplay cmp)
                 (map (fun k => sortItems (groupOf l k))
                      (ownPropertyOrder (firstSeen (map categoryKey l)))))
  else Throw TypeError.
Proof.
  unfold sortedCategories. rewrite expensesByCategory_spec.
  destruct (ownCategories l); simpl; [|reflexivity].
  now rewrite values_tabulate.
Qed.

Lemma monthLabels_no_index (tz : Z) (l : list Expense) :
  ownPropertyOrder (firstSeen (map (fun exp => monthLabelOf tz (date exp)) l))
  = firstSeen (map (fun exp => monthLabelOf tz (date exp)) l).
Proof.
  apply ownPropertyOrder_no_index, forallb_forall. intros L HL.
  apply firstSeen_In, in_map_iff in HL. destruct HL as [e [<- _]].
  apply negb_true_iff, monthLabel_not_index.
Qed.

Lemma sortedMonths_spec (tz : Z) (l : list Expense) :
  sortedMonths tz l =
  if ownCategories l
  then Normal (map (fun L => {| label := L;
                                categories := cellsOf (filter (inMonth (monthLabelOf tz) L) l) |})
                   (JSArray.sort (newestMonthFirst tz)
                      (firstSeen (map (fun exp => monthLabelOf tz (date exp)) l))))
  else Throw TypeError.
Proof.
  unfold sortedMonths, expensesByMonth.
  rewrite forEach_addToMonth by (intros d; apply monthLabel_own).
  destruct (ownCategories l); simpl; [|reflexivity].
  unfold monthsOf. rewrite keys_tabulate, monthLabels_no_index. f_equal.
  apply map_ext_in. intros L HL. f_equal.
  rewrite getOwn_tabulate.
  apply sort_In, mem_In in HL. now rewrite HL.
Qed.

Lemma monthlyTotals_spec (tz : Z) (l : list Expense) :
  monthLabels tz l = firstSeen (map (fun exp => monthLabelOf tz (date exp)) l)
  /\ monthValues tz l
     = map (fun L => runningTotal (filter (inMonth (monthLabelOf tz) L) l))
           (monthLabels tz l).
Proof.
  unfold monthLabels, monthValues, monthlyTotals.
  rewrite (fold_addToMonthlyTotals (monthLabelOf tz) (fun d => monthLabel_own tz d)).
  rewrite keys_tabulate, values_tabulate, monthLabels_no_index. now split.
Qed.

(** ** Every record is filed exactly once *)

Lemma flat_map_perm_ext {A B : Type} (f g : A -> list B) (l : list A) :
  (forall x, In x l -> Permutation (f x) (g x)) ->
  Permutation (flat_map f l) (flat_map g l).
Proof.
  induction l as [|x l IH]; intros H; simpl; [constructor|].
  apply Permutation_app; [apply H; now left|].
  apply IH. intros y Hy. apply H. now right.
Qed.

Lemma cellsOf_perm (l : list Expense) :
  Permutation (List.concat (JSObject.values (cellsOf l))) l.
Proof.
  unfold cellsOf. rewrite values_tabulate, <- flat_map_concat_map.
  rewrite (Permutation_flat_map _ (ownPropertyOrder_perm _)).
  rewrite flat_map_concat_map. apply (partition_all categoryKey).
Qed.

Lemma categories_partition (cmp : string -> string -> Z) (l : list Expense)
  (gs : list Group) :
  sortedCategories cmp l = Normal gs ->
  Permutation (List.concat (map items gs)) l.
Proof.
  rewrite sortedCategories_spec. destruct (ownCategories l); [|discriminate].
  intros H. injection H as <-.
  rewrite <- flat_map_concat_map.
  rewrite (Permutation_flat_map _ (sort_perm _ _)).
  rewrite flat_map_concat_map, map_map, <- flat_map_concat_map.
  rewrite (Permutation_flat_map _ (ownPropertyOrder_perm _)).
  rewrite (flat_map_perm_ext _ (fun k => filter (inCategory k) l)).
  - rewrite flat_map_concat_map. apply (partition_all categoryKey).
  - intros k _. simpl. apply sort_perm.
Qed.

Lemma months_partition (tz : Z) (l : list Expense) (ms : list Month) :
  sortedMonths tz l = Normal ms ->
  Permutation
    (List.concat (map (fun m => List.concat (JSObject.values (categories m))) ms)) l.
Proof.
  rewrite sortedMonths_spec. destruct (ownCategories l); [|discriminate].
  intros H. injection H as <-.
  rewrite map_map. simpl. rewrite <- flat_map_concat_map.
  rewrite (Permutation_flat_map _ (sort_perm _ _)).
  rewrite (flat_map_perm_ext _ (fun L => filter (inMonth (monthLabelOf tz) L) l)).
  - rewrite flat_map_concat_map.
    apply (partition_all (fun exp => monthLabelOf tz (date exp))).
  - intros L _. apply cellsOf_perm.
Qed.

(** ** When the groupings return *)

(** The page renders exactly when no category of the filtered records
    lowercases to a property name of [Object.prototype]. *)
Lemma sortedCategories_returns (cmp : string -> string -> Z) (l : list Expense) :
  ownCategories l = true <-> exists gs, sortedCategories cmp l = Normal gs.
Proof.
  rewrite sortedCategories_spec. destruct (ownCategories l); split.
  - intros _. eexists. reflexivity.
  - reflexivity.
  - discriminate.
  - intros [gs H]. discriminate.
Qed.

Lemma sortedMonths_returns (tz : Z) (l : list Expense) :
  ownCategories l = true <-> exists ms, sortedMonths tz l = Normal ms.
Proof.
  rewrite sortedMonths_spec. destruct (ownCategories l); split.
  - intros _. eexists. reflexivity.
  - reflexivity.
  - discriminate.
  - intros [ms H]. discriminate.
Qed.

(** ** Totals *)


(** On amounts that add without rounding the totals do agree as numbers. *)
Example scenarioA_totals :
  exists gs ms,
    sortedCategories codeUnitCompare scenarioA = Normal gs
    /\ sortedMonths 0 scenarioA = Normal ms
    /\ map (fun g => (display g, categoryTotal (items g))) gs
       = [("Food", 16.5%float); ("Transport", 2.75%float)]
    /\ map (fun m => (label m, monthTotal m)) ms
       = [("April 2024", 12%float); ("March 2024", 7.25%float)]
    /\ totalSpent scenarioA = 19.25%float.
Proof.
  eexists. eexists.
  split; [vm_compute; reflexivity|].
  split; [vm_compute; reflexivity|].
  repeat split; vm_compute; reflexivity.
Qed.

(** C10, as stated, fails on the same three records: the series is 4.4 for
    March and 2.2 for April, which add up to 6.6000000000000005, and the grand
    total is 6.6. *)
Lemma series_does_not_add_up : ~ seriesAddsUp 0 officeSupplies.
Proof.
  unfold seriesAddsUp. vm_compute. discriminate.
Qed.

(** ** The monthly series *)

Lemma Forall2_map_r {A B : Type} (R : A -> B -> Prop) (g : A -> B) (l : list A) :
  (forall x, In x l -> R x (g x)) -> Forall2 R l (map g l).
Proof.
  induction l as [|x l IH]; intros H; simpl; constructor.
  - apply H. now left.
  - apply IH. intros y Hy. apply H. now right.
Qed.


(** The series follows the input, not the calendar. *)
Example series_in_input_order :
  monthLabels 0 [lunch; coffee; bus] = ["April 2024"; "March 2024"]
  /\ monthValues 0 [lunch; coffee; bus] = [12%float; 7.25%float]
  /\ monthLabels 0 [coffee; lunch; bus] = ["March 2024"; "April 2024"].
Proof. repeat split; vm_compute; reflexivity. Qed.

(** ** Records that are never filed *)

(** C2, at the record [hardware]: its category lowercases to [constructor],
    which every object literal inherits, so neither grouping files it and
    both loops end in a [TypeError]. *)
Theorem inherited_category_throws (tz : Z) (cmp : string -> string -> Z) :
  JSString.toLowerCase (category hardware) = "constructor"
  /\ sortedCategories cmp [hardware] = Throw TypeError
  /\ sortedMonths tz [hardware] = Throw TypeError
  /\ DashboardPage tz cmp [hardware] "" = Throw TypeError.
Proof.
  unfold DashboardPage.
  change (filteredExpenses [hardware] "") with [hardware].
  rewrite sortedCategories_spec, sortedMonths_spec. repeat split; reflexivity.
Qed.

(** On every input on which the groupings return, the identifiers of the
    filed records are those of the input, each as often as there. *)
Lemma filed_ids (tz : Z) (cmp : string -> string -> Z) (l : list Expense)
  (gs : list Group) (ms : list Month) :
  sortedCategories cmp l = Normal gs ->
  sortedMonths tz l = Normal ms ->
  Permutation (map id (List.concat (map items gs))) (map id l)
  /\ Permutation
       (map id (List.concat
                  (map (fun m => List.concat (JSObject.values (categories m))) ms)))
       (map id l).
Proof.
  intros Hgs Hms. split; apply Permutation_map.
  - now apply (categories_partition cmp).
  - now apply (months_partition tz).
Qed.

(** ** The search filter *)

Lemma toLowerCase_empty (s : string) :
  JSString.toLowerCase s = EmptyString -> s = EmptyString.
Proof. destruct s; [reflexivity | discriminate]. Qed.

Lemma Substring_empty (t : string) :
  JSString.Substring t EmptyString -> t = EmptyString.
Proof.
  intros [pre [suf H]]. destruct pre; [|discriminate].
  destruct t; [reflexivity | discriminate].
Qed.

Lemma matchesSearch_spec (searchTerm : string) (exp : Expense) :
  searchTerm <> EmptyString ->
  matchesSearch searchTerm exp = true <-> Matches searchTerm exp.
Proof.
  intros Hq. unfold matchesSearch, Matches, notesText. cbv zeta.
  apply String.eqb_neq in Hq. rewrite Hq. apply String.eqb_neq in Hq.
  rewrite !orb_true_iff, !includes_spec.
  destruct (notes exp) as [n|].
  - rewrite includes_spec. tauto.
  - split; [intuition discriminate|].
    intros [H|[H|H]]; auto.
    apply Substring_empty, toLowerCase_empty in H. contradiction.
Qed.

(** C3. With the empty search term the filter returns the records unchanged;
    with any other term, blank ones included, it keeps, in input order,
    exactly the records whose title, category or notes contain the lowercased
    term once lowercased themselves, where missing notes count as empty. *)
Theorem filteredExpenses_spec (expenses : list Expense) (searchTerm : string) :
  (searchTerm = EmptyString -> filteredExpenses expenses searchTerm = expenses)
  /\ (searchTerm <> EmptyString ->
      exists keep : Expense -> bool,
        filteredExpenses expenses searchTerm = filter keep expenses
        /\ forall exp, keep exp = true <-> Matches searchTerm exp).
Proof.
  split.
  - intros ->. unfold filteredExpenses. now apply filter_all.
  - intros Hq. exists (matchesSearch searchTerm). split; [reflexivity|].
    intros exp. now apply matchesSearch_spec.
Qed.

(** A blank search term is matched as it is: of the sample records only the
    one with a space in its notes is kept. *)
Example blank_search_term : filteredExpenses scenarioA " " = [lunch].
Proof. reflexivity. Qed.

Example search_bus : filteredExpenses scenarioA "bus" = [bus].
Proof. reflexivity. Qed.

(** ** Category groups *)

Lemma find_split {A : Type} (p : A -> bool) (l : list A) (x : A) :
  find p l = Some x ->
  exists before after,
    l = before ++ x :: after /\ p x = true
    /\ forall y, In y before -> p y = false.
Proof.
  induction l as [|a l IH]; simpl; [discriminate|].
  destruct (p a) eqn:Ha.
  - intros H. injection H as ->. exists [], l. repeat split; auto. intros y [].
  - intros H. destruct (IH H) as [before [after [-> [Hx Hb]]]].
    exists (a :: before), after. repeat split; auto.
    intros y [<-|Hy]; auto.
Qed.

Lemma sortedCategories_In (cmp : string -> string -> Z) (l : list Expense)
  (gs : list Group) (g : Group) :
  sortedCategories cmp l = Normal gs ->
  In g gs <->
  exists k, In k (map categoryKey l) /\ g = sortItems (groupOf l k).
Proof.
  rewrite sortedCategories_spec. destruct (ownCategories l); [|discriminate].
  intros H. injection H as <-.
  rewrite sort_In, in_map_iff. split.
  - intros [k [<- Hk]]. exists k. split; [|reflexivity].
    apply firstSeen_In. apply (Permutation_in _ (ownPropertyOrder_perm _)). exact Hk.
  - intros [k [Hk ->]]. exists k. split; [reflexivity|].
    apply (Permutation_in _ (Permutation_sym (ownPropertyOrder_perm _))).
    now apply firstSeen_In.
Qed.

Lemma items_sortItems_In (l : list Expense) (k : string) (exp : Expense) :
  In exp (items (sortItems (groupOf l k))) <-> In exp l /\ categoryKey exp = k.
Proof.
  simpl. rewrite sort_In, filter_In. unfold inCategory.
  now rewrite String.eqb_eq.
Qed.

Lemma firstDisplay_key (l : list Expense) (k : string) :
  In k (map categoryKey l) ->
  exists before first after,
    l = before ++ first :: after
    /\ categoryKey first = k
    /\ (forall exp, In exp before -> categoryKey exp <> k)
    /\ firstDisplay l k = category first.
Proof.
  intros Hk. unfold firstDisplay.
  destruct (find (inCategory k) l) as [first|] eqn:Hf.
  - destruct (find_split _ _ _ Hf) as [before [after [Hl [Hx Hb]]]].
    exists before, first, after. repeat split; auto.
    + now apply String.eqb_eq in Hx.
    + intros exp He. apply String.eqb_neq. now apply Hb.
  - exfalso. apply inCategory_keys in Hk. destruct Hk as [exp [He Hp]].
    apply (find_none _ _ Hf) in He. congruence.
Qed.

(** C4. Two records are in one group exactly when their categories are equal
    once lowercased, and the label of a group is the category, as written,
    of the first record of the input that belongs to the group. *)
Theorem category_groups_by_lowercase (cmp : string -> string -> Z)
  (l : list Expense) (gs : list Group) :
  sortedCategories cmp l = Normal gs ->
  (forall e1 e2, In e1 l -> In e2 l ->
     (exists g, In g gs /\ In e1 (items g) /\ In e2 (items g))
     <-> JSString.toLowerCase (category e1) = JSString.toLowerCase (category e2))
  /\ (forall g, In g gs ->
        exists before first after,
          l = before ++ first :: after
          /\ In first (items g)
          /\ (forall exp, In exp before -> ~ In exp (items g))
          /\ display g = category first).
Proof.
  intros Hgs. split.
  - intros e1 e2 H1 H2. fold (categoryKey e1) (categoryKey e2). split.
    + intros [g [Hg [Hi1 Hi2]]].
      apply (sortedCategories_In _ _ _ _ Hgs) in Hg. destruct Hg as [k [_ ->]].
      apply items_sortItems_In in Hi1, Hi2. destruct Hi1, Hi2. congruence.
    + intros Heq. exists (sortItems (groupOf l (categoryKey e1))). split.
      * apply (sortedCategories_In _ _ _ _ Hgs). exists (categoryKey e1).
        split; [now apply in_map | reflexivity].
      * split; apply items_sortItems_In; auto.
  - intros g Hg.
    apply (sortedCategories_In _ _ _ _ Hgs) in Hg. destruct Hg as [k [Hk ->]].
    destruct (firstDisplay_key l k Hk) as [before [first [after [Hl [Hf [Hb Hd]]]]]].
    exists before, first, after. split; [exact Hl|]. split; [|split].
    + apply items_sortItems_In. split; [|exact Hf].
      rewrite Hl. apply in_or_app. right. now left.
    + intros exp He Hi. apply items_sortItems_In in Hi. destruct Hi as [_ Hi].
      now apply (Hb exp).
    + exact Hd.
Qed.

Lemma category_groups_by_lowercase_witness :
  exists gs,
    sortedCategories codeUnitCompare scenarioA = Normal gs
    /\ (forall e1 e2, In e1 scenarioA -> In e2 scenarioA ->
         (exists g, In g gs /\ In e1 (items g) /\ In e2 (items g))
         <-> JSString.toLowerCase (category e1) = JSString.toLowerCase (category e2))
    /\ (forall g, In g gs ->
          exists before first after,
            scenarioA = before ++ first :: after
            /\ In first (items g)
            /\ (forall exp, In exp before -> ~ In exp (items g))
            /\ display g = category first).
Proof.
  eexists. split; [vm_compute; reflexivity|].
  apply (category_groups_by_lowercase codeUnitCompare scenarioA).
  vm_compute. reflexivity.
Defined.

(** White space is part of the category: [Food] and [Food ] are two groups. *)
Example trailing_space_is_another_category :
  exists gs,
    sortedCategories codeUnitCompare [coffee; snack] = Normal gs
    /\ map (fun g => (display g, map id (items g))) gs
       = [("Food", ["1"]); ("Food ", ["8"])].
Proof. eexists. split; [vm_compute; reflexivity | reflexivity]. Qed.

(** The sample records: [Food] and [food] share a group labelled by the
    first of them, and the groups come out in alphabetical order. *)
Example scenarioA_categories :
  exists gs,
    sortedCategories codeUnitCompare scenarioA = Normal gs
    /\ map (fun g => (display g, map id (items g))) gs
       = [("Food", ["3"; "1"]); ("Transport", ["2"])].
Proof. eexists. split; [vm_compute; reflexivity | reflexivity]. Qed.

(** ** Calendar arithmetic *)

Local Open Scope Z_scope.

Lemma daysBefore_12 (y : Z) :
  JSDate.daysBefore y 12 = if JSDate.InLeapYear y then 366 else 365.
Proof.
  unfold JSDate.daysBefore, JSDate.DaysInMonth. simpl.
  destruct (JSDate.InLeapYear y); reflexivity.
Qed.

Lemma div_step (a n k : Z) :
  0 < n ->
  (a + 1 - n * k) / n - (a - n * k) / n = if (a + 1) mod n =? 0 then 1 else 0.
Proof.
  intros Hn.
  replace (a + 1 - n * k) with (a + 1 + (- k) * n) by lia.
  replace (a - n * k) with (a + (- k) * n) by lia.
  rewrite !Z.div_add by lia.
  destruct (Z.eqb_spec ((a + 1) mod n) 0) as [H|H].
  - pose proof (Z.div_mod (a + 1) n ltac:(lia)) as H1.
    pose proof (Z.div_mod a n ltac:(lia)) as H2.
    pose proof (Z.mod_pos_bound a n Hn) as H3.
    rewrite H in H1. nia.
  - pose proof (Z.div_mod (a + 1) n ltac:(lia)) as H1.
    pose proof (Z.div_mod a n ltac:(lia)) as H2.
    pose proof (Z.mod_pos_bound a n Hn) as H3.
    pose proof (Z.mod_pos_bound (a + 1) n Hn) as H4.
    nia.
Qed.

Lemma DayFromYear_succ (y : Z) :
  JSDate.DayFromYear (y + 1) = JSDate.DayFromYear y + JSDate.daysBefore y 12.
Proof.
  rewrite daysBefore_12. unfold JSDate.DayFromYear, JSDate.InLeapYear.
  pose proof (div_step (y - 1) 4 492 ltac:(lia)) as H4.
  pose proof (div_step (y - 1) 100 19 ltac:(lia)) as H100.
  pose proof (div_step (y - 1) 400 4 ltac:(lia)) as H400.
  replace (y - 1 + 1) with y in * by lia.
  replace (y - 4 * 492) with (y + 1 - 1969) in H4 by lia.
  replace (y - 1 - 4 * 492) with (y - 1969) in H4 by lia.
  replace (y - 100 * 19) with (y + 1 - 1901) in H100 by lia.
  replace (y - 1 - 100 * 19) with (y - 1901) in H100 by lia.
  replace (y - 400 * 4) with (y + 1 - 1601) in H400 by lia.
  replace (y - 1 - 400 * 4) with (y - 1601) in H400 by lia.
  assert (Hdiv : y mod 400 = 0 -> y mod 100 = 0).
  { intros H. apply Z.mod_divide in H; [|lia]. apply Z.mod_divide; [lia|].
    destruct H as [q ->]. exists (4 * q). lia. }
  assert (Hdiv' : y mod 100 = 0 -> y mod 4 = 0).
  { intros H. apply Z.mod_divide in H; [|lia]. apply Z.mod_divide; [lia|].
    destruct H as [q ->]. exists (25 * q). lia. }
  destruct (Z.eqb_spec (y mod 4) 0) as [E4|E4];
  destruct (Z.eqb_spec (y mod 100) 0) as [E100|E100];
  destruct (Z.eqb_spec (y mod 400) 0) as [E400|E400];
    cbv beta iota delta [andb orb negb] in *; lia.
Qed.

Lemma daysBefore_12_pos (y : Z) : 365 <= JSDate.daysBefore y 12.
Proof. rewrite daysBefore_12. destruct (JSDate.InLeapYear y); lia. Qed.

Lemma DayFromYear_mono (y y' : Z) :
  y <= y' -> JSDate.DayFromYear y <= JSDate.DayFromYear y'.
Proof.
  intros H. replace y' with (y + Z.of_nat (Z.to_nat (y' - y))) by lia.
  generalize (Z.to_nat (y' - y)) as n. clear. intros n.
  induction n as [|n IH]; [rewrite Z.add_0_r; lia|].
  replace (y + Z.of_nat (S n)) with (y + Z.of_nat n + 1) by lia.
  rewrite DayFromYear_succ.
  pose proof (daysBefore_12_pos (y + Z.of_nat n)). lia.
Qed.

Lemma DaysInMonth_bounds (y m : Z) : 28 <= JSDate.DaysInMonth y m <= 31.
Proof.
  unfold JSDate.DaysInMonth.
  destruct (m =? 2); [destruct (JSDate.InLeapYear y); lia|].
  destruct ((m =? 4) || (m =? 6) || (m =? 9) || (m =? 11))%bool; lia.
Qed.

Lemma daysBefore_mono (y : Z) (j k : nat) :
  (j < k)%nat -> JSDate.daysBefore y j + 28 <= JSDate.daysBefore y k.
Proof.
  induction 1 as [|k Hle IH]; cbn [JSDate.daysBefore].
  - pose proof (DaysInMonth_bounds y (Z.of_nat (S j))). lia.
  - pose proof (DaysInMonth_bounds y (Z.of_nat (S k))). lia.
Qed.

(** The day numbers of valid days are ordered as the days of the calendar. *)
Lemma MakeDay_lt (y m d y' m' d' : Z) :
  1 <= m <= 12 -> 1 <= d <= JSDate.DaysInMonth y m ->
  1 <= m' <= 12 -> 1 <= d' <= JSDate.DaysInMonth y' m' ->
  y * 10000 + m * 100 + d < y' * 10000 + m' * 100 + d' ->
  JSDate.MakeDay y m d < JSDate.MakeDay y' m' d'.
Proof.
  intros Hm Hd Hm' Hd' Hlt. unfold JSDate.MakeDay.
  pose proof (DaysInMonth_bounds y m) as Bm.
  pose proof (DaysInMonth_bounds y' m') as Bm'.
  assert (Hend : JSDate.daysBefore y (Z.to_nat (m - 1)) + JSDate.DaysInMonth y m
                 <= JSDate.daysBefore y 12).
  { replace (JSDate.DaysInMonth y m)
      with (JSDate.DaysInMonth y (Z.of_nat (S (Z.to_nat (m - 1)))))
      by (f_equal; lia).
    change (JSDate.daysBefore y (S (Z.to_nat (m - 1))) <= JSDate.daysBefore y 12).
    destruct (Nat.eq_dec (S (Z.to_nat (m - 1))) 12) as [->|Hne]; [lia|].
    pose proof (daysBefore_mono y (S (Z.to_nat (m - 1))) 12 ltac:(lia)). lia. }
  assert (Hpos : 0 <= JSDate.daysBefore y' (Z.to_nat (m' - 1))).
  { destruct (Z.to_nat (m' - 1)) as [|k] eqn:Hk; [simpl; lia|].
    pose proof (daysBefore_mono y' 0 (S k) ltac:(lia)) as H0.
    change (JSDate.daysBefore y' 0) with 0 in H0. lia. }
  destruct (Z.lt_trichotomy y y') as [Hy|[<-|Hy]]; [| |lia].
  - pose proof (DayFromYear_mono (y + 1) y' ltac:(lia)) as Hmono.
    rewrite DayFromYear_succ in Hmono. lia.
  - destruct (Z.lt_trichotomy m m') as [Hmm|[<-|Hmm]]; [| lia | lia].
    assert (Hs : JSDate.daysBefore y (Z.to_nat (m - 1)) + JSDate.DaysInMonth y m
                 <= JSDate.daysBefore y (Z.to_nat (m' - 1))).
    { replace (JSDate.DaysInMonth y m)
        with (JSDate.DaysInMonth y (Z.of_nat (S (Z.to_nat (m - 1)))))
        by (f_equal; lia).
      change (JSDate.daysBefore y (S (Z.to_nat (m - 1)))
              <= JSDate.daysBefore y (Z.to_nat (m' - 1))).
      destruct (Nat.eq_dec (S (Z.to_nat (m - 1))) (Z.to_nat (m' - 1))) as [->|Hne];
        [lia|].
      pose proof (daysBefore_mono y (S (Z.to_nat (m - 1))) (Z.to_nat (m' - 1))
                    ltac:(lia)). lia. }
    lia.
Qed.

Close Scope Z_scope.

(** ** Reading a month label back *)

Lemma digits_acc (d : Decimal.uint) (p : positive) :
  JSString.digits (NilEmpty.string_of_uint d) (Npos p)
  = Some (Npos (Pos.of_uint_acc d p)).
Proof.
  revert p. induction d; intros p; cbn [NilEmpty.string_of_uint JSString.digits Pos.of_uint_acc];
    [reflexivity | ..];
    match goal with
    | |- context [JSString.digit ?c] =>
        let v := eval vm_compute in (JSString.digit c) in
        change (JSString.digit c) with v; cbv beta iota
    end;
    rewrite <- IHd; f_equal; lia.
Qed.

Lemma digits_zero (d : Decimal.uint) :
  JSString.digits (NilEmpty.string_of_uint d) 0 = Some (Pos.of_uint d).
Proof.
  induction d; cbn [NilEmpty.string_of_uint JSString.digits Pos.of_uint];
    [reflexivity | ..];
    match goal with
    | |- context [JSString.digit ?c] =>
        let v := eval vm_compute in (JSString.digit c) in
        change (JSString.digit c) with v; cbv beta iota
    end;
    [exact IHd | ..];
    rewrite <- digits_acc; f_equal.
Qed.

Lemma number_year (n : N) :
  JSDate.number (NilZero.string_of_uint (N.to_uint n)) = Some (Z.of_N n).
Proof.
  unfold JSDate.number.
  assert (H : JSString.digits (NilZero.string_of_uint (N.to_uint n)) 0 = Some n).
  { pose proof (DecimalN.Unsigned.of_to n) as Hn. unfold N.of_uint in Hn.
    unfold NilZero.string_of_uint.
    destruct (N.to_uint n) eqn:Hd; try (rewrite digits_zero; now rewrite Hn).
    simpl in Hn. now rewrite <- Hn. }
  now rewrite H.
Qed.

Lemma year_nonempty (n : N) :
  exists c r, NilZero.string_of_uint (N.to_uint n) = String c r.
Proof.
  unfold NilZero.string_of_uint.
  destruct (N.to_uint n); simpl; eauto.
Qed.

Lemma findMonth_format (m : Z) (r : string) :
  (1 <= m <= 12)%Z ->
  JSDate.findMonth JSDate.monthNames 1 (JSDate.monthName m ++ String " " r)%string
  = Some (m, r).
Proof.
  intros Hm.
  assert (H : In m [1; 2; 3; 4; 5; 6; 7; 8; 9; 10; 11; 12]%Z) by (simpl; lia).
  simpl in H.
  repeat (destruct H as [<-|H]; [reflexivity|]). contradiction.
Qed.

Lemma parseMonthYear_format (y m : Z) :
  (0 <= y)%Z -> (1 <= m <= 12)%Z ->
  JSDate.parseMonthYear (JSDate.formatMonthYear y m) = Some (y, m).
Proof.
  intros Hy Hm. unfold JSDate.parseMonthYear, JSDate.formatMonthYear.
  change (" " ++ ?s)%string with (String " " s).
  rewrite (findMonth_format m _ Hm).
  destruct (year_nonempty (Z.to_N y)) as [c [r Hr]].
  rewrite Hr, <- Hr, number_year. f_equal. f_equal. lia.
Qed.

(** ** Dates on the calendar *)

Local Open Scope Z_scope.

Lemma parseISODate_valid (s : string) (y m d : Z) :
  JSDate.parseISODate s = Some (y, m, d) ->
  0 <= y /\ 1 <= m <= 12 /\ 1 <= d <= JSDate.DaysInMonth y m.
Proof.
  unfold JSDate.parseISODate.
  do 10 (destruct s as [|? s]; [discriminate|]).
  destruct s; [|discriminate].
  destruct (_ && _)%bool; [|discriminate].
  unfold JSDate.number.
  destruct (JSString.digits _ 0) as [ny|]; [|discriminate].
  destruct (JSString.digits _ 0) as [nm|]; [|discriminate].
  destruct (JSString.digits _ 0) as [nd|]; [|discriminate].
  simpl option_map. cbv beta iota.
  destruct (_ && _)%bool eqn:Hb; [|discriminate].
  intros H. injection H as <- <- <-.
  rewrite !andb_true_iff, !Z.leb_le in Hb. lia.
Qed.

Lemma validDate_parse (exp : Expense) :
  validDate exp ->
  exists y m d,
    JSDate.parseISODate (date exp) = Some (y, m, d)
    /\ timeValue exp = JSDate.MakeDay y m d * JSDate.msPerDay
    /\ calendarDay exp = y * 10000 + m * 100 + d.
Proof.
  unfold validDate, timeValue, calendarDay, JSDate.getTime.
  destruct (JSDate.parseISODate (date exp)) as [[[y m] d]|]; [|congruence].
  intros _. now exists y, m, d.
Qed.

(** The time values of dates are ordered as the dates are. *)
Lemma timeValue_calendarDay (a b : Expense) :
  validDate a -> validDate b ->
  timeValue a <= timeValue b <-> calendarDay a <= calendarDay b.
Proof.
  intros Ha Hb.
  destruct (validDate_parse a Ha) as [y [m [d [Pa [-> ->]]]]].
  destruct (validDate_parse b Hb) as [y' [m' [d' [Pb [-> ->]]]]].
  apply parseISODate_valid in Pa, Pb.
  pose proof (DaysInMonth_bounds y m) as B. pose proof (DaysInMonth_bounds y' m') as B'.
  unfold JSDate.msPerDay. split; intros H.
  - destruct (Z.lt_ge_cases (y' * 10000 + m' * 100 + d') (y * 10000 + m * 100 + d))
      as [Hlt|Hge]; [|exact Hge].
    pose proof (MakeDay_lt y' m' d' y m d) as Hmono. lia.
  - destruct (Z.eq_dec (y * 10000 + m * 100 + d) (y' * 10000 + m' * 100 + d'))
      as [Heq|Hne].
    + assert (y = y' /\ m = m' /\ d = d') as [-> [-> ->]] by lia. lia.
    + pose proof (MakeDay_lt y m d y' m' d') as Hmono. lia.
Qed.

Close Scope Z_scope.

(** ** The local day *)

(** [localDate] is the day of the shifted time value: local time is UTC plus
    the offset, and the day number of a time is its quotient by the length
    of a day. *)
Lemma localDate_day (tz y m d : Z) :
  (- 1440 < tz < 1440)%Z ->
  (1 <= m <= 12)%Z -> (1 <= d <= JSDate.DaysInMonth y m)%Z ->
  let '(y', m', d') := JSDate.localDate tz (y, m, d) in
  JSDate.MakeDay y' m' d'
  = ((JSDate.MakeDay y m d * JSDate.msPerDay + tz * JSDate.msPerMinute)
     / JSDate.msPerDay)%Z.
Proof.
  intros Htz Hm Hd. unfold JSDate.localDate, JSDate.msPerDay, JSDate.msPerMinute.
  destruct (Z.ltb_spec tz 0) as [Hneg|Hpos].
  - assert (Hq : ((JSDate.MakeDay y m d * 86400000 + tz * 60000) / 86400000
                  = JSDate.MakeDay y m d - 1)%Z).
    { symmetry. apply (Z.div_unique _ _ _ (86400000 + tz * 60000)%Z); lia. }
    rewrite Hq. unfold JSDate.previousDay, JSDate.MakeDay.
    destruct (Z.ltb_spec 1 d) as [Hd1|Hd1]; [lia|].
    assert (d = 1%Z) as -> by lia.
    destruct (Z.ltb_spec 1 m) as [Hm1|Hm1].
    + replace (Z.to_nat (m - 1)) with (S (Z.to_nat (m - 1 - 1))) by lia.
      cbn [JSDate.daysBefore].
      replace (Z.of_nat (S (Z.to_nat (m - 1 - 1)))) with (m - 1)%Z by lia.
      lia.
    + assert (m = 1%Z) as -> by lia.
      pose proof (DayFromYear_succ (y - 1)) as Hs.
      replace (y - 1 + 1)%Z with y in Hs by lia.
      change (Z.to_nat (12 - 1)) with 11%nat. change (Z.to_nat (1 - 1)) with 0%nat.
      change (JSDate.daysBefore (y - 1) 12)
        with (JSDate.daysBefore (y - 1) 11 + JSDate.DaysInMonth (y - 1) 12)%Z in Hs.
      change (JSDate.DaysInMonth (y - 1) 12) with 31%Z in Hs.
      cbn [JSDate.daysBefore] in *. lia.
  - apply (Z.div_unique _ _ _ (tz * 60000)%Z); lia.
Qed.

(** ** Sorting by date *)

Lemma newestFirst_valid (a b : Expense) :
  validDate a -> validDate b ->
  newestFirst a b = (timeValue b - timeValue a)%Z.
Proof.
  unfold validDate, newestFirst, timeValue.
  destruct (JSDate.getTime (date a)), (JSDate.getTime (date b)); simpl; congruence.
Qed.

Lemma newestFirst_tie (a b : Expense) :
  timeValue a = timeValue b -> inOrder newestFirst a b.
Proof.
  unfold inOrder, newestFirst, timeValue.
  destruct (JSDate.getTime (date a)), (JSDate.getTime (date b)); simpl; lia.
Qed.

Lemma StronglySorted_weaken {A : Type} (R R' : A -> A -> Prop) (P : A -> Prop)
  (l : list A) :
  Forall P l ->
  (forall a b, P a -> P b -> R a b -> R' a b) ->
  StronglySorted R l -> StronglySorted R' l.
Proof.
  intros HP Himp Hs. induction Hs as [|a l Hs IH Ha]; [constructor|].
  inversion HP as [|? ? Pa HP']; subst.
  constructor; [now apply IH|].
  rewrite Forall_forall in *. intros b Hb. apply Himp; auto.
Qed.

Lemma filter_filter_and {A : Type} (p q : A -> bool) (l : list A) :
  filter p (filter q l) = filter (fun x => q x && p x) l.
Proof.
  induction l as [|x l IH]; simpl; [reflexivity|].
  destruct (q x); simpl; [destruct (p x)|]; now rewrite IH.
Qed.

Lemma sortItems_newest_first (l : list Expense) (k : string) :
  Forall validDate l ->
  StronglySorted (fun a b => (calendarDay b <= calendarDay a)%Z)
                 (items (sortItems (groupOf l k))).
Proof.
  intros Hv. simpl.
  assert (Hf : Forall validDate (filter (inCategory k) l)).
  { rewrite Forall_forall in *. intros x Hx. apply Hv.
    apply filter_In in Hx. tauto. }
  apply (StronglySorted_weaken (inOrder newestFirst) _ validDate).
  - apply (Permutation_Forall (Permutation_sym (sort_perm _ _))). exact Hf.
  - intros a b Ha Hb. unfold inOrder. rewrite newestFirst_valid by assumption.
    intros H. apply timeValue_calendarDay; [assumption | assumption | lia].
  - apply (sort_sorted newestFirst validDate); [| |exact Hf].
    + intros a b Ha Hb. unfold inOrder. rewrite !newestFirst_valid by assumption. lia.
    + intros a b c Ha Hb Hc. unfold inOrder.
      rewrite !newestFirst_valid by assumption. lia.
Qed.

Lemma sortItems_stable (l : list Expense) (k : string) (day : Z) :
  Forall validDate l ->
  filter (fun exp => (calendarDay exp =? day)%Z) (items (sortItems (groupOf l k)))
  = filter (fun exp => inCategory k exp && (calendarDay exp =? day)%Z) l.
Proof.
  intros Hv. simpl. rewrite sort_stable.
  - apply filter_filter_and.
  - intros a b Ha Hb Hda Hdb. apply newestFirst_tie.
    rewrite Forall_forall in Hv.
    apply filter_In in Ha, Hb. destruct Ha as [Ha _], Hb as [Hb _].
    apply Z.eqb_eq in Hda, Hdb.
    apply Z.le_antisymm; apply timeValue_calendarDay; auto; lia.
Qed.

Lemma sortItems_key (l : list Expense) (k : string) :
  In k (map categoryKey l) ->
  JSString.toLowerCase (display (sortItems (groupOf l k))) = k.
Proof.
  intros Hk. simpl.
  destruct (firstDisplay_key l k Hk) as [before [first [after [_ [Hf [_ ->]]]]]].
  exact Hf.
Qed.

(** ** Order inside a category group *)

(** C7. For records with well-formed dates, the items of every category
    group are in descending order of date, and the records of a group that
    share a date stand in the order they have in the input. *)
Theorem category_items_newest_first_stable (cmp : string -> string -> Z)
  (l : list Expense) (gs : list Group) :
  Forall validDate l ->
  sortedCategories cmp l = Normal gs ->
  forall g, In g gs ->
    StronglySorted (fun a b => (calendarDay b <= calendarDay a)%Z) (items g)
    /\ forall day,
         filter (fun exp => (calendarDay exp =? day)%Z) (items g)
         = filter (fun exp => inCategory (JSString.toLowerCase (display g)) exp
                              && (calendarDay exp =? day)%Z) l.
Proof.
  intros Hv Hgs g Hg.
  apply (sortedCategories_In _ _ _ _ Hgs) in Hg. destruct Hg as [k [Hk ->]].
  split.
  - now apply sortItems_newest_first.
  - intros day. rewrite (sortItems_key l k Hk). now apply sortItems_stable.
Qed.

Lemma category_items_newest_first_stable_witness :
  exists gs,
    Forall validDate scenarioA
    /\ sortedCategories codeUnitCompare scenarioA = Normal gs
    /\ forall g, In g gs ->
         StronglySorted (fun a b => (calendarDay b <= calendarDay a)%Z) (items g)
         /\ forall day,
              filter (fun exp => (calendarDay exp =? day)%Z) (items g)
              = filter (fun exp => inCategory (JSString.toLowerCase (display g)) exp
                                   && (calendarDay exp =? day)%Z) scenarioA.
Proof.
  assert (Hv : Forall validDate scenarioA).
  { repeat constructor; unfold validDate; vm_compute; discriminate. }
  eexists. split; [exact Hv|]. split; [vm_compute; reflexivity|].
  apply (category_items_newest_first_stable codeUnitCompare scenarioA);
    [exact Hv | vm_compute; reflexivity].
Defined.

(** Two records of one category and one date keep their input order behind
    the newer record. *)
Example same_date_keeps_input_order :
  exists gs,
    sortedCategories codeUnitCompare [coffee; tea; lunch] = Normal gs
    /\ map (fun g => map id (items g)) gs = [["3"; "1"; "7"]].
Proof. eexists. split; [vm_compute; reflexivity | reflexivity]. Qed.

(** ** Order of the category groups *)

Lemma foldedLabels_distinct (cmp : string -> string -> Z) (l : list Expense)
  (gs : list Group) :
  sortedCategories cmp l = Normal gs -> NoDup (map foldedLabel gs).
Proof.
  rewrite sortedCategories_spec. destruct (ownCategories l); [|discriminate].
  intros H. injection H as <-.
  set (ks := firstSeen (map categoryKey l)).
  apply (Permutation_NoDup (l := ks)); [|apply firstSeen_NoDup].
  rewrite (Permutation_map foldedLabel (sort_perm _ _)), map_map.
  rewrite (Permutation_map _ (ownPropertyOrder_perm ks)).
  apply Permutation_refl'. symmetry.
  transitivity (map (fun k : string => k) ks); [|apply map_id].
  apply map_ext_in. intros k Hk.
  apply sortItems_key. now apply (proj1 (firstSeen_In _ _)).
Qed.

Section Collation.

(** The collation of the host, consistent as ECMAScript asks of a
    comparator. *)
Variable localeCompare : string -> string -> Z.
Hypothesis localeCompare_antisym :
  forall a b, (0 < localeCompare a b)%Z -> (localeCompare b a < 0)%Z.
Hypothesis localeCompare_trans :
  forall a b c,
    (localeCompare a b <= 0)%Z -> (localeCompare b c <= 0)%Z ->
    (localeCompare a c <= 0)%Z.

(** Groups between which the collation does not decide keep the order in
    which [Object.values] lists them. *)
Lemma sortedCategories_ties (l : list Expense) (obj : JSObject.object Group)
  (gs : list Group) (x : string) :
  expensesByCategory l = Normal obj ->
  sortedCategories localeCompare l = Normal gs ->
  filter (fun g => (localeCompare x (foldedLabel g) =? 0)%Z) gs
  = filter (fun g => (localeCompare x (foldedLabel g) =? 0)%Z) (JSObject.values obj).
Proof.
  unfold sortedCategories. intros ->. simpl. intros H. injection H as <-.
  apply sort_stable. intros a b _ _ Ha Hb.
  apply Z.eqb_eq in Ha, Hb. unfold inOrder, byDisplay. fold (foldedLabel a) (foldedLabel b).
  apply (localeCompare_trans _ x); [|lia].
  destruct (Z.ltb_spec 0 (localeCompare (foldedLabel a) x)) as [Hlt|Hle]; [|exact Hle].
  apply localeCompare_antisym in Hlt. lia.
Qed.

(** C8. The category groups are in ascending order of their case-folded
    labels under the collation of the host. No two groups have the same
    case-folded label, so wherever two groups had, the earlier of them would
    be the one whose first record comes first in the input. *)
Theorem sortedCategories_ordered (l : list Expense) (gs : list Group) :
  sortedCategories localeCompare l = Normal gs ->
  StronglySorted
    (fun a b => (localeCompare (foldedLabel a) (foldedLabel b) <= 0)%Z) gs
  /\ NoDup (map foldedLabel gs)
  /\ forall before g1 between g2 after,
       gs = before ++ g1 :: between ++ g2 :: after ->
       foldedLabel g1 = foldedLabel g2 ->
       exists l1 first l2,
         l = l1 ++ first :: l2 /\ In first (items g1)
         /\ forall exp, In exp l1 -> ~ In exp (items g2).
Proof.
  intros Hgs.
  assert (Hnd : NoDup (map foldedLabel gs)) by apply (foldedLabels_distinct _ _ _ Hgs).
  split; [|split; [exact Hnd|]].
  - revert Hgs. rewrite sortedCategories_spec.
    destruct (ownCategories l); [|discriminate].
    intros H. injection H as <-.
    apply (sort_sorted (byDisplay localeCompare) (fun _ => True)).
    + intros a b _ _ Hlt. unfold inOrder, byDisplay in *.
      apply localeCompare_antisym in Hlt. lia.
    + intros a b c _ _ _. unfold inOrder, byDisplay. apply localeCompare_trans.
    + apply Forall_forall. auto.
  - intros before g1 between g2 after -> Heq. exfalso.
    rewrite map_app in Hnd. simpl in Hnd.
    apply NoDup_remove_2 in Hnd. apply Hnd.
    apply in_or_app. right. rewrite map_app. apply in_or_app. right.
    left. now symmetry.
Qed.

End Collation.

Lemma codeUnitCompare_le (a b : string) :
  (codeUnitCompare a b <= 0)%Z <-> a = b \/ String_as_OT.lt a b.
Proof.
  unfold codeUnitCompare.
  destruct (String.compare a b) eqn:Hc.
  - apply String_as_OT.cmp_eq in Hc. split; [now left | lia].
  - apply String_as_OT.cmp_lt in Hc. split; [now right | lia].
  - split; [lia|]. intros [->|Hlt].
    + assert (H : String.compare b b = Eq) by now apply String_as_OT.cmp_eq.
      congruence.
    + apply String_as_OT.cmp_lt in Hlt. unfold String_as_OT.cmp in Hlt. congruence.
Qed.

Lemma codeUnitCompare_antisym (a b : string) :
  (0 < codeUnitCompare a b)%Z -> (codeUnitCompare b a < 0)%Z.
Proof.
  unfold codeUnitCompare. rewrite (String.compare_antisym b a).
  destruct (String.compare a b); simpl; lia.
Qed.

Lemma codeUnitCompare_trans (a b c : string) :
  (codeUnitCompare a b <= 0)%Z -> (codeUnitCompare b c <= 0)%Z ->
  (codeUnitCompare a c <= 0)%Z.
Proof.
  rewrite !codeUnitCompare_le. intros [->|H1] [->|H2]; auto.
  right. eapply String_as_OT.lt_trans; eassumption.
Qed.

Lemma sortedCategories_ordered_witness :
  exists gs,
    sortedCategories codeUnitCompare scenarioA = Normal gs
    /\ StronglySorted
         (fun a b => (codeUnitCompare (foldedLabel a) (foldedLabel b) <= 0)%Z) gs
    /\ NoDup (map foldedLabel gs)
    /\ forall before g1 between g2 after,
         gs = before ++ g1 :: between ++ g2 :: after ->
         foldedLabel g1 = foldedLabel g2 ->
         exists l1 first l2,
           scenarioA = l1 ++ first :: l2 /\ In first (items g1)
           /\ forall exp, In exp l1 -> ~ In exp (items g2).
Proof.
  eexists. split; [vm_compute; reflexivity|].
  apply (sortedCategories_ordered codeUnitCompare
           codeUnitCompare_antisym codeUnitCompare_trans scenarioA).
  vm_compute. reflexivity.
Defined.

(** ** Category cells inside a month *)

Lemma sortedMonths_In (tz : Z) (l : list Expense) (ms : list Month) (m : Month) :
  sortedMonths tz l = Normal ms -> In m ms ->
  categories m = cellsOf (monthRecords tz (label m) l)
  /\ In (label m) (map (fun exp => monthLabelOf tz (date exp)) l).
Proof.
  rewrite sortedMonths_spec. destruct (ownCategories l); [|discriminate].
  intros H. injection H as <-. intros Hm.
  apply in_map_iff in Hm. destruct Hm as [L [<- HL]]. simpl.
  split; [reflexivity|].
  apply (proj1 (sort_In _ _ _)) in HL. now apply (proj1 (firstSeen_In _ _)) in HL.
Qed.

(** C9, as stated, fails on two records of April 2024 whose categories are
    [Post] and [2024], in this order: the cell of [2024] is listed first. *)
Lemma cells_not_in_first_seen_order : ~ cellsInFirstSeenOrder 0 [stamps; locker].
Proof.
  intros H.
  specialize (H _ {| label := "April 2024";
                     categories := [("post", [stamps]); ("2024", [locker])] |} eq_refl).
  specialize (H (or_introl eq_refl)).
  vm_compute in H. discriminate.
Qed.

(** C9, amended. The cells of a month are listed in own-property order of
    their category keys: the keys that are array indices first, in ascending
    numeric order, then the other keys in first-seen order among the records
    of the month; when no key is an array index this is first-seen order.
    Each cell holds its records in input order. *)
Theorem month_cells_own_property_order (tz : Z) (l : list Expense)
  (ms : list Month) (m : Month) :
  sortedMonths tz l = Normal ms -> In m ms ->
  JSObject.entries (categories m)
  = map (fun k => (k, filter (inCategory k) (monthRecords tz (label m) l)))
        (ownPropertyOrder
           (firstSeen (map categoryKey (monthRecords tz (label m) l))))
  /\ (forallb (fun k => negb (JSObject.isArrayIndex k))
              (map categoryKey (monthRecords tz (label m) l)) = true ->
      JSObject.keys (categories m)
      = firstSeen (map categoryKey (monthRecords tz (label m) l))).
Proof.
  intros Hms Hm. destruct (sortedMonths_In _ _ _ _ Hms Hm) as [-> _].
  unfold cellsOf. split.
  - apply entries_tabulate.
  - intros Hno. rewrite keys_tabulate. apply ownPropertyOrder_no_index.
    rewrite forallb_forall in *. intros k Hk. apply Hno.
    now apply (proj1 (firstSeen_In _ _)).
Qed.

Lemma month_cells_own_property_order_witness :
  exists ms m,
    sortedMonths 0 [stamps; locker] = Normal ms /\ In m ms
    /\ JSObject.entries (categories m)
       = map (fun k => (k, filter (inCategory k)
                             (monthRecords 0 (label m) [stamps; locker])))
             (ownPropertyOrder
                (firstSeen (map categoryKey
                              (monthRecords 0 (label m) [stamps; locker]))))
    /\ (forallb (fun k => negb (JSObject.isArrayIndex k))
                (map categoryKey (monthRecords 0 (label m) [stamps; locker])) = true ->
        JSObject.keys (categories m)
        = firstSeen (map categoryKey (monthRecords 0 (label m) [stamps; locker]))).
Proof.
  eexists. eexists.
  split; [vm_compute; reflexivity|].
  split; [left; reflexivity|].
  apply (month_cells_own_property_order 0 [stamps; locker]
           [{| label := "April 2024";
               categories := [("post", [stamps]); ("2024", [locker])] |}]);
    [vm_compute; reflexivity | left; reflexivity].
Defined.

(** The cells of the sample month: [2024] before [post], against input
    order. *)
Example array_index_category_first :
  exists ms,
    sortedMonths 0 [stamps; locker] = Normal ms
    /\ map (fun m => (label m, JSObject.keys (categories m))) ms
       = [("April 2024", ["2024"; "post"])].
Proof. eexists. split; [vm_compute; reflexivity | reflexivity]. Qed.

(** ** Month buckets *)

(** At or east of Greenwich a record is filed under the month and year of
    its date. *)
Lemma monthLabelOf_east (tz y m d : Z) (s : string) :
  (0 <= tz)%Z -> JSDate.parseISODate s = Some (y, m, d) ->
  monthLabelOf tz s = JSDate.formatMonthYear y m.
Proof.
  intros Htz Hs. unfold monthLabelOf, JSDate.toLocaleMonthYear, JSDate.localDate.
  rewrite Hs. apply Z.ltb_ge in Htz. now rewrite Htz.
Qed.

(** West of Greenwich the first day of a month is filed under the month
    before. *)
Lemma monthLabelOf_west_first (tz y m : Z) (s : string) :
  (tz < 0)%Z -> (1 < m)%Z -> JSDate.parseISODate s = Some (y, m, 1%Z) ->
  monthLabelOf tz s = JSDate.formatMonthYear y (m - 1).
Proof.
  intros Htz Hm Hs. unfold monthLabelOf, JSDate.toLocaleMonthYear, JSDate.localDate.
  rewrite Hs. apply Z.ltb_lt in Htz, Hm. rewrite Htz. simpl. now rewrite Hm.
Qed.

(** C5, on a host five hours west of Greenwich: [coffee], dated 1 March 2024,
    and [bus], dated 15 March 2024, are of one calendar month, yet they are
    filed in two buckets, [coffee] under February. *)
Theorem first_of_month_west_of_utc :
  JSDate.parseISODate (date coffee) = Some (2024, 3, 1)%Z
  /\ JSDate.parseISODate (date bus) = Some (2024, 3, 15)%Z
  /\ exists ms,
       sortedMonths (-300) [coffee; bus] = Normal ms
       /\ map (fun m => (label m,
                         map id (List.concat (JSObject.values (categories m))))) ms
          = [("March 2024", ["2"]); ("February 2024", ["1"])].
Proof.
  split; [reflexivity|]. split; [reflexivity|].
  eexists. split; [vm_compute; reflexivity | reflexivity].
Qed.

(** ** Order of the month groups *)

Lemma localDate_valid (tz y m d : Z) :
  (1 <= m <= 12)%Z ->
  exists y' m' d',
    JSDate.localDate tz (y, m, d) = (y', m', d')
    /\ (y - 1 <= y')%Z /\ (1 <= m' <= 12)%Z.
Proof.
  intros Hm. unfold JSDate.localDate, JSDate.previousDay.
  destruct (tz <? 0)%Z; [|exists y, m, d; split; [reflexivity | lia]].
  destruct (1 <? d)%Z; [exists y, m, (d - 1)%Z; split; [reflexivity | lia]|].
  destruct (Z.ltb_spec 1 m).
  - eexists _, _, _. split; [reflexivity | lia].
  - eexists _, _, _. split; [reflexivity | lia].
Qed.

Lemma monthLabelOf_format (tz : Z) (exp : Expense) :
  threeDigitYear exp ->
  exists y m,
    (100 <= y)%Z /\ (1 <= m <= 12)%Z
    /\ monthLabelOf tz (date exp) = JSDate.formatMonthYear y m.
Proof.
  intros [y [m [d [Hp Hy]]]].
  destruct (parseISODate_valid _ _ _ _ Hp) as [_ [Hm _]].
  destruct (localDate_valid tz y m d Hm) as [y' [m' [d' [Hl [Hy' Hm']]]]].
  exists y', m'. repeat split; try lia.
  unfold monthLabelOf, JSDate.toLocaleMonthYear. now rewrite Hp, Hl.
Qed.

Lemma getTimeOfLabel_format (tz y m : Z) :
  (100 <= y)%Z -> (1 <= m <= 12)%Z ->
  JSDate.getTimeOfLabel tz (JSDate.formatMonthYear y m)
  = Some (JSDate.MakeDay y m 1 * JSDate.msPerDay - tz * JSDate.msPerMinute)%Z.
Proof.
  intros Hy Hm. unfold JSDate.getTimeOfLabel.
  rewrite parseMonthYear_format by lia.
  apply Z.leb_le in Hy. now rewrite Hy.
Qed.

Lemma monthNumber_format (y m : Z) :
  (0 <= y)%Z -> (1 <= m <= 12)%Z ->
  monthNumber (JSDate.formatMonthYear y m) = (12 * y + m)%Z.
Proof.
  intros Hy Hm. unfold monthNumber. now rewrite parseMonthYear_format.
Qed.

Lemma MakeDay_month_le (y m y' m' : Z) :
  (1 <= m <= 12)%Z -> (1 <= m' <= 12)%Z ->
  (JSDate.MakeDay y m 1 <= JSDate.MakeDay y' m' 1)%Z <-> (12 * y + m <= 12 * y' + m')%Z.
Proof.
  intros Hm Hm'.
  pose proof (DaysInMonth_bounds y m) as B. pose proof (DaysInMonth_bounds y' m') as B'.
  split; intros H.
  - destruct (Z.lt_ge_cases (12 * y' + m') (12 * y + m)) as [Hlt|Hge]; [|exact Hge].
    pose proof (MakeDay_lt y' m' 1 y m 1). lia.
  - destruct (Z.eq_dec (12 * y + m) (12 * y' + m')) as [Heq|Hne].
    + assert (y = y' /\ m = m') as [-> ->] by lia. lia.
    + pose proof (MakeDay_lt y m 1 y' m' 1). lia.
Qed.

Lemma StronglySorted_map {A B : Type} (R : B -> B -> Prop) (f : A -> B) (l : list A) :
  StronglySorted (fun a b => R (f a) (f b)) l -> StronglySorted R (map f l).
Proof.
  induction 1 as [|a l Hs IH Ha]; simpl; constructor; [assumption|].
  rewrite Forall_forall in *. intros b Hb.
  apply in_map_iff in Hb. destruct Hb as [x [<- Hx]]. now apply Ha.
Qed.

(** In every time zone, for dates from the year 101 on, the month groups
    come newest first: in descending order of the year and month that their
    labels name, whatever the spelling of the labels. *)
Lemma sortedMonths_newest_first (tz : Z) (l : list Expense) (ms : list Month) :
  Forall threeDigitYear l ->
  sortedMonths tz l = Normal ms ->
  StronglySorted
    (fun a b => (monthNumber (label b) <= monthNumber (label a))%Z) ms.
Proof.
  intros Hv. rewrite sortedMonths_spec. destruct (ownCategories l); [|discriminate].
  intros H. injection H as <-.
  set (P := fun L => exists y m, (100 <= y)%Z /\ (1 <= m <= 12)%Z
                                 /\ L = JSDate.formatMonthYear y m).
  assert (Hcmp : forall a b, P a -> P b ->
            (inOrder (newestMonthFirst tz) a b <-> (monthNumber b <= monthNumber a)%Z)).
  { intros a b [ya [ma [Hya [Hma ->]]]] [yb [mb [Hyb [Hmb ->]]]].
    unfold inOrder, newestMonthFirst.
    rewrite !getTimeOfLabel_format, !monthNumber_format by lia. simpl.
    rewrite <- (MakeDay_month_le yb mb ya ma) by assumption.
    unfold JSDate.msPerDay. lia. }
  assert (HP : Forall P (firstSeen (map (fun exp => monthLabelOf tz (date exp)) l))).
  { apply Forall_forall. intros L HL.
    apply (proj1 (firstSeen_In _ _)), in_map_iff in HL. destruct HL as [exp [<- He]].
    rewrite Forall_forall in Hv.
    destruct (monthLabelOf_format tz exp (Hv exp He)) as [y [m [Hy [Hm ->]]]].
    now exists y, m. }
  apply (StronglySorted_map
           (fun a b => (monthNumber (label b) <= monthNumber (label a))%Z)).
  simpl.
  apply (StronglySorted_weaken (inOrder (newestMonthFirst tz)) _ P).
  - apply (Permutation_Forall (Permutation_sym (sort_perm _ _))). exact HP.
  - intros a b Pa Pb. now apply Hcmp.
  - apply (sort_sorted (newestMonthFirst tz) P); [| |exact HP].
    + intros a b Pa Pb Hlt. apply Hcmp; [assumption | assumption|].
      assert (Hn : ~ inOrder (newestMonthFirst tz) a b) by (unfold inOrder; lia).
      rewrite (Hcmp a b Pa Pb) in Hn. lia.
    + intros a b c Pa Pb Pc. rewrite !Hcmp by assumption. lia.
Qed.

(** At or east of Greenwich two records share a bucket exactly when their
    dates are of one month of one year. *)
Lemma east_buckets_are_calendar_months (tz : Z) (a b : string)
  (y m d y' m' d' : Z) :
  (0 <= tz)%Z ->
  JSDate.parseISODate a = Some (y, m, d) ->
  JSDate.parseISODate b = Some (y', m', d') ->
  monthLabelOf tz a = monthLabelOf tz b <-> (y = y' /\ m = m').
Proof.
  intros Htz Ha Hb.
  rewrite (monthLabelOf_east tz _ _ _ _ Htz Ha), (monthLabelOf_east tz _ _ _ _ Htz Hb).
  apply parseISODate_valid in Ha, Hb. split.
  - intros H. apply (f_equal JSDate.parseMonthYear) in H.
    rewrite !parseMonthYear_format in H by lia. now injection H.
  - now intros [-> ->].
Qed.

(** ** More about the search filter *)

Lemma append_assoc (a b c : string) : ((a ++ b) ++ c = a ++ (b ++ c))%string.
Proof. induction a as [|x a IH]; simpl; [reflexivity | now rewrite IH]. Qed.

Lemma Substring_trans (a b c : string) :
  JSString.Substring a b -> JSString.Substring b c -> JSString.Substring a c.
Proof.
  intros [p [s ->]] [p' [s' ->]].
  exists (p' ++ p)%string, (s ++ s')%string.
  now rewrite !append_assoc.
Qed.

Lemma Matches_narrows (q q' : string) (exp : Expense) :
  JSString.Substring (JSString.toLowerCase q) (JSString.toLowerCase q') ->
  Matches q' exp -> Matches q exp.
Proof.
  intros Hs. unfold Matches. cbv zeta.
  intros [H|[H|H]]; [left | right; left | right; right];
    exact (Substring_trans _ _ _ Hs H).
Qed.

Lemma matchesSearch_narrows (q q' : string) (exp : Expense) :
  JSString.Substring (JSString.toLowerCase q) (JSString.toLowerCase q') ->
  matchesSearch q' exp = true -> matchesSearch q exp = true.
Proof.
  intros Hs H.
  destruct q as [|c q]; [reflexivity|].
  destruct q' as [|c' q'].
  - apply Substring_empty in Hs. discriminate.
  - apply matchesSearch_spec; [discriminate|].
    apply (Matches_narrows _ _ _ Hs).
    apply matchesSearch_spec; [discriminate | exact H].
Qed.

Lemma matchesSearch_folded (q q' : string) (exp : Expense) :
  JSString.toLowerCase q = JSString.toLowerCase q' ->
  matchesSearch q exp = matchesSearch q' exp.
Proof.
  intros H. unfold matchesSearch.
  destruct q as [|c q], q' as [|c' q']; try discriminate; [reflexivity|].
  cbv zeta. rewrite H. reflexivity.
Qed.

(** X1. The search does not look at the case of the term: two terms with
    the same lowercase spelling select the same records, in the same
    order. *)
Theorem search_ignores_case_of_term (expenses : list Expense) (q q' : string) :
  JSString.toLowerCase q = JSString.toLowerCase q' ->
  filteredExpenses expenses q = filteredExpenses expenses q'.
Proof.
  intros H. unfold filteredExpenses.
  apply filter_ext. intros exp. now apply matchesSearch_folded.
Qed.

Lemma search_ignores_case_of_term_witness :
  JSString.toLowerCase "LuNcH" = JSString.toLowerCase "lunch"
  /\ filteredExpenses scenarioA "LuNcH" = filteredExpenses scenarioA "lunch".
Proof.
  split; [reflexivity|].
  apply (search_ignores_case_of_term scenarioA "LuNcH" "lunch"). reflexivity.
Defined.

(** X2. Extending the search term only narrows the result: when the
    lowercased term [q] occurs in the lowercased term [q'], every record
    selected by [q'] is selected by [q], and searching for [q'] among the
    records selected by [q] gives what searching for [q'] among all records
    gives. *)
Theorem search_narrows (expenses : list Expense) (q q' : string) :
  JSString.Substring (JSString.toLowerCase q) (JSString.toLowerCase q') ->
  (forall exp, In exp (filteredExpenses expenses q') ->
               In exp (filteredExpenses expenses q))
  /\ filteredExpenses (filteredExpenses expenses q) q'
     = filteredExpenses expenses q'.
Proof.
  intros Hs. unfold filteredExpenses. split.
  - intros exp Hin. apply filter_In in Hin. destruct Hin as [Hin Hm].
    apply filter_In. split; [exact Hin|].
    exact (matchesSearch_narrows _ _ _ Hs Hm).
  - rewrite filter_filter_and. apply filter_ext. intros exp.
    destruct (matchesSearch q' exp) eqn:Hm.
    + now rewrite (matchesSearch_narrows _ _ _ Hs Hm).
    + apply andb_false_r.
Qed.

Lemma search_narrows_witness :
  JSString.Substring (JSString.toLowerCase "un") (JSString.toLowerCase "Lunch")
  /\ (forall exp, In exp (filteredExpenses scenarioA "Lunch") ->
                  In exp (filteredExpenses scenarioA "un"))
  /\ filteredExpenses (filteredExpenses scenarioA "un") "Lunch"
     = filteredExpenses scenarioA "Lunch".
Proof.
  assert (H : JSString.Substring (JSString.toLowerCase "un")
                                 (JSString.toLowerCase "Lunch")).
  { exists "l", "ch". reflexivity. }
  split; [exact H|]. exact (search_narrows scenarioA "un" "Lunch" H).
Defined.

(** ** When a render throws *)

Lemma ownCategories_true (l : list Expense) :
  ownCategories l = true
  <-> forall exp, In exp l ->
        JSObject.inherited (JSString.toLowerCase (category exp)) = false.
Proof.
  unfold ownCategories. rewrite forallb_forall. unfold categoryKey.
  split; intros H exp Hin; specialize (H exp Hin).
  - now apply negb_true_iff.
  - now apply negb_true_iff.
Qed.

Lemma ownCategories_false (l : list Expense) :
  ownCategories l = false
  <-> exists exp, In exp l
        /\ JSObject.inherited (JSString.toLowerCase (category exp)) = true.
Proof.
  unfold ownCategories, categoryKey. induction l as [|x l IH]; simpl.
  - split; [discriminate | intros [? [[] _]]].
  - rewrite andb_false_iff, IH, negb_false_iff. split.
    + intros [H|[exp [Hin H]]]; [exists x | exists exp]; auto.
    + intros [exp [[->|Hin] H]]; [left | right; exists exp]; auto.
Qed.

Lemma DashboardPage_spec (tz : Z) (cmp : string -> string -> Z)
  (expenses : list Expense) (searchTerm : string) :
  DashboardPage tz cmp expenses searchTerm
  = if ownCategories (filteredExpenses expenses searchTerm)
    then match sortedCategories cmp (filteredExpenses expenses searchTerm),
               sortedMonths tz (filteredExpenses expenses searchTerm) with
         | Normal cats, Normal months =>
             Normal {| viewTotalSpent := totalSpent expenses;
                       viewFiltered := filteredExpenses expenses searchTerm;
                       viewCategories := cats;
                       viewMonths := months;
                       chartLabels := monthLabels tz expenses;
                       chartData := monthValues tz expenses |}
         | _, _ => Throw TypeError
         end
    else Throw TypeError.
Proof.
  unfold DashboardPage. cbv zeta.
  rewrite sortedCategories_spec, sortedMonths_spec.
  destruct (ownCategories (filteredExpenses expenses searchTerm)); reflexivity.
Qed.

(** X3. A render throws exactly when a record that passes the search filter
    has a category whose lowercase spelling is a property name of
    [Object.prototype]; otherwise it returns a view of the filtered
    records. A record that the search term filters out does no harm. *)
Theorem DashboardPage_throws_iff (tz : Z) (cmp : string -> string -> Z)
  (expenses : list Expense) (searchTerm : string) :
  (DashboardPage tz cmp expenses searchTerm = Throw TypeError
   <-> exists exp, In exp expenses /\ matchesSearch searchTerm exp = true
         /\ JSObject.inherited (JSString.toLowerCase (category exp)) = true)
  /\ ((exists view, DashboardPage tz cmp expenses searchTerm = Normal view
                    /\ viewFiltered view = filteredExpenses expenses searchTerm)
      <-> forall exp, In exp expenses -> matchesSearch searchTerm exp = true ->
            JSObject.inherited (JSString.toLowerCase (category exp)) = false).
Proof.
  rewrite DashboardPage_spec, sortedCategories_spec, sortedMonths_spec.
  destruct (ownCategories (filteredExpenses expenses searchTerm)) eqn:Hown.
  - pose proof (proj1 (ownCategories_true _) Hown) as H.
    split; split.
    + discriminate.
    + intros [exp [Hin [Hm Hi]]].
      rewrite (H exp) in Hi; [discriminate|]. apply filter_In. now split.
    + intros _ exp Hin Hm. apply H. apply filter_In. now split.
    + intros _. eexists. split; reflexivity.
  - pose proof (proj1 (ownCategories_false _) Hown) as [exp [Hin Hi]].
    apply filter_In in Hin. destruct Hin as [Hin Hm].
    split; split.
    + intros _. now exists exp.
    + reflexivity.
    + intros [view [Hv _]]. discriminate.
    + intros H. rewrite (H exp Hin Hm) in Hi. discriminate.
Qed.

(** ** Records that arrive newest first *)

Section SortedInput.

Context {A : Type}.
Variable comparefn : A -> A -> Z.

Lemma sort_sorted_id (l : list A) :
  StronglySorted (inOrder comparefn) l -> JSArray.sort comparefn l = l.
Proof.
  induction 1 as [|x l Hs IH Hx]; [reflexivity|].
  unfold JSArray.sort in *. simpl. rewrite IH.
  destruct l as [|y l']; [reflexivity|]. simpl.
  inversion Hx as [|? ? Hxy _]; subst. unfold inOrder in Hxy.
  destruct (Z.ltb_spec 0 (comparefn x y)); [lia | reflexivity].
Qed.

End SortedInput.

Lemma StronglySorted_filter {A : Type} (R : A -> A -> Prop) (p : A -> bool)
  (l : list A) :
  StronglySorted R l -> StronglySorted R (filter p l).
Proof.
  induction 1 as [|x l Hs IH Hx]; simpl; [constructor|].
  destruct (p x); [|exact IH].
  constructor; [exact IH|].
  rewrite Forall_forall in *. intros y Hy. apply Hx.
  apply filter_In in Hy. tauto.
Qed.

(** X4. When the records come newest first, as [fetchExpenses] asks the
    table for them, sorting the items of a category changes nothing: every
    group holds the records of its category in the order of the input. *)
Theorem newest_first_input_keeps_order (cmp : string -> string -> Z)
  (l : list Expense) (gs : list Group) :
  Forall validDate l ->
  StronglySorted (fun a b => (calendarDay b <= calendarDay a)%Z) l ->
  sortedCategories cmp l = Normal gs ->
  forall g, In g gs ->
    items g = filter (inCategory (JSString.toLowerCase (display g))) l.
Proof.
  intros Hv Hs Hgs g Hg.
  apply (sortedCategories_In _ _ _ _ Hgs) in Hg. destruct Hg as [k [Hk ->]].
  rewrite (sortItems_key l k Hk). simpl.
  apply sort_sorted_id.
  apply StronglySorted_filter.
  apply (StronglySorted_weaken
           (fun a b => (calendarDay b <= calendarDay a)%Z) _ validDate);
    [exact Hv | | exact Hs].
  intros a b Ha Hb Hab. unfold inOrder. rewrite newestFirst_valid by assumption.
  apply (timeValue_calendarDay b a Hb Ha) in Hab. lia.
Qed.

Lemma newest_first_input_keeps_order_witness :
  exists gs,
    Forall validDate [lunch; bus; coffee]
    /\ StronglySorted (fun a b => (calendarDay b <= calendarDay a)%Z)
                      [lunch; bus; coffee]
    /\ sortedCategories codeUnitCompare [lunch; bus; coffee] = Normal gs
    /\ forall g, In g gs ->
         items g = filter (inCategory (JSString.toLowerCase (display g)))
                          [lunch; bus; coffee].
Proof.
  assert (Hv : Forall validDate [lunch; bus; coffee]).
  { repeat constructor; unfold validDate; vm_compute; discriminate. }
  assert (Hs : StronglySorted (fun a b => (calendarDay b <= calendarDay a)%Z)
                              [lunch; bus; coffee]).
  { repeat constructor; vm_compute; discriminate. }
  eexists. split; [exact Hv|]. split; [exact Hs|].
  split; [vm_compute; reflexivity|].
  apply (newest_first_input_keeps_order codeUnitCompare [lunch; bus; coffee]);
    [exact Hv | exact Hs | vm_compute; reflexivity].
Defined.

(** ** More about month buckets *)

Lemma formatMonthYear_month (y m y' m' : Z) :
  (1 <= m <= 12)%Z -> (1 <= m' <= 12)%Z ->
  JSDate.formatMonthYear y m = JSDate.formatMonthYear y' m' -> m = m'.
Proof.
  intros Hm Hm' H. unfold JSDate.formatMonthYear in H.
  apply (f_equal (JSDate.findMonth JSDate.monthNames 1)) in H.
  change (JSDate.monthName m ++ " " ++ ?r)%string
    with (JSDate.monthName m ++ String " " r)%string in H.
  change (JSDate.monthName m' ++ " " ++ ?r)%string
    with (JSDate.monthName m' ++ String " " r)%string in H.
  rewrite !findMonth_format in H by assumption. now injection H.
Qed.

(** X5. At or east of Greenwich a record is filed under the month and year
    of its date, whatever the day: two dates share a bucket exactly when
    they are of one month of one year. *)
Theorem calendar_month_buckets_east_of_utc (tz : Z) (a b : string)
  (y m d y' m' d' : Z) :
  (0 <= tz)%Z ->
  JSDate.parseISODate a = Some (y, m, d) ->
  JSDate.parseISODate b = Some (y', m', d') ->
  monthLabelOf tz a = JSDate.formatMonthYear y m
  /\ (monthLabelOf tz a = monthLabelOf tz b <-> (y = y' /\ m = m')).
Proof.
  intros Htz Ha Hb. split.
  - exact (monthLabelOf_east tz _ _ _ _ Htz Ha).
  - rewrite (monthLabelOf_east tz _ _ _ _ Htz Ha), (monthLabelOf_east tz _ _ _ _ Htz Hb).
    apply parseISODate_valid in Ha, Hb. split.
    + intros H. apply (f_equal JSDate.parseMonthYear) in H.
      rewrite !parseMonthYear_format in H by lia. now injection H.
    + now intros [-> ->].
Qed.

Lemma calendar_month_buckets_east_of_utc_witness :
  (0 <= 60)%Z
  /\ JSDate.parseISODate (date coffee) = Some (2024, 3, 1)%Z
  /\ JSDate.parseISODate (date bus) = Some (2024, 3, 15)%Z
  /\ monthLabelOf 60 (date coffee) = JSDate.formatMonthYear 2024 3
  /\ (monthLabelOf 60 (date coffee) = monthLabelOf 60 (date bus)
      <-> (2024 = 2024 /\ 3 = 3)%Z).
Proof.
  split; [lia|]. split; [reflexivity|]. split; [reflexivity|].
  apply (calendar_month_buckets_east_of_utc 60 (date coffee) (date bus)
           2024 3 1 2024 3 15); [lia | reflexivity | reflexivity].
Defined.

(** X6. West of Greenwich a record is filed under the month of its date
    exactly when its date is not the first day of a month; a first day is
    filed under the month before, the first of January under December of
    the year before. *)
Theorem first_days_misfiled_west_of_utc (tz : Z) (s : string) (y m d : Z) :
  (tz < 0)%Z ->
  JSDate.parseISODate s = Some (y, m, d) ->
  (monthLabelOf tz s = JSDate.formatMonthYear y m <-> d <> 1%Z)
  /\ (d = 1%Z ->
      monthLabelOf tz s
      = if (1 <? m)%Z then JSDate.formatMonthYear y (m - 1)
        else JSDate.formatMonthYear (y - 1) 12).
Proof.
  intros Htz Hs.
  pose proof (parseISODate_valid _ _ _ _ Hs) as [Hy [Hm Hd]].
  unfold monthLabelOf, JSDate.toLocaleMonthYear, JSDate.localDate.
  rewrite Hs. apply Z.ltb_lt in Htz. rewrite Htz. unfold JSDate.previousDay.
  destruct (Z.ltb_spec 1 d) as [Hd1|Hd1].
  - split; [split; [lia | reflexivity] | lia].
  - assert (d = 1%Z) as -> by lia.
    destruct (Z.ltb_spec 1 m) as [Hm1|Hm1].
    + split; [|reflexivity]. split; [|lia].
      intros H. apply formatMonthYear_month in H; lia.
    + split; [|reflexivity]. split; [|lia].
      intros H. apply formatMonthYear_month in H; lia.
Qed.

Lemma first_days_misfiled_west_of_utc_witness :
  (-300 < 0)%Z
  /\ JSDate.parseISODate "2024-01-01" = Some (2024, 1, 1)%Z
  /\ (monthLabelOf (-300) "2024-01-01" = JSDate.formatMonthYear 2024 1
      <-> 1%Z <> 1%Z)
  /\ (1%Z = 1%Z ->
      monthLabelOf (-300) "2024-01-01"
      = if (1 <? 1)%Z then JSDate.formatMonthYear 2024 (1 - 1)
        else JSDate.formatMonthYear (2024 - 1) 12).
Proof.
  split; [lia|]. split; [reflexivity|].
  apply (first_days_misfiled_west_of_utc (-300) "2024-01-01" 2024 1 1);
    [lia | reflexivity].
Defined.

(** The number of the month a record is filed under: that of its date, less
    one for a first day west of Greenwich. *)
Lemma monthLabelOf_number (tz : Z) (exp : Expense) (y m d : Z) :
  JSDate.parseISODate (date exp) = Some (y, m, d) -> (101 <= y)%Z ->
  exists y' m',
    (100 <= y')%Z /\ (1 <= m' <= 12)%Z
    /\ monthLabelOf tz (date exp) = JSDate.formatMonthYear y' m'
    /\ (12 * y' + m'
        = 12 * y + m - (if ((tz <? 0) && (d =? 1))%Z then 1 else 0))%Z.
Proof.
  intros Hp Hy.
  pose proof (parseISODate_valid _ _ _ _ Hp) as [_ [Hm Hd]].
  unfold monthLabelOf, JSDate.toLocaleMonthYear, JSDate.localDate.
  rewrite Hp. destruct (tz <? 0)%Z; cbn [andb].
  - unfold JSDate.previousDay.
    destruct (Z.ltb_spec 1 d) as [Hd1|Hd1].
    + exists y, m. destruct (Z.eqb_spec d 1); [lia|].
      repeat split; try reflexivity; lia.
    + destruct (Z.eqb_spec d 1); [|lia].
      destruct (Z.ltb_spec 1 m) as [Hm1|Hm1].
      * exists y, (m - 1)%Z. repeat split; try reflexivity; lia.
      * exists (y - 1)%Z, 12%Z. repeat split; try reflexivity; lia.
  - exists y, m. repeat split; try reflexivity; lia.
Qed.

Lemma newestMonthFirst_inOrder (tz : Z) (y m y' m' : Z) :
  (100 <= y)%Z -> (1 <= m <= 12)%Z -> (100 <= y')%Z -> (1 <= m' <= 12)%Z ->
  inOrder (newestMonthFirst tz)
          (JSDate.formatMonthYear y m) (JSDate.formatMonthYear y' m')
  <-> (12 * y' + m' <= 12 * y + m)%Z.
Proof.
  intros Hy Hm Hy' Hm'. unfold inOrder, newestMonthFirst.
  rewrite !getTimeOfLabel_format by lia. simpl.
  rewrite <- (MakeDay_month_le y' m' y m) by assumption.
  unfold JSDate.msPerDay. lia.
Qed.

Lemma StronglySorted_strict {A : Type} (f : A -> Z) (l : list A) :
  StronglySorted (fun a b => (f b <= f a)%Z) l -> NoDup (map f l) ->
  StronglySorted (fun a b => (f b < f a)%Z) l.
Proof.
  induction 1 as [|a l Hs IH Ha]; simpl; intros Hn; [constructor|].
  inversion Hn as [|? ? Hnotin Hn']; subst.
  constructor; [now apply IH|].
  rewrite Forall_forall in *. intros b Hb.
  specialize (Ha b Hb).
  assert (f b <> f a).
  { intros E. apply Hnotin. rewrite <- E. now apply in_map. }
  lia.
Qed.

Lemma sortedMonths_labels (tz : Z) (l : list Expense) (ms : list Month) :
  sortedMonths tz l = Normal ms ->
  map label ms
  = JSArray.sort (newestMonthFirst tz)
      (firstSeen (map (fun exp => monthLabelOf tz (date exp)) l)).
Proof.
  rewrite sortedMonths_spec. destruct (ownCategories l); [|discriminate].
  intros H. injection H as <-. rewrite map_map. simpl. apply map_id.
Qed.

Lemma sortedMonths_labels_NoDup (tz : Z) (l : list Expense) (ms : list Month) :
  sortedMonths tz l = Normal ms -> NoDup (map label ms).
Proof.
  intros H. rewrite (sortedMonths_labels _ _ _ H).
  apply (Permutation_NoDup (Permutation_sym (sort_perm _ _))).
  apply firstSeen_NoDup.
Qed.

(** X7. For dates from the year 101 on, in every time zone, the month
    groups come strictly newest first: each group is of a later month than
    every group after it, so no month is shown twice. *)
Theorem sortedMonths_strictly_newest_first (tz : Z) (l : list Expense)
  (ms : list Month) :
  Forall threeDigitYear l ->
  sortedMonths tz l = Normal ms ->
  StronglySorted
    (fun a b => (monthNumber (label b) < monthNumber (label a))%Z) ms.
Proof.
  intros Hv Hms.
  apply (StronglySorted_strict (fun m => monthNumber (label m))).
  - exact (sortedMonths_newest_first tz l ms Hv Hms).
  - rewrite <- (map_map label monthNumber).
    apply NoDup_map_NoDup_ForallPairs;
      [|exact (sortedMonths_labels_NoDup _ _ _ Hms)].
    intros a b Ha Hb E.
    rewrite (sortedMonths_labels _ _ _ Hms) in Ha, Hb.
    apply (proj1 (sort_In _ _ _)), (proj1 (firstSeen_In _ _)), in_map_iff in Ha, Hb.
    destruct Ha as [ea [<- Hea]], Hb as [eb [<- Heb]].
    rewrite Forall_forall in Hv.
    destruct (monthLabelOf_format tz ea (Hv ea Hea)) as [y [m [Hy [Hm Ea]]]].
    destruct (monthLabelOf_format tz eb (Hv eb Heb)) as [y' [m' [Hy' [Hm' Eb]]]].
    rewrite Ea, Eb in *. rewrite !monthNumber_format in E by lia.
    assert (y = y' /\ m = m') as [-> ->] by lia. reflexivity.
Qed.

Lemma sortedMonths_strictly_newest_first_witness :
  exists ms,
    Forall threeDigitYear scenarioA
    /\ sortedMonths (-300) scenarioA = Normal ms
    /\ StronglySorted
         (fun a b => (monthNumber (label b) < monthNumber (label a))%Z) ms.
Proof.
  assert (Hv : Forall threeDigitYear scenarioA).
  { unfold scenarioA.
    repeat (apply Forall_cons;
            [unfold threeDigitYear; eexists _, _, _;
             split; [vm_compute; reflexivity | lia]|]).
    apply Forall_nil. }
  eexists. split; [exact Hv|]. split; [vm_compute; reflexivity|].
  apply (sortedMonths_strictly_newest_first (-300) scenarioA);
    [exact Hv | vm_compute; reflexivity].
Defined.

(** ** The chart and the month cards *)

Lemma firstSeen_length (ks : list string) :
  (List.length (firstSeen ks) <= List.length ks)%nat.
Proof.
  induction ks as [|k ks IH]; simpl; [lia|].
  pose proof (filter_length_le (fun k' => negb (String.eqb k' k)) (firstSeen ks)).
  lia.
Qed.

Lemma firstSeen_sorted (R : string -> string -> Prop) (ks : list string) :
  StronglySorted R ks -> StronglySorted R (firstSeen ks).
Proof.
  induction 1 as [|k ks Hs IH Hk]; simpl; constructor.
  - now apply StronglySorted_filter.
  - rewrite Forall_forall in *. intros k' Hin.
    apply filter_In in Hin. destruct Hin as [Hin _].
    apply Hk. now apply firstSeen_In.
Qed.

(** X8. The two arrays handed to the chart have one length, no month is
    labelled twice, there are at most as many bars as records, and the
    chart is empty exactly when there is no record. *)
Theorem chart_series_shape (tz : Z) (expenses : list Expense) :
  List.length (monthLabels tz expenses) = List.length (monthValues tz expenses)
  /\ NoDup (monthLabels tz expenses)
  /\ (List.length (monthLabels tz expenses) <= List.length expenses)%nat
  /\ (monthLabels tz expenses = [] <-> expenses = []).
Proof.
  destruct (monthlyTotals_spec tz expenses) as [HL HV].
  rewrite HV, length_map. split; [reflexivity|].
  rewrite HL. split; [apply firstSeen_NoDup|]. split.
  - rewrite <- (length_map (fun exp => monthLabelOf tz (date exp)) expenses).
    apply firstSeen_length.
  - destruct expenses as [|x l]; simpl; split; congruence.
Qed.

Lemma filteredExpenses_empty (expenses : list Expense) :
  filteredExpenses expenses EmptyString = expenses.
Proof. unfold filteredExpenses. now apply filter_all. Qed.

(** Records in descending order of date have their month labels in the
    order that [sortedMonths] sorts them into. *)
Lemma newest_first_labels_sorted (tz : Z) (l : list Expense) :
  Forall threeDigitYear l ->
  StronglySorted (fun a b => (calendarDay b <= calendarDay a)%Z) l ->
  StronglySorted (inOrder (newestMonthFirst tz))
                 (map (fun exp => monthLabelOf tz (date exp)) l).
Proof.
  intros Hv Hs. apply StronglySorted_map.
  apply (StronglySorted_weaken
           (fun a b => (calendarDay b <= calendarDay a)%Z) _ threeDigitYear);
    [exact Hv | | exact Hs].
  intros a b [y [m [d [Pa Hy]]]] [y' [m' [d' [Pb Hy']]]] Hab.
  unfold calendarDay in Hab. rewrite Pa, Pb in Hab.
  destruct (monthLabelOf_number tz a y m d Pa Hy) as [ya [ma [Hya [Hma [-> Na]]]]].
  destruct (monthLabelOf_number tz b y' m' d' Pb Hy') as [yb [mb [Hyb [Hmb [-> Nb]]]]].
  apply newestMonthFirst_inOrder; try assumption.
  apply parseISODate_valid in Pa, Pb.
  pose proof (DaysInMonth_bounds y m). pose proof (DaysInMonth_bounds y' m').
  destruct (tz <? 0)%Z; cbn [andb] in Na, Nb; [|lia].
  destruct (Z.eqb_spec d 1), (Z.eqb_spec d' 1); lia.
Qed.

(** X9. Every month card has a bar in the chart. With an empty search term
    the chart and the cards show the same months; the chart lists them in
    first-seen order and the cards newest first, and for records that come
    newest first, as [fetchExpenses] asks for them, the two orders are the
    same. *)
Theorem chart_months_and_month_cards (tz : Z) (expenses : list Expense)
  (searchTerm : string) (ms : list Month) :
  sortedMonths tz (filteredExpenses expenses searchTerm) = Normal ms ->
  (forall m, In m ms -> In (label m) (monthLabels tz expenses))
  /\ (searchTerm = EmptyString ->
      Permutation (monthLabels tz expenses) (map label ms)
      /\ (Forall threeDigitYear expenses ->
          StronglySorted (fun a b => (calendarDay b <= calendarDay a)%Z) expenses ->
          monthLabels tz expenses = map label ms)).
Proof.
  intros Hms. destruct (monthlyTotals_spec tz expenses) as [HL _].
  rewrite HL. split.
  - intros m Hm. destruct (sortedMonths_In _ _ _ _ Hms Hm) as [_ Hin].
    apply firstSeen_In. apply in_map_iff in Hin. destruct Hin as [exp [E Hin]].
    apply in_map_iff. exists exp. split; [exact E|].
    unfold filteredExpenses in Hin. apply filter_In in Hin. tauto.
  - intros ->. rewrite filteredExpenses_empty in Hms.
    rewrite (sortedMonths_labels _ _ _ Hms). split.
    + apply Permutation_sym, sort_perm.
    + intros Hv Hs. symmetry. apply sort_sorted_id.
      apply firstSeen_sorted. now apply newest_first_labels_sorted.
Qed.

Lemma chart_months_and_month_cards_witness :
  exists ms,
    sortedMonths 0 (filteredExpenses [lunch; bus; coffee] EmptyString) = Normal ms
    /\ (forall m, In m ms -> In (label m) (monthLabels 0 [lunch; bus; coffee]))
    /\ (EmptyString = EmptyString ->
        Permutation (monthLabels 0 [lunch; bus; coffee]) (map label ms)
        /\ (Forall threeDigitYear [lunch; bus; coffee] ->
            StronglySorted (fun a b => (calendarDay b <= calendarDay a)%Z) [lunch; bus; coffee] ->
            monthLabels 0 [lunch; bus; coffee] = map label ms)).
Proof.
  eexists. split; [vm_compute; reflexivity|].
  apply (chart_months_and_month_cards 0 [lunch; bus; coffee] EmptyString).
  vm_compute; reflexivity.
Defined.

(** ** When the groupings return *)

Lemma cells_In (l : list Expense) (exp : Expense) :
  In exp (List.concat (JSObject.values (cellsOf l))) <-> In exp l.
Proof.
  split; intros H.
  - exact (Permutation_in _ (cellsOf_perm l) H).
  - exact (Permutation_in _ (Permutation_sym (cellsOf_perm l)) H).
Qed.

(** X25. Whenever the groupings return, every record they are given is in
    exactly one category group, and in one cell of exactly one month: the
    items of the groups, and the cells of the months, are a rearrangement
    of the records, and no record is in two groups or in two months. *)
Theorem every_record_filed_once (tz : Z) (cmp : string -> string -> Z)
  (l : list Expense) (gs : list Group) (ms : list Month) :
  sortedCategories cmp l = Normal gs ->
  sortedMonths tz l = Normal ms ->
  let cells := fun m : Month => List.concat (JSObject.values (categories m)) in
  (Permutation (List.concat (map items gs)) l
   /\ forall g1 g2 exp, In g1 gs -> In g2 gs ->
        In exp (items g1) -> In exp (items g2) -> g1 = g2)
  /\ (Permutation (List.concat (map cells ms)) l
      /\ forall m1 m2 exp, In m1 ms -> In m2 ms ->
           In exp (cells m1) -> In exp (cells m2) -> m1 = m2).
Proof.
  intros Hgs Hms. cbv zeta. split; split.
  - exact (categories_partition cmp l gs Hgs).
  - intros g1 g2 exp H1 H2 E1 E2.
    apply (sortedCategories_In _ _ _ _ Hgs) in H1, H2.
    destruct H1 as [k1 [_ ->]], H2 as [k2 [_ ->]].
    apply items_sortItems_In in E1, E2. destruct E1 as [_ <-], E2 as [_ <-].
    reflexivity.
  - exact (months_partition tz l ms Hms).
  - intros m1 m2 exp H1 H2 E1 E2.
    destruct (sortedMonths_In _ _ _ _ Hms H1) as [C1 _].
    destruct (sortedMonths_In _ _ _ _ Hms H2) as [C2 _].
    rewrite C1 in E1. rewrite C2 in E2.
    apply (proj1 (cells_In _ _)) in E1. apply (proj1 (cells_In _ _)) in E2.
    unfold monthRecords in E1, E2.
    apply filter_In in E1, E2. destruct E1 as [_ E1], E2 as [_ E2].
    unfold inMonth in E1, E2. apply String.eqb_eq in E1, E2.
    assert (EL : label m1 = label m2) by congruence.
    destruct m1 as [L1 c1], m2 as [L2 c2]. cbn [label categories] in *.
    subst L2. congruence.
Qed.

Lemma every_record_filed_once_witness :
  exists gs ms,
    sortedCategories codeUnitCompare scenarioA = Normal gs
    /\ sortedMonths 0 scenarioA = Normal ms
    /\ Permutation (List.concat (map items gs)) scenarioA
    /\ Permutation
         (List.concat
            (map (fun m => List.concat (JSObject.values (categories m))) ms))
         scenarioA.
Proof.
  eexists _, _. split; [vm_compute; reflexivity|].
  split; [vm_compute; reflexivity|].
  destruct (every_record_filed_once 0 codeUnitCompare scenarioA _ _
              eq_refl eq_refl) as [[H1 _] [H2 _]].
  split; [exact H1 | exact H2].
Defined.

(** ** What the handlers do *)

Lemma run_andThen {Backend : Type}
  (respond : forall R : Type, Request R -> Backend -> R * Backend)
  (t k : Task) (w : World Backend) :
  run respond (andThen t k) w = run respond k (run respond t w).
Proof.
  revert w. induction t as [|a next IH|R q next IH]; intros w; simpl.
  - reflexivity.
  - apply IH.
  - apply IH.
Qed.

Section Handlers.

Variable Backend : Type.
Variable respond : forall R : Type, Request R -> Backend -> R * Backend.

(** X10. [fetchExpenses] for a signed-in user sends one query, for the rows
    of that user, and always ends with the loading flag down. When the
    query fails the message is kept and the rows on the page stay; when it
    succeeds the rows are replaced (by none for [null] data) and the error
    is cleared. Without a user it alerts and touches nothing. *)
Theorem fetchExpenses_settles (u : Supabase.User) (w : World Backend) :
  let reply := fst (respond _ (selectExpenses (Supabase.id u)) (server w)) in
  let w' := run respond (fetchExpenses (Some u)) w in
  loadingExpenses (page w') = false
  /\ events w' = events w ++ [Requested (selectExpenses (Supabase.id u))]
  /\ (forall e, Supabase.error reply = Some e ->
        expensesError (page w') = Some (Supabase.message e)
        /\ expenses (page w') = expenses (page w))
  /\ (Supabase.error reply = None ->
        expensesError (page w') = None
        /\ expenses (page w')
           = match Supabase.data reply with Some rows => rows | None => [] end)
  /\ (user (page w') = user (page w)
      /\ editingExpenseId (page w') = editingExpenseId (page w)
      /\ openMonth (page w') = openMonth (page w)
      /\ searchTerm (page w') = searchTerm (page w))
  /\ run respond (fetchExpenses None) w
     = {| page := page w; server := server w;
          events := events w ++ [Alerted "No user logged in"] |}.
Proof.
  cbv zeta. simpl.
  destruct (respond _ (selectExpenses (Supabase.id u)) (server w)) as [[d e] b].
  simpl. rewrite !app_nil_r.
  destruct e as [e|]; simpl; rewrite ?app_nil_r;
    repeat split; try reflexivity; congruence.
Qed.

Lemma run_fetchExpenses (u : Supabase.User) (w : World Backend) :
  run respond (fetchExpenses (Some u)) w
  = let r := respond _ (selectExpenses (Supabase.id u)) (server w) in
    {| page :=
         {| user := user (page w);
            expenses :=
              match Supabase.error (fst r) with
              | Some _ => expenses (page w)
              | None => match Supabase.data (fst r) with
                        | Some rows => rows
                        | None => []
                        end
              end;
            loadingExpenses := false;
            expensesError := option_map Supabase.message (Supabase.error (fst r));
            editingExpenseId := editingExpenseId (page w);
            openMonth := openMonth (page w);
            searchTerm := searchTerm (page w) |};
       server := snd r;
       events := events w ++ [Requested (selectExpenses (Supabase.id u))] |}.
Proof.
  cbv zeta. simpl.
  destruct (respond _ (selectExpenses (Supabase.id u)) (server w)) as [[d e] b].
  simpl. rewrite !app_nil_r. destruct e; simpl; now rewrite app_nil_r.
Qed.

(** X11. The effect that runs on mount asks who is signed in. With no user
    it navigates to the login page and neither changes the state nor asks
    for any rows; with a user it stores the user and loads the rows of that
    user. *)
Theorem checkUser_outcomes (w : World Backend) :
  let reply := fst (respond _ authGetUser (server w)) in
  let w' := run respond checkUser w in
  (reply = None ->
     page w' = page w
     /\ events w' = events w ++ [Requested authGetUser; Navigated "/login"])
  /\ (forall u, reply = Some u ->
        user (page w') = Some u
        /\ loadingExpenses (page w') = false
        /\ events w'
           = events w ++ [Requested authGetUser;
                          Requested (selectExpenses (Supabase.id u))]).
Proof.
  cbv zeta. unfold checkUser. cbn [run].
  destruct (respond _ authGetUser (server w)) as [[u|] b]; cbn [fst snd].
  - split; [discriminate|]. intros u' H. injection H as <-.
    cbn [run]. rewrite run_fetchExpenses. cbv zeta. cbn.
    rewrite app_nil_r, <- app_assoc. repeat split.
  - split; [|discriminate]. intros _. cbn.
    rewrite <- app_assoc. destruct w as [[] ? ?]. split; reflexivity.
Qed.

(** X12. Deleting a record: when the request fails the page alerts the
    message and neither changes its state nor reloads the rows; when it
    succeeds the rows of the signed-in user are loaded again. *)
Theorem handleDeleteExpense_outcomes (i : string) (w : World Backend) :
  let reply := fst (respond _ (deleteExpense i) (server w)) in
  let w' := run respond (handleDeleteExpense (page w) i) w in
  (forall e, Supabase.error reply = Some e ->
     page w' = page w
     /\ events w'
        = events w ++ [Requested (deleteExpense i);
                       Alerted ("Error deleting expense: " ++ Supabase.message e)])
  /\ (Supabase.error reply = None ->
      forall u, user (page w) = Some u ->
        w' = run respond (fetchExpenses (Some u))
               {| page := page w;
                  server := snd (respond _ (deleteExpense i) (server w));
                  events := events w ++ [Requested (deleteExpense i)] |}
        /\ loadingExpenses (page w') = false
        /\ events w'
           = events w ++ [Requested (deleteExpense i);
                          Requested (selectExpenses (Supabase.id u))]).
Proof.
  cbv zeta. unfold handleDeleteExpense. cbn [run].
  destruct (respond _ (deleteExpense i) (server w)) as [[d [e|]] b]; cbn [fst snd Supabase.error].
  - split; [|discriminate]. intros e' H. injection H as <-. cbn.
    rewrite <- app_assoc. destruct w as [[] ? ?]. split; reflexivity.
  - split; [discriminate|]. intros _ u Hu. rewrite Hu.
    split; [reflexivity|]. rewrite run_fetchExpenses. cbv zeta. cbn.
    rewrite <- app_assoc. split; reflexivity.
Qed.

Lemma run_refresh (u : Supabase.User) (w : World Backend) :
  run respond (andThen (fetchExpenses (Some u)) (perform (reset None) done)) w
  = let w1 := run respond (fetchExpenses (Some u)) w in
    {| page := page w1; server := server w1;
       events := events w ++ [Requested (selectExpenses (Supabase.id u));
                              FormReset None] |}.
Proof.
  rewrite run_andThen, run_fetchExpenses. cbv zeta. cbn.
  now rewrite <- app_assoc.
Qed.

(** X13. Submitting the form. Without a user it alerts and sends nothing.
    While a record is being edited it sends one update, of that record,
    with the submitted values; otherwise it sends one call of
    [add_expense]. When the write fails, the page alerts
    [Error updating expense: ...] in both cases and changes nothing: the
    rows are not loaded again, the form is not reset and an edit stays
    open. When it succeeds, the edit is closed, the rows of the user are
    loaded again and the form is reset last. *)
Theorem onSubmit_outcomes (data : ExpenseFormValues.t) (w : World Backend) :
  let st := page w in
  let w' := run respond (onSubmit st data) w in
  let add := rpcAddExpense (ExpenseFormValues.title data)
               (ExpenseFormValues.amount data) (ExpenseFormValues.category data)
               (ExpenseFormValues.date data) (ExpenseFormValues.notes data) in
  (user st = None ->
     w' = {| page := st; server := server w;
             events := events w ++ [Alerted "No user logged in"] |})
  /\ (forall u i, user st = Some u -> editingExpenseId st = Some i ->
        i <> EmptyString ->
        let reply := fst (respond _ (updateExpense data i) (server w)) in
        (forall e, Supabase.error reply = Some e ->
           page w' = st
           /\ events w'
              = events w ++ [Requested (updateExpense data i);
                             Alerted ("Error updating expense: "
                                      ++ Supabase.message e)])
        /\ (Supabase.error reply = None ->
            editingExpenseId (page w') = None
            /\ loadingExpenses (page w') = false
            /\ events w'
               = events w ++ [Requested (updateExpense data i);
                              Alerted "Expense updated!";
                              Requested (selectExpenses (Supabase.id u));
                              FormReset None]))
  /\ (forall u, user st = Some u -> ToBoolean (editingExpenseId st) = false ->
        let reply := fst (respond _ add (server w)) in
        (forall e, Supabase.error reply = Some e ->
           page w' = st
           /\ events w'
              = events w ++ [Requested add;
                             Alerted ("Error updating expense: "
                                      ++ Supabase.message e)])
        /\ (Supabase.error reply = None ->
            editingExpenseId (page w') = editingExpenseId st
            /\ loadingExpenses (page w') = false
            /\ events w'
               = events w ++ [Requested add;
                              Requested (selectExpenses (Supabase.id u));
                              FormReset None])).
Proof.
  cbv zeta. unfold onSubmit. split; [|split].
  - intros ->. cbn. destruct w as [[] ? ?]. reflexivity.
  - intros u i -> -> Hi. cbv zeta. cbn [ToBoolean].
    destruct (String.eqb_spec i ""); [contradiction|]. cbn [negb run].
    destruct (respond _ (updateExpense data i) (server w)) as [[d [e|]] b];
      cbn [fst snd Supabase.error].
    + split; [|discriminate]. intros e' H. injection H as <-. cbn.
      rewrite <- app_assoc. destruct w as [[] ? ?]. split; reflexivity.
    + split; [discriminate|]. intros _. cbn [run act fst snd page server events].
      rewrite run_refresh. cbv zeta. rewrite run_fetchExpenses. cbv zeta. cbn.
      rewrite !app_nil_r, <- !app_assoc. repeat split.
  - intros u -> Hed. cbv zeta.
    assert (Hmode :
      forall add : Task,
        match editingExpenseId (page w) with
        | Some editing =>
            if ToBoolean (Some editing)
            then await (updateExpense data editing) (fun r =>
                   match Supabase.error r with
                   | Some e =>
                       perform (alert ("Error updating expense: "
                                       ++ Supabase.message e)) done
                   | None =>
                       perform (alert "Expense updated!")
                         (perform (setEditingExpenseId None)
                            (andThen (fetchExpenses (Some u))
                                     (perform (reset None) done)))
                   end)
            else add
        | None => add
        end = add).
    { intros add. destruct (editingExpenseId (page w)) as [i|]; [|reflexivity].
      now rewrite Hed. }
    rewrite Hmode. cbn [run].
    destruct (respond _ (rpcAddExpense _ _ _ _ _) (server w)) as [[d [e|]] b];
      cbn [fst snd Supabase.error].
    + split; [|discriminate]. intros e' H. injection H as <-. cbn.
      rewrite <- app_assoc. destruct w as [[] ? ?]. split; reflexivity.
    + split; [discriminate|]. intros _.
      rewrite run_refresh. cbv zeta. rewrite run_fetchExpenses. cbv zeta. cbn.
      rewrite <- !app_assoc. repeat split.
Qed.

(** ** Sessions *)

Lemma run_fetchExpenses_page (current : option Supabase.User) (w : World Backend) :
  let w' := run respond (fetchExpenses current) w in
  user (page w') = user (page w)
  /\ editingExpenseId (page w') = editingExpenseId (page w)
  /\ openMonth (page w') = openMonth (page w)
  /\ searchTerm (page w') = searchTerm (page w)
  /\ (loadingExpenses (page w) = false -> loadingExpenses (page w') = false)
  /\ (current = None -> expenses (page w') = expenses (page w)).
Proof.
  cbv zeta. destruct current as [u|].
  - rewrite run_fetchExpenses. cbv zeta. cbn. repeat split. discriminate.
  - cbn. repeat split; auto.
Qed.

Lemma handler_keeps (i : Interaction) (w : World Backend) :
  let w' := run respond (handler (page w) i) w in
  (loadingExpenses (page w) = false -> loadingExpenses (page w') = false)
  /\ ((user (page w) = None -> expenses (page w) = []) ->
      user (page w') = None -> expenses (page w') = [])
  /\ (user (page w) <> None -> user (page w') <> None).
Proof.
  cbv zeta.
  destruct i as [| |data| |value|monthLabel|i|exp]; unfold handler.
  - (* Mount *)
    unfold checkUser. cbn [run].
    destruct (respond _ authGetUser (server w)) as [[u|] b]; cbn [fst snd run].
    + rewrite run_fetchExpenses. cbv zeta. cbn.
      repeat split; auto; discriminate.
    + cbn. repeat split; auto.
  - (* ClickLogout *)
    cbn. repeat split; auto.
  - (* Submit *)
    unfold onSubmit. destruct (user (page w)) as [u|] eqn:Hu.
    + cbv zeta.
      assert (Hrefresh : forall w0 : World Backend,
                user (page w0) = Some u ->
                let w1 := run respond
                            (andThen (fetchExpenses (Some u))
                                     (perform (reset None) done)) w0 in
                loadingExpenses (page w1) = false /\ user (page w1) = Some u).
      { intros w0 H0. rewrite run_refresh. cbv zeta.
        rewrite run_fetchExpenses. cbv zeta. cbn. now split. }
      assert (Hadd :
        let w1 := run respond
          (await (rpcAddExpense (ExpenseFormValues.title data)
                    (Number (ExpenseFormValues.amount data))
                    (ExpenseFormValues.category data)
                    (ExpenseFormValues.date data)
                    (ExpenseFormValues.notes data)) (fun r =>
             match Supabase.error r with
             | Some e =>
                 perform (alert ("Error updating expense: "
                                 ++ Supabase.message e)) done
             | None => andThen (fetchExpenses (Some u)) (perform (reset None) done)
             end)) w in
        (loadingExpenses (page w) = false -> loadingExpenses (page w1) = false)
        /\ user (page w1) = Some u).
      { cbn [run].
        destruct (respond _ (rpcAddExpense _ _ _ _ _) (server w)) as [[d [e|]] b];
          cbn [fst snd Supabase.error].
        - cbn. now split.
        - destruct (Hrefresh {| page := page w; server := b;
                               events := events w ++ [Requested
                                 (rpcAddExpense (ExpenseFormValues.title data)
                                    (Number (ExpenseFormValues.amount data))
                                    (ExpenseFormValues.category data)
                                    (ExpenseFormValues.date data)
                                    (ExpenseFormValues.notes data))] |} Hu)
            as [H1 H2].
          split; [intros _; exact H1 | exact H2]. }
      cbv zeta in Hadd.
      destruct (editingExpenseId (page w)) as [editing|].
      * destruct (ToBoolean (Some editing)).
        -- cbn [run].
           destruct (respond _ (updateExpense data editing) (server w))
             as [[d [e|]] b];
             cbn [fst snd Supabase.error].
           ++ cbn. rewrite Hu. repeat split; auto; discriminate.
           ++ cbn [run act fst snd page server events].
              match goal with
              | |- context [run respond _ ?w0] =>
                  destruct (Hrefresh w0 Hu) as [H1 H2]
              end.
              rewrite H1, H2. repeat split; auto; discriminate.
        -- destruct Hadd as [H1 H2]. rewrite H2.
           repeat split; auto; discriminate.
      * destruct Hadd as [H1 H2]. rewrite H2.
        repeat split; auto; discriminate.
    + cbn. rewrite Hu. repeat split; auto.
  - (* ClickCancelEdit *)
    cbn. repeat split; auto.
  - (* TypeSearch *)
    cbn. repeat split; auto.
  - (* ClickMonth *)
    cbn. repeat split; auto.
  - (* ClickDelete *)
    unfold handleDeleteExpense. cbn [run].
    destruct (respond _ (deleteExpense i) (server w)) as [[d [e|]] b];
      cbn [fst snd Supabase.error].
    + cbn. repeat split; auto.
    + match goal with
      | |- context [run respond (fetchExpenses ?c) ?w0] =>
          destruct (run_fetchExpenses_page c w0) as [H1 [_ [_ [_ [H2 H3]]]]]
      end.
      cbn [page] in H1, H2, H3. rewrite H1. repeat split; auto.
      intros Hinv Hnone. rewrite (H3 Hnone). auto.
  - (* ClickEdit *)
    cbn. repeat split; auto.
Qed.

Lemma session_keeps (interactions : list Interaction) (w : World Backend) :
  let w' := session respond interactions w in
  (loadingExpenses (page w) = false -> loadingExpenses (page w') = false)
  /\ ((user (page w) = None -> expenses (page w) = []) ->
      user (page w') = None -> expenses (page w') = [])
  /\ (user (page w) <> None -> user (page w') <> None).
Proof.
  cbv zeta. revert w. unfold session.
  induction interactions as [|i l IH]; intros w; simpl; [auto|].
  destruct (handler_keeps i w) as [H1 [H2 H3]].
  destruct (IH (run respond (handler (page w) i) w)) as [I1 [I2 I3]].
  repeat split; auto.
Qed.

(** X14. After any interactions with a page that starts from its first
    render, against any backend, once the requests have been answered: the
    loading flag is down, and the page holds rows only if a user is signed
    in. A user, once stored, is never removed from the state, not even by
    logging out. *)
Theorem session_invariants (interactions : list Interaction) (b : Backend) :
  let start := {| page := initialState; server := b; events := [] |} in
  loadingExpenses (page (session respond interactions start)) = false
  /\ (user (page (session respond interactions start)) = None ->
      expenses (page (session respond interactions start)) = [])
  /\ forall more,
       user (page (session respond interactions start)) <> None ->
       user (page (session respond (interactions ++ more) start)) <> None.
Proof.
  cbv zeta.
  destruct (session_keeps interactions
              {| page := initialState; server := b; events := [] |})
    as [H1 [H2 _]].
  split; [now apply H1|]. split; [now apply H2|].
  intros more. unfold session at 2. rewrite fold_left_app.
  fold (session respond interactions
          {| page := initialState; server := b; events := [] |}).
  fold (session respond more
          (session respond interactions
             {| page := initialState; server := b; events := [] |})).
  apply session_keeps.
Qed.

(** ** Editing a record *)

Lemma run_events (t : Task) (w : World Backend) :
  exists rest, events (run respond t w) = events w ++ rest.
Proof.
  revert w. induction t as [|a next IH|R q next IH]; intros w; cbn [run].
  - exists []. now rewrite app_nil_r.
  - destruct (IH {| page := fst (act a (page w)); server := server w;
                    events := events w ++ snd (act a (page w)) |}) as [rest ->].
    cbn [events]. eexists. now rewrite <- app_assoc.
  - destruct (IH (fst (respond _ q (server w)))
                 {| page := page w; server := snd (respond _ q (server w));
                    events := events w ++ [Requested q] |}) as [rest ->].
    cbn [events]. eexists. now rewrite <- app_assoc.
Qed.

Lemma onSubmit_first_request (data : ExpenseFormValues.t) (w : World Backend)
  (u : Supabase.User) :
  user (page w) = Some u ->
  exists rest,
    events (run respond (onSubmit (page w) data) w)
    = events w
      ++ (if ToBoolean (editingExpenseId (page w))
          then match editingExpenseId (page w) with
               | Some i => Requested (updateExpense data i)
               | None => Alerted EmptyString
               end
          else Requested
                 (rpcAddExpense (ExpenseFormValues.title data)
                    (ExpenseFormValues.amount data)
                    (ExpenseFormValues.category data)
                    (ExpenseFormValues.date data)
                    (ExpenseFormValues.notes data)))
         :: rest.
Proof.
  intros Hu. unfold onSubmit. rewrite Hu. cbv zeta.
  destruct (editingExpenseId (page w)) as [i|];
    [destruct (ToBoolean (Some i))|]; cbn [run ToBoolean];
    match goal with
    | |- context [run respond ?t ?w0] =>
        destruct (run_events t w0) as [rest ->]
    end;
    cbn [events]; exists rest; now rewrite <- app_assoc.
Qed.

(** X15. The Edit button of a card puts the form in edit mode and fills
    it with the values of the record, an absent note as the empty string.
    A submit that follows sends, as its first request, the update of that
    record with the submitted values; after Cancel Edit it sends a call of
    [add_expense] instead. This is for a record whose id is not the empty
    string: with an empty id the page stays in add mode. *)
Theorem edit_then_submit (exp : Expense) (data : ExpenseFormValues.t)
  (w : World Backend) (u : Supabase.User) :
  user (page w) = Some u ->
  let values := {| ExpenseFormValues.title := title exp;
                   ExpenseFormValues.amount := amount exp;
                   ExpenseFormValues.category := category exp;
                   ExpenseFormValues.date := date exp;
                   ExpenseFormValues.notes := notesText exp |} in
  let add := rpcAddExpense (ExpenseFormValues.title data)
               (ExpenseFormValues.amount data) (ExpenseFormValues.category data)
               (ExpenseFormValues.date data) (ExpenseFormValues.notes data) in
  (editingExpenseId (page (session respond [ClickEdit exp] w)) = Some (id exp)
   /\ events (session respond [ClickEdit exp] w)
      = events w ++ [FormReset (Some values)])
  /\ (id exp <> EmptyString ->
      (exists rest,
         events (session respond [ClickEdit exp; Submit data] w)
         = events w ++ FormReset (Some values)
                       :: Requested (updateExpense data (id exp)) :: rest)
      /\ (exists rest,
            events (session respond [ClickEdit exp; ClickCancelEdit; Submit data] w)
            = events w ++ FormReset (Some values) :: FormReset None
                          :: Requested add :: rest))
  /\ (id exp = EmptyString ->
      exists rest,
        events (session respond [ClickEdit exp; Submit data] w)
        = events w ++ FormReset (Some values) :: Requested add :: rest).
Proof.
  intros Hu. cbv zeta.
  assert (Hnotes : match notes exp with
                   | Some n => if ToBoolean (Some n) then n else ""
                   | None => ""
                   end = notesText exp).
  { unfold notesText. destruct (notes exp) as [n|]; [|reflexivity].
    cbn. destruct (String.eqb_spec n ""); [now subst | reflexivity]. }
  assert (Hedit : run respond (startEdit exp) w
                  = {| page := fst (act (setEditingExpenseId (Some (id exp))) (page w));
                       server := server w;
                       events := events w ++ [FormReset (Some
                         {| ExpenseFormValues.title := title exp;
                            ExpenseFormValues.amount := amount exp;
                            ExpenseFormValues.category := category exp;
                            ExpenseFormValues.date := date exp;
                            ExpenseFormValues.notes := notesText exp |})] |}).
  { unfold startEdit. rewrite Hnotes. cbn. now rewrite app_nil_r. }
  unfold session. cbn [fold_left handler]. rewrite Hedit. cbn [page].
  split; [split; reflexivity|]. split.
  - intros Hid. split.
    + match goal with
      | |- context [run respond (onSubmit _ data) ?w0] =>
          destruct (onSubmit_first_request data w0 u Hu) as [rest H]
      end.
      cbn [page] in H. rewrite H. cbn [act fst editingExpenseId ToBoolean events].
      destruct (String.eqb_spec (id exp) ""); [contradiction|]. cbn [negb].
      exists rest. now rewrite <- app_assoc.
    + cbn [run cancelEdit act fst snd page server events].
      match goal with
      | |- context [run respond (onSubmit _ data) ?w0] =>
          destruct (onSubmit_first_request data w0 u Hu) as [rest H]
      end.
      cbn [page] in H. rewrite H. cbn [editingExpenseId ToBoolean events].
      exists rest. rewrite app_nil_r, <- !app_assoc. reflexivity.
  - intros Hid.
    match goal with
    | |- context [run respond (onSubmit _ data) ?w0] =>
        destruct (onSubmit_first_request data w0 u Hu) as [rest H]
    end.
    cbn [page] in H. rewrite H. cbn [act fst editingExpenseId ToBoolean events].
    rewrite Hid. cbn. exists rest. now rewrite <- app_assoc.
Qed.

End Handlers.

Lemma edit_then_submit_witness :
  user (page {| page := aprilOpen; server := scenarioA; events := [] |}) = Some ana
  /\ id coffee <> EmptyString
  /\ exists rest,
       events (session serving [ClickEdit coffee; Submit groceries]
                 {| page := aprilOpen; server := scenarioA; events := [] |})
       = FormReset (Some {| ExpenseFormValues.title := "Coffee";
                            ExpenseFormValues.amount := 4.5;
                            ExpenseFormValues.category := "Food";
                            ExpenseFormValues.date := "2024-03-01";
                            ExpenseFormValues.notes := "" |})
         :: Requested (updateExpense groceries "1") :: rest.
Proof.
  split; [reflexivity|]. split; [discriminate|].
  destruct (edit_then_submit (list Expense) serving coffee groceries
              {| page := aprilOpen; server := scenarioA; events := [] |}
              ana eq_refl) as [_ [H _]].
  destruct (H ltac:(discriminate)) as [[rest Hrest] _].
  exists rest. exact Hrest.
Defined.

(** A session against a backend that serves [scenarioA]: the page is
    mounted, a record is deleted, and the rows are loaded again. *)
Example delete_reloads :
  let w := session serving [Mount; ClickDelete "2"]
             {| page := initialState; server := scenarioA; events := [] |} in
  expenses (page w) = [coffee; lunch]
  /\ user (page w) = Some ana
  /\ events w = [Requested authGetUser; Requested (selectExpenses "u-1");
                 Requested (deleteExpense "2"); Requested (selectExpenses "u-1")].
Proof. repeat split. Qed.

(** ** What a render returns *)

Lemma mapM_Normal {A B : Type} (f : A -> Completion B) (g : A -> B) (l : list A) :
  (forall x, In x l -> f x = Normal (g x)) -> mapM f l = Normal (map g l).
Proof.
  induction l as [|x l IH]; intros H; simpl; [reflexivity|].
  rewrite (H x (or_introl eq_refl)). simpl.
  rewrite IH by (intros y Hy; apply H; now right). reflexivity.
Qed.

Lemma filter_find {A : Type} (p : A -> bool) (l : list A) :
  match find p l with
  | Some x => exists rest, filter p l = x :: rest
  | None => filter p l = []
  end.
Proof.
  induction l as [|x l IH]; simpl; [reflexivity|].
  destruct (p x); [now eexists | exact IH].
Qed.

Lemma renderCategory_cell (tz : Z) (l : list Expense) (k : string) :
  In k (map categoryKey l) ->
  renderCategory tz (k, filter (inCategory k) l) = Normal (categoryBlockOf tz l k).
Proof.
  intros Hk. unfold renderCategory, categoryBlockOf, firstDisplay.
  pose proof (filter_find (inCategory k) l) as Hf.
  destruct (find (inCategory k) l) as [first|] eqn:Hfind.
  - destruct Hf as [rest Hf]. rewrite Hf. reflexivity.
  - exfalso. apply inCategory_keys in Hk. destruct Hk as [exp [Hin Hc]].
    assert (Hx : In exp (filter (inCategory k) l)) by (apply filter_In; now split).
    rewrite Hf in Hx. exact Hx.
Qed.

Lemma renderMonth_cells (tz : Z) (o : option string) (l : list Expense) (L : string) :
  renderMonth tz o {| label := L; categories := cellsOf (monthRecords tz L l) |}
  = Normal (monthBlockOf tz o l L).
Proof.
  unfold renderMonth, monthBlockOf. cbn [label categories]. cbv zeta.
  destruct (match o with Some o' => String.eqb o' L | None => false end);
    [|reflexivity].
  unfold cellsOf at 1. rewrite entries_tabulate. unfold tabulate.
  rewrite (mapM_Normal _ (fun p => categoryBlockOf tz (monthRecords tz L l) (fst p))).
  - rewrite map_map. reflexivity.
  - intros p Hp. apply in_map_iff in Hp. destruct Hp as [k [<- Hk]].
    apply renderCategory_cell.
    apply (Permutation_in _ (ownPropertyOrder_perm _)) in Hk.
    exact (proj1 (firstSeen_In _ _) Hk).
Qed.

Lemma render_spec (tz : Z) (cmp : string -> string -> Z) (isSubmitting : bool)
  (st : State) :
  render tz cmp isSubmitting st
  = match user st with
    | None => Normal LoadingUser
    | Some u =>
        if ownCategories (filteredExpenses (expenses st) (searchTerm st))
        then
          Normal
            (Dashboard
               {| welcome := Supabase.email u;
                  submitLabel :=
                    if isSubmitting then "Saving..."
                    else if ToBoolean (editingExpenseId st) then "Update Expense"
                         else "Add Expense";
                  cancelEditButton := ToBoolean (editingExpenseId st);
                  searchValue := searchTerm st;
                  chart :=
                    if (0 <? List.length (monthLabels tz (expenses st)))%nat
                    then Some (monthLabels tz (expenses st),
                               monthValues tz (expenses st))
                    else None;
                  totalText :=
                    if negb (loadingExpenses st)
                       && (0 <? List.length (expenses st))%nat
                    then Some (totalSpent (expenses st))
                    else None;
                  loadingText := loadingExpenses st;
                  errorText :=
                    if ToBoolean (expensesError st) then expensesError st else None;
                  emptyText :=
                    negb (loadingExpenses st)
                    && (List.length (expenses st) =? 0)%nat;
                  monthBlocks :=
                    map (monthBlockOf tz (openMonth st)
                           (filteredExpenses (expenses st) (searchTerm st)))
                        (JSArray.sort (newestMonthFirst tz)
                           (firstSeen
                              (map (fun exp => monthLabelOf tz (date exp))
                                   (filteredExpenses (expenses st) (searchTerm st)))))
               |})
        else Throw TypeError
    end.
Proof.
  unfold render. destruct (user st) as [u|]; [|reflexivity].
  rewrite DashboardPage_spec, sortedCategories_spec, sortedMonths_spec.
  destruct (ownCategories (filteredExpenses (expenses st) (searchTerm st)));
    [|reflexivity].
  cbn [bind viewMonths viewTotalSpent chartLabels chartData].
  rewrite (mapM_Normal _ (fun m => monthBlockOf tz (openMonth st)
                                     (filteredExpenses (expenses st) (searchTerm st))
                                     (label m))).
  - cbn [bind]. rewrite map_map. reflexivity.
  - intros m Hm. apply in_map_iff in Hm. destruct Hm as [L [<- _]].
    apply renderMonth_cells.
Qed.

(** X16. While no user is stored the page shows the paragraph
    [Loading...], whatever its rows are. With a user, the render throws
    exactly when a row that passes the search filter has a category whose
    lowercase spelling is a property name of [Object.prototype], and
    returns the dashboard otherwise: reading [items[0].category] for the
    heading of a category block never fails, every block having a row. *)
Theorem render_throws_iff (tz : Z) (cmp : string -> string -> Z)
  (isSubmitting : bool) (st : State) :
  (user st = None -> render tz cmp isSubmitting st = Normal LoadingUser)
  /\ (user st <> None ->
      (render tz cmp isSubmitting st = Throw TypeError
       <-> exists exp, In exp (expenses st)
             /\ matchesSearch (searchTerm st) exp = true
             /\ JSObject.inherited (JSString.toLowerCase (category exp)) = true)
      /\ ((exists screen, render tz cmp isSubmitting st = Normal (Dashboard screen))
          <-> forall exp, In exp (expenses st) ->
                matchesSearch (searchTerm st) exp = true ->
                JSObject.inherited (JSString.toLowerCase (category exp)) = false)).
Proof.
  rewrite render_spec. split.
  - now intros ->.
  - intros Hu. destruct (user st) as [u|]; [clear Hu | contradiction].
    destruct (ownCategories (filteredExpenses (expenses st) (searchTerm st)))
      eqn:Hown.
    + pose proof (proj1 (ownCategories_true _) Hown) as H.
      split; split.
      * discriminate.
      * intros [exp [Hin [Hm Hi]]].
        rewrite (H exp) in Hi; [discriminate|]. apply filter_In. now split.
      * intros _ exp Hin Hm. apply H. apply filter_In. now split.
      * intros _. eexists. reflexivity.
    + pose proof (proj1 (ownCategories_false _) Hown) as [exp [Hin Hi]].
      apply filter_In in Hin. destruct Hin as [Hin Hm].
      split; split.
      * intros _. now exists exp.
      * reflexivity.
      * intros [screen Hs]. discriminate.
      * intros H. rewrite (H exp Hin Hm) in Hi. discriminate.
Qed.

Ltac rendered H :=
  rewrite render_spec in H;
  match type of H with
  | match user ?st with _ => _ end = _ =>
      destruct (user st) eqn:?; [|discriminate H]
  end;
  match type of H with
  | (if ownCategories ?l then _ else _) = _ =>
      destruct (ownCategories l) eqn:?; [|discriminate H]
  end;
  injection H as <-.

Lemma monthLabels_nil (tz : Z) (l : list Expense) :
  monthLabels tz l = [] <-> l = [].
Proof.
  destruct (monthlyTotals_spec tz l) as [-> _].
  destruct l; simpl; split; congruence.
Qed.

(** X17. The status lines of the dashboard. The chart is replaced by its
    placeholder exactly when the page holds no row, whatever the search
    term and the loading flag; otherwise it gets the monthly series of all
    rows. Of the loading text, the total and the empty text exactly one is
    shown: the loading text while loading, else the total of all rows when
    there are rows, else the empty text. Unless the form is being
    submitted, the Cancel Edit button is shown exactly when the submit
    button reads [Update Expense]. *)
Theorem status_lines (tz : Z) (cmp : string -> string -> Z)
  (isSubmitting : bool) (st : State) (screen : Screen) :
  render tz cmp isSubmitting st = Normal (Dashboard screen) ->
  (chart screen = None <-> expenses st = [])
  /\ (forall series, chart screen = Some series ->
        series = (monthLabels tz (expenses st), monthValues tz (expenses st)))
  /\ ((loadingExpenses st = true /\ loadingText screen = true
       /\ totalText screen = None /\ emptyText screen = false)
      \/ (loadingExpenses st = false /\ expenses st <> []
          /\ loadingText screen = false
          /\ totalText screen = Some (totalSpent (expenses st))
          /\ emptyText screen = false)
      \/ (loadingExpenses st = false /\ expenses st = []
          /\ loadingText screen = false
          /\ totalText screen = None /\ emptyText screen = true))
  /\ (isSubmitting = false ->
      (submitLabel screen = "Update Expense" <-> cancelEditButton screen = true)).
Proof.
  intros H. rendered H.
  cbn [chart totalText loadingText emptyText cancelEditButton].
  split; [|split; [|split]].
  - rewrite <- (monthLabels_nil tz).
    destruct (monthLabels tz (expenses st)); simpl; split; congruence.
  - intros series.
    destruct (0 <? List.length (monthLabels tz (expenses st)))%nat;
      [|discriminate]. intros E. now injection E as <-.
  - destruct (loadingExpenses st); [left; repeat split|].
    destruct (expenses st) as [|x l]; [right; right | right; left];
      repeat split; discriminate.
  - intros ->. cbn [submitLabel].
    destruct (ToBoolean (editingExpenseId st)); split;
      try reflexivity; discriminate.
Qed.

Lemma status_lines_witness :
  exists screen,
    render 0 codeUnitCompare false aprilOpen = Normal (Dashboard screen)
    /\ (chart screen = None <-> expenses aprilOpen = [])
    /\ (forall series, chart screen = Some series ->
          series = (monthLabels 0 (expenses aprilOpen),
                    monthValues 0 (expenses aprilOpen)))
    /\ totalText screen = Some 19.25%float.
Proof.
  eexists. split; [vm_compute; reflexivity|].
  destruct (status_lines 0 codeUnitCompare false aprilOpen _ eq_refl)
    as [H1 [H2 _]].
  split; [exact H1|]. split; [exact H2 | reflexivity].
Defined.

(** ** The month blocks *)

Lemma distinct_keys_filter {K R : Type} (key : R -> K) (keep : R -> bool)
  (rows : list R) :
  NoDup (map key rows) -> NoDup (map key (filter keep rows)).
Proof.
  intros Hn. induction rows as [|r rows IH]; [exact Hn|].
  cbn [map] in Hn. apply NoDup_cons_iff in Hn. destruct Hn as [Hr Hn].
  cbn [filter]. destruct (keep r); [|now apply IH].
  cbn [map]. apply NoDup_cons; [|now apply IH].
  intros Hin. apply Hr. apply in_map_iff in Hin. destruct Hin as [r' [E Hr']].
  apply in_map_iff. exists r'. split; [exact E|].
  apply filter_In in Hr'. tauto.
Qed.

Lemma monthBlockKeys (tz : Z) (o : option string) (l : list Expense)
  (Ls : list string) :
  map monthBlockKey (map (monthBlockOf tz o l) Ls) = Ls.
Proof. rewrite map_map. apply map_id. Qed.

Lemma sortedLabels_NoDup (tz : Z) (l : list Expense) :
  NoDup (JSArray.sort (newestMonthFirst tz)
           (firstSeen (map (fun exp => monthLabelOf tz (date exp)) l))).
Proof.
  apply (Permutation_NoDup (Permutation_sym (sort_perm _ _))).
  apply firstSeen_NoDup.
Qed.

Lemma cellKeys_NoDup (l : list Expense) :
  NoDup (ownPropertyOrder (firstSeen (map categoryKey l))).
Proof.
  apply (Permutation_NoDup (Permutation_sym (ownPropertyOrder_perm _))).
  apply firstSeen_NoDup.
Qed.

(** What a block of the list of month blocks is. *)
Lemma monthBlocks_In (tz : Z) (o : option string) (l : list Expense)
  (Ls : list string) (b : MonthBlock) :
  In b (map (monthBlockOf tz o l) Ls) ->
  b = monthBlockOf tz o l (monthBlockKey b) /\ In (monthBlockKey b) Ls.
Proof.
  intros H. apply in_map_iff in H. destruct H as [L [<- HL]]. now split.
Qed.

(** The category blocks of an open month. *)
Lemma categoryBlocks_Some (tz : Z) (o : option string) (l : list Expense)
  (L : string) (bs : list CategoryBlock) :
  categoryBlocks (monthBlockOf tz o l L) = Some bs ->
  o = Some L
  /\ bs = map (categoryBlockOf tz (monthRecords tz L l))
              (ownPropertyOrder (firstSeen (map categoryKey (monthRecords tz L l)))).
Proof.
  unfold monthBlockOf. cbn [categoryBlocks].
  destruct o as [o'|]; [|discriminate].
  destruct (String.eqb_spec o' L); [|discriminate].
  intros H. injection H as <-. subst. now split.
Qed.

(** X18. The keys that React is given are unique among siblings: no two
    month blocks share a key, no two category blocks of a month share a
    key, and when the rows have distinct ids no two cards of a category
    block share a key. *)
Theorem keys_are_unique (tz : Z) (cmp : string -> string -> Z)
  (isSubmitting : bool) (st : State) (screen : Screen) :
  render tz cmp isSubmitting st = Normal (Dashboard screen) ->
  NoDup (map monthBlockKey (monthBlocks screen))
  /\ forall b bs, In b (monthBlocks screen) -> categoryBlocks b = Some bs ->
       NoDup (map categoryBlockKey bs)
       /\ (NoDup (map id (expenses st)) ->
           forall cb, In cb bs -> NoDup (map cardKey (expenseCards cb))).
Proof.
  intros H. rendered H. cbn [monthBlocks]. split.
  - rewrite monthBlockKeys. apply sortedLabels_NoDup.
  - intros b bs Hb Hbs. destruct (monthBlocks_In _ _ _ _ _ Hb) as [Eb _].
    rewrite Eb in Hbs. apply categoryBlocks_Some in Hbs. destruct Hbs as [_ ->].
    split.
    + rewrite map_map. cbn [categoryBlockOf categoryBlockKey].
      rewrite map_id. apply cellKeys_NoDup.
    + intros Hids cb Hcb. apply in_map_iff in Hcb. destruct Hcb as [k [<- _]].
      cbn [categoryBlockOf expenseCards]. rewrite map_map.
      cbn [renderCard cardKey].
      unfold monthRecords, filteredExpenses.
      now do 3 apply distinct_keys_filter.
Qed.

Lemma keys_are_unique_witness :
  exists screen,
    render 0 codeUnitCompare false aprilOpen = Normal (Dashboard screen)
    /\ NoDup (map monthBlockKey (monthBlocks screen))
    /\ forall b bs, In b (monthBlocks screen) -> categoryBlocks b = Some bs ->
         NoDup (map categoryBlockKey bs)
         /\ (NoDup (map id (expenses aprilOpen)) ->
             forall cb, In cb bs -> NoDup (map cardKey (expenseCards cb))).
Proof.
  eexists. split; [vm_compute; reflexivity|].
  apply (keys_are_unique 0 codeUnitCompare false aprilOpen).
  vm_compute; reflexivity.
Defined.

Lemma filter_none {A : Type} (p : A -> bool) (l : list A) :
  (forall x, In x l -> p x = false) -> filter p l = [].
Proof.
  induction l as [|x l IH]; simpl; intros H; [reflexivity|].
  rewrite (H x (or_introl eq_refl)). apply IH. intros y Hy. apply H. now right.
Qed.

Lemma filter_one {A : Type} (f : A -> string) (p : A -> bool) (c : string)
  (l : list A) :
  NoDup (map f l) -> (forall x, In x l -> p x = true -> f x = c) ->
  (List.length (filter p l) <= 1)%nat.
Proof.
  induction l as [|x l IH]; simpl; intros Hn Hp; [lia|].
  inversion Hn as [|? ? Hx Hl]; subst.
  destruct (p x) eqn:Hpx.
  - assert (Hnone : filter p l = []).
    { destruct (filter p l) as [|y r] eqn:Hf; [reflexivity|]. exfalso.
      assert (Hy : In y (filter p l)) by (rewrite Hf; now left).
      apply filter_In in Hy. destruct Hy as [Hy Hpy].
      apply Hx. rewrite (Hp x (or_introl eq_refl) Hpx).
      rewrite <- (Hp y (or_intror Hy) Hpy). now apply in_map. }
    rewrite Hnone. simpl. lia.
  - apply IH; [exact Hl|]. intros y Hy. apply Hp. now right.
Qed.

(** X19. At most one month block is expanded: the one whose label is the
    open month of the state, if the filtered rows have such a month. Only
    an expanded block shows category blocks, and its cards are the rows
    that pass the search filter and are filed under its label, each
    once. *)
Theorem open_month_shows_its_rows (tz : Z) (cmp : string -> string -> Z)
  (isSubmitting : bool) (st : State) (screen : Screen) :
  render tz cmp isSubmitting st = Normal (Dashboard screen) ->
  (List.length (filter expanded (monthBlocks screen)) <= 1)%nat
  /\ forall b, In b (monthBlocks screen) ->
       (expanded b = true <-> openMonth st = Some (monthBlockKey b))
       /\ (categoryBlocks b = None <-> expanded b = false)
       /\ forall bs, categoryBlocks b = Some bs ->
            Permutation
              (map cardKey (cardsShown bs))
              (map id (monthRecords tz (monthBlockKey b)
                         (filteredExpenses (expenses st) (searchTerm st)))).
Proof.
  intros H. rendered H. cbn [monthBlocks].
  assert (Hexp : forall b,
            In b (map (monthBlockOf tz (openMonth st)
                         (filteredExpenses (expenses st) (searchTerm st)))
                      (JSArray.sort (newestMonthFirst tz)
                         (firstSeen
                            (map (fun exp => monthLabelOf tz (date exp))
                                 (filteredExpenses (expenses st) (searchTerm st)))))) ->
            expanded b = true <-> openMonth st = Some (monthBlockKey b)).
  { intros b Hb. destruct (monthBlocks_In _ _ _ _ _ Hb) as [Eb _].
    rewrite Eb at 1. unfold monthBlockOf. cbn [expanded].
    destruct (openMonth st) as [o|]; [|split; discriminate].
    destruct (String.eqb_spec o (monthBlockKey b)); split; congruence. }
  split.
  - destruct (openMonth st) as [o|] eqn:Ho.
    + apply (filter_one monthBlockKey expanded o).
      * rewrite monthBlockKeys. apply sortedLabels_NoDup.
      * intros b Hb He. apply (Hexp b Hb) in He. congruence.
    + rewrite filter_none; [simpl; lia|].
      intros b Hb. destruct (expanded b) eqn:He; [|reflexivity].
      apply (Hexp b Hb) in He. discriminate.
  - intros b Hb. split; [exact (Hexp b Hb)|].
    destruct (monthBlocks_In _ _ _ _ _ Hb) as [Eb _]. split.
    + rewrite Eb. unfold monthBlockOf. cbn [categoryBlocks expanded].
      destruct (match openMonth st with
                | Some o' => String.eqb o' (monthBlockKey b)
                | None => false
                end); split; congruence.
    + intros bs Hbs. rewrite Eb in Hbs. apply categoryBlocks_Some in Hbs.
      destruct Hbs as [_ ->]. unfold cardsShown.
      rewrite flat_map_concat_map, map_map. cbn [categoryBlockOf expenseCards].
      rewrite <- (map_map (fun k => filter (inCategory k) _) (map (renderCard tz))).
      rewrite <- concat_map, map_map. cbn [renderCard cardKey].
      apply Permutation_map.
      rewrite <- (values_tabulate (fun k => filter (inCategory k) _)).
      apply cellsOf_perm.
Qed.

Lemma open_month_shows_its_rows_witness :
  exists screen,
    render 0 codeUnitCompare false aprilOpen = Normal (Dashboard screen)
    /\ (List.length (filter expanded (monthBlocks screen)) <= 1)%nat
    /\ forall b, In b (monthBlocks screen) ->
         (expanded b = true <-> openMonth aprilOpen = Some (monthBlockKey b))
         /\ (categoryBlocks b = None <-> expanded b = false)
         /\ forall bs, categoryBlocks b = Some bs ->
              Permutation
                (map cardKey (cardsShown bs))
                (map id (monthRecords 0 (monthBlockKey b)
                           (filteredExpenses (expenses aprilOpen)
                                             (searchTerm aprilOpen)))).
Proof.
  eexists. split; [vm_compute; reflexivity|].
  apply (open_month_shows_its_rows 0 codeUnitCompare false aprilOpen).
  vm_compute; reflexivity.
Defined.

(** ** Totals, headings and dates of the cards *)

Lemma sumAmounts_map (l : list Expense) :
  sumAmounts l = sumNumbers (map amount l).
Proof.
  unfold sumAmounts, sumNumbers. generalize 0%float.
  induction l as [|x l IH]; intros a; simpl; [reflexivity | apply IH].
Qed.

(** X20. What is written on an expanded month adds up as shown: the total
    of the month is the sum of the amounts on its cards, added from the
    left in the order of the cards, and the total of each category block
    is the sum of the amounts on the cards of that block, in their order. *)
Theorem totals_add_the_cards (tz : Z) (cmp : string -> string -> Z)
  (isSubmitting : bool) (st : State) (screen : Screen) :
  render tz cmp isSubmitting st = Normal (Dashboard screen) ->
  forall b bs, In b (monthBlocks screen) -> categoryBlocks b = Some bs ->
    monthBlockTotal b = sumNumbers (map cardAmount (cardsShown bs))
    /\ forall cb, In cb bs ->
         categoryBlockTotal cb = sumNumbers (map cardAmount (expenseCards cb)).
Proof.
  intros H. rendered H. cbn [monthBlocks]. intros b bs Hb Hbs.
  destruct (monthBlocks_In _ _ _ _ _ Hb) as [Eb _].
  rewrite Eb in Hbs. apply categoryBlocks_Some in Hbs. destruct Hbs as [_ ->].
  split.
  - rewrite Eb. unfold monthBlockOf at 1. cbn [monthBlockTotal].
    unfold monthTotal. cbn [categories]. unfold cellsOf at 1.
    rewrite values_tabulate, sumAmounts_map. f_equal.
    unfold cardsShown. rewrite flat_map_concat_map, map_map.
    cbn [categoryBlockOf expenseCards].
    rewrite <- (map_map (fun k => filter (inCategory k) _) (map (renderCard tz))).
    rewrite <- concat_map, map_map. reflexivity.
  - intros cb Hcb. apply in_map_iff in Hcb. destruct Hcb as [k [<- _]].
    cbn [categoryBlockOf categoryBlockTotal expenseCards].
    unfold categoryTotal. rewrite sumAmounts_map, map_map. reflexivity.
Qed.

Lemma totals_add_the_cards_witness :
  exists screen,
    render 0 codeUnitCompare false aprilOpen = Normal (Dashboard screen)
    /\ forall b bs, In b (monthBlocks screen) -> categoryBlocks b = Some bs ->
         monthBlockTotal b = sumNumbers (map cardAmount (cardsShown bs))
         /\ forall cb, In cb bs ->
              categoryBlockTotal cb
              = sumNumbers (map cardAmount (expenseCards cb)).
Proof.
  eexists. split; [vm_compute; reflexivity|].
  apply (totals_add_the_cards 0 codeUnitCompare false aprilOpen).
  vm_compute; reflexivity.
Defined.

(** X21. Every category block that is shown has a card. Its cards are the
    rows that pass the search filter, are filed under the month of the
    block and have the category key of the block, in the order of the
    input; its heading is the category as the first of them spells it,
    which lowercases to the key of the block. *)
Theorem category_block_heading (tz : Z) (cmp : string -> string -> Z)
  (isSubmitting : bool) (st : State) (screen : Screen) :
  render tz cmp isSubmitting st = Normal (Dashboard screen) ->
  forall b bs cb,
    In b (monthBlocks screen) -> categoryBlocks b = Some bs -> In cb bs ->
    exists first rest,
      filter (inCategory (categoryBlockKey cb))
             (monthRecords tz (monthBlockKey b)
                (filteredExpenses (expenses st) (searchTerm st)))
      = first :: rest
      /\ expenseCards cb = map (renderCard tz) (first :: rest)
      /\ categoryHeading cb = category first
      /\ JSString.toLowerCase (categoryHeading cb) = categoryBlockKey cb.
Proof.
  intros H. rendered H. cbn [monthBlocks]. intros b bs cb Hb Hbs Hcb.
  destruct (monthBlocks_In _ _ _ _ _ Hb) as [Eb _].
  rewrite Eb in Hbs. apply categoryBlocks_Some in Hbs. destruct Hbs as [_ ->].
  apply in_map_iff in Hcb. destruct Hcb as [k [<- Hk]].
  apply (Permutation_in _ (ownPropertyOrder_perm _)) in Hk.
  apply (proj1 (firstSeen_In _ _)) in Hk.
  cbn [categoryBlockOf categoryBlockKey categoryHeading expenseCards].
  set (records := monthRecords tz (monthBlockKey b)
                    (filteredExpenses (expenses st) (searchTerm st))) in *.
  unfold firstDisplay.
  pose proof (filter_find (inCategory k) records) as Hf.
  destruct (find (inCategory k) records) as [first|] eqn:Hfind.
  - destruct Hf as [rest Hf]. exists first, rest. rewrite Hf.
    repeat split.
    apply find_some in Hfind. destruct Hfind as [_ Hc].
    unfold inCategory, categoryKey in Hc. now apply String.eqb_eq in Hc.
  - exfalso. apply inCategory_keys in Hk. destruct Hk as [exp [Hin Hc]].
    assert (Hx : In exp (filter (inCategory k) records))
      by (apply filter_In; now split).
    rewrite Hf in Hx. exact Hx.
Qed.

Lemma category_block_heading_witness :
  exists screen,
    render 0 codeUnitCompare false aprilOpen = Normal (Dashboard screen)
    /\ forall b bs cb,
         In b (monthBlocks screen) -> categoryBlocks b = Some bs -> In cb bs ->
         exists first rest,
           filter (inCategory (categoryBlockKey cb))
                  (monthRecords 0 (monthBlockKey b)
                     (filteredExpenses (expenses aprilOpen) (searchTerm aprilOpen)))
           = first :: rest
           /\ expenseCards cb = map (renderCard 0) (first :: rest)
           /\ categoryHeading cb = category first
           /\ JSString.toLowerCase (categoryHeading cb) = categoryBlockKey cb.
Proof.
  eexists. split; [vm_compute; reflexivity|].
  apply (category_block_heading 0 codeUnitCompare false aprilOpen).
  vm_compute; reflexivity.
Defined.

(** X22. The date written on a card is a day of the month its block is
    headed with: both are the local day of the row's date, so west of
    Greenwich a row dated the first of March is shown as [Feb 29, 2024]
    under [February 2024]. *)
Theorem card_date_is_of_its_month (tz : Z) (cmp : string -> string -> Z)
  (isSubmitting : bool) (st : State) (screen : Screen) :
  Forall validDate (expenses st) ->
  render tz cmp isSubmitting st = Normal (Dashboard screen) ->
  forall b bs cb c,
    In b (monthBlocks screen) -> categoryBlocks b = Some bs -> In cb bs ->
    In c (expenseCards cb) ->
    exists y m d,
      cardDate c = formatShortDate y m d
      /\ monthHeader b = JSDate.formatMonthYear y m.
Proof.
  intros Hv H. rendered H. cbn [monthBlocks]. intros b bs cb c Hb Hbs Hcb Hc.
  destruct (monthBlocks_In _ _ _ _ _ Hb) as [Eb _].
  rewrite Eb in Hbs. apply categoryBlocks_Some in Hbs. destruct Hbs as [_ ->].
  apply in_map_iff in Hcb. destruct Hcb as [k [<- _]].
  cbn [categoryBlockOf expenseCards] in Hc.
  apply in_map_iff in Hc. destruct Hc as [exp [<- Hexp]].
  apply filter_In in Hexp. destruct Hexp as [Hexp _].
  unfold monthRecords in Hexp. apply filter_In in Hexp.
  destruct Hexp as [Hexp Hmonth].
  unfold filteredExpenses in Hexp. apply filter_In in Hexp. destruct Hexp as [Hexp _].
  rewrite Forall_forall in Hv. specialize (Hv exp Hexp).
  unfold inMonth in Hmonth. apply String.eqb_eq in Hmonth.
  rewrite Eb. unfold monthBlockOf. cbn [monthHeader renderCard cardDate].
  rewrite <- Hmonth. unfold monthLabelOf, JSDate.toLocaleMonthYear, toLocaleShortDate.
  unfold validDate, JSDate.getTime in Hv.
  destruct (JSDate.parseISODate (date exp)) as [ymd|]; [|congruence].
  destruct (JSDate.localDate tz ymd) as [[y m] d]. now exists y, m, d.
Qed.

Lemma card_date_is_of_its_month_witness :
  exists screen,
    Forall validDate (expenses aprilOpen)
    /\ render (-300) codeUnitCompare false aprilOpen = Normal (Dashboard screen)
    /\ forall b bs cb c,
         In b (monthBlocks screen) -> categoryBlocks b = Some bs -> In cb bs ->
         In c (expenseCards cb) ->
         exists y m d,
           cardDate c = formatShortDate y m d
           /\ monthHeader b = JSDate.formatMonthYear y m.
Proof.
  assert (Hv : Forall validDate (expenses aprilOpen)).
  { repeat constructor; unfold validDate; vm_compute; discriminate. }
  eexists. split; [exact Hv|]. split; [vm_compute; reflexivity|].
  apply (card_date_is_of_its_month (-300) codeUnitCompare false aprilOpen);
    [exact Hv | vm_compute; reflexivity].
Defined.

(** A row of the first of March on a host five hours west of Greenwich. *)
Example first_of_march_card :
  cardDate (renderCard (-300) coffee) = "Feb 29, 2024"
  /\ cardDate (renderCard 0 coffee) = "Mar 1, 2024".
Proof. split; reflexivity. Qed.

(** ** Opening and closing a month *)

(** X23. A click on the header of a month sends nothing and changes only
    which month is open: afterwards the block of that month is expanded if
    it was not before, and no other block is; the same months are listed,
    with the same chart and status lines. *)
Theorem month_click_opens_one (Backend : Type)
  (respond : forall R : Type, Request R -> Backend -> R * Backend)
  (tz : Z) (cmp : string -> string -> Z) (isSubmitting : bool)
  (w : World Backend) (L : string) (screen : Screen) :
  render tz cmp isSubmitting (page w) = Normal (Dashboard screen) ->
  let w' := session respond [ClickMonth L] w in
  events w' = events w /\ server w' = server w
  /\ exists screen',
       render tz cmp isSubmitting (page w') = Normal (Dashboard screen')
       /\ map monthBlockKey (monthBlocks screen')
          = map monthBlockKey (monthBlocks screen)
       /\ (forall b, In b (monthBlocks screen') ->
             (expanded b = true
              <-> monthBlockKey b = L /\ openMonth (page w) <> Some L))
       /\ chart screen' = chart screen
       /\ totalText screen' = totalText screen
       /\ loadingText screen' = loadingText screen
       /\ emptyText screen' = emptyText screen
       /\ errorText screen' = errorText screen.
Proof.
  intros H. cbv zeta. unfold session. cbn [fold_left handler toggleMonth run].
  cbn [act fst snd page server events]. rewrite app_nil_r.
  split; [reflexivity|]. split; [reflexivity|].
  rendered H. rewrite render_spec.
  cbn [user expenses searchTerm loadingExpenses expensesError editingExpenseId
       openMonth].
  match goal with
  | H0 : user (page w) = Some _ |- _ => rewrite ?H0
  end.
  match goal with
  | H0 : ownCategories _ = true |- _ => rewrite H0
  end.
  eexists. split; [reflexivity|].
  cbn [monthBlocks chart totalText loadingText emptyText errorText].
  rewrite !monthBlockKeys. split; [reflexivity|].
  split; [|repeat split].
  intros b Hb. destruct (monthBlocks_In _ _ _ _ _ Hb) as [Eb _].
  rewrite Eb at 1. unfold monthBlockOf. cbn [expanded].
  destruct (openMonth (page w)) as [om|].
  - destruct (String.eqb_spec om L) as [E|Hne].
    + split; [discriminate | intros [_ Hc]; congruence].
    + destruct (String.eqb_spec L (monthBlockKey b)) as [E|E]; split.
      * intros _. split; congruence.
      * reflexivity.
      * discriminate.
      * intros [E' _]. congruence.
  - destruct (String.eqb_spec L (monthBlockKey b)) as [E|E]; split.
    + intros _. split; congruence.
    + reflexivity.
    + discriminate.
    + intros [E' _]. congruence.
Qed.

Lemma month_click_opens_one_witness :
  exists screen,
    render 0 codeUnitCompare false aprilOpen = Normal (Dashboard screen)
    /\ exists screen',
         render 0 codeUnitCompare false
           (page (session serving [ClickMonth "March 2024"]
                    {| page := aprilOpen; server := scenarioA; events := [] |}))
         = Normal (Dashboard screen')
         /\ map monthBlockKey (monthBlocks screen')
            = map monthBlockKey (monthBlocks screen).
Proof.
  eexists. split; [vm_compute; reflexivity|].
  destruct (month_click_opens_one (list Expense) serving 0 codeUnitCompare false
              {| page := aprilOpen; server := scenarioA; events := [] |}
              "March 2024" _ eq_refl) as [_ [_ [screen' [H1 [H2 _]]]]].
  exists screen'. split; [exact H1 | exact H2].
Defined.

(** ** The test [!monthlyTotals[monthLabel]] *)

Lemma SFcompare_refl (p : spec_float) :
  SFcompare p p = match p with S754_nan => None | _ => Some Eq end.
Proof.
  destruct p as [s|s| |s m e]; simpl; try reflexivity.
  - now destruct s.
  - rewrite Z.compare_refl.
    change (PosDef.Pos.compare_cont Eq m m) with (Pos.compare m m).
    rewrite Pos.compare_refl. now destruct s.
Qed.

Lemma is_nan_spec (x : float) :
  PrimFloat.is_nan x = true <-> Prim2SF x = S754_nan.
Proof.
  unfold PrimFloat.is_nan. rewrite eqb_spec. unfold SFeqb.
  rewrite SFcompare_refl. destruct (Prim2SF x); simpl; split; congruence.
Qed.

(** [NaN] is absorbing for the addition. *)
Lemma add_nan (a x : float) :
  PrimFloat.is_nan a = true -> PrimFloat.is_nan (a + x) = true.
Proof.
  rewrite !is_nan_spec, add_spec. intros ->. reflexivity.
Qed.

(** Two numbers that [==] holds of are both zeros or are one number. *)
Lemma float_eqb_true (a b : float) :
  PrimFloat.eqb a b = true ->
  ((exists s, Prim2SF a = S754_zero s) /\ (exists s, Prim2SF b = S754_zero s))
  \/ (a = b /\ PrimFloat.is_nan a = false).
Proof.
  intros H.
  assert (Hn : PrimFloat.is_nan a = false).
  { destruct (PrimFloat.is_nan a) eqn:E; [|reflexivity].
    apply is_nan_spec in E. rewrite eqb_spec, E in H. discriminate. }
  rewrite eqb_spec in H. unfold SFeqb in H.
  destruct (Prim2SF a) as [sa|sa| |sa ma ea] eqn:Ea,
           (Prim2SF b) as [sb|sb| |sb mb eb] eqn:Eb;
    simpl in H; try discriminate;
    try (destruct sa; discriminate); try (destruct sb; discriminate).
  - left. split; eexists; reflexivity.
  - right. split; [|exact Hn]. apply Prim2SF_inj. rewrite Ea, Eb.
    destruct sa, sb; try discriminate; reflexivity.
  - right. split; [|exact Hn]. apply Prim2SF_inj. rewrite Ea, Eb.
    assert (sa = sb) as -> by (destruct sa, sb; try discriminate; reflexivity).
    destruct (Z.compare_spec ea eb) as [->|?|?];
      try (destruct sb; discriminate).
    change (PosDef.Pos.compare_cont Eq ma mb) with (Pos.compare ma mb) in H.
    destruct (Pos.compare_spec ma mb) as [->|?|?];
      try (destruct sb; discriminate).
    reflexivity.
Qed.

Lemma float_eqb_refl (a : float) :
  PrimFloat.is_nan a = false -> PrimFloat.eqb a a = true.
Proof. unfold PrimFloat.is_nan. now destruct (PrimFloat.eqb a a). Qed.

(** A number is falsy when it is a zero or [NaN]. *)
Lemma falsy_spec (a : float) :
  JSNumber.falsy a = true
  <-> (exists s, Prim2SF a = S754_zero s) \/ Prim2SF a = S754_nan.
Proof.
  unfold JSNumber.falsy. rewrite orb_true_iff, is_nan_spec, eqb_spec.
  change (Prim2SF 0) with (S754_zero false). unfold SFeqb.
  destruct (Prim2SF a) as [s|s| |s m e]; simpl.
  - split; [intros _; left; now exists s | now left].
  - destruct s; split; intros [H|H]; try discriminate; destruct H; discriminate.
  - split; intros _; now right.
  - destruct s; split; intros [H|H]; try discriminate; destruct H; discriminate.
Qed.

(** Adding to a zero of either sign gives the same number, up to the sign
    of a zero. *)
Lemma add_zeros (a b x : float) (sa sb : bool) :
  Prim2SF a = S754_zero sa -> Prim2SF b = S754_zero sb ->
  PrimFloat.is_nan (b + x) = false ->
  PrimFloat.eqb (a + x) (b + x) = true.
Proof.
  intros Ha Hb Hn.
  assert (Hn' : Prim2SF (b + x) <> S754_nan).
  { intros E. apply is_nan_spec in E. congruence. }
  rewrite eqb_spec. rewrite add_spec in Hn'. rewrite !add_spec, Ha, Hb in *.
  unfold SFeqb.
  destruct (Prim2SF x) as [s|s| |s m e]; unfold SF64add, SFadd in *.
  - destruct sa, sb, s; reflexivity.
  - rewrite SFcompare_refl. reflexivity.
  - contradiction.
  - rewrite SFcompare_refl. reflexivity.
Qed.

(** One step of the loop, against one step of a plain sum. *)
Lemma runningTotal_step (a b x : float) :
  PrimFloat.eqb a b = true ->
  PrimFloat.is_nan (b + x) = false ->
  PrimFloat.eqb ((if JSNumber.falsy a then 0 else a) + x) (b + x) = true.
Proof.
  intros Hab Hn.
  destruct (float_eqb_true a b Hab) as [[[sa Ha] [sb Hb]]|[-> Hna]].
  - assert (Hf : JSNumber.falsy a = true) by (apply falsy_spec; left; now exists sa).
    rewrite Hf. now apply (add_zeros 0 b x false sb).
  - destruct (JSNumber.falsy b) eqn:Hf.
    + apply falsy_spec in Hf. destruct Hf as [[sb Hb]|Hb].
      * now apply (add_zeros 0 b x false sb).
      * apply is_nan_spec in Hb. congruence.
    + now apply float_eqb_refl.
Qed.

Lemma sumAmounts_snoc (l : list Expense) (x : Expense) :
  sumAmounts (l ++ [x]) = (sumAmounts l + amount x)%float.
Proof. unfold sumAmounts. now rewrite fold_left_app. Qed.

Lemma runningTotal_is_the_sum (l : list Expense) :
  PrimFloat.is_nan (sumAmounts l) = false ->
  PrimFloat.eqb (runningTotal l) (sumAmounts l) = true.
Proof.
  induction l as [|x l IH] using rev_ind; intros Hn; [reflexivity|].
  rewrite sumAmounts_snoc in *. unfold runningTotal. rewrite fold_left_app.
  cbn [fold_left]. fold (runningTotal l).
  apply runningTotal_step; [|exact Hn].
  apply IH. destruct (PrimFloat.is_nan (sumAmounts l)) eqn:E; [|reflexivity].
  rewrite (add_nan _ (amount x) E) in Hn. discriminate.
Qed.

(** X24. The test [!monthlyTotals[monthLabel]], which also holds of a
    total that is 0, does no harm: every bar of the chart equals, as a
    number, the amounts of the rows of its month added from the left in
    the order of the input, whenever that sum is not [NaN]. *)
Theorem chart_bar_is_the_sum (tz : Z) (expenses : list Expense) :
  Forall2
    (fun L v =>
       let bucket := filter (inMonth (monthLabelOf tz) L) expenses in
       PrimFloat.is_nan (sumAmounts bucket) = false ->
       PrimFloat.eqb v (sumAmounts bucket) = true)
    (monthLabels tz expenses) (monthValues tz expenses).
Proof.
  destruct (monthlyTotals_spec tz expenses) as [_ ->].
  apply Forall2_map_r. intros L _. cbv zeta. apply runningTotal_is_the_sum.
Qed.

(** After a total that is [NaN] the loop starts the month again from 0,
    while [totalSpent] stays [NaN]. *)
Example nan_amount_is_dropped_from_the_bar :
  let broken := {| id := "12"; title := "?"; amount := nan; category := "Food";
                   date := "2024-03-05"; notes := None |} in
  monthValues 0 [coffee; broken; bus] = [2.75%float]
  /\ PrimFloat.is_nan (totalSpent [coffee; broken; bus]) = true.
Proof. split; vm_compute; reflexivity. Qed.

(** ** Additions that do not round *)

Lemma digits2_pos_size (m : positive) : digits2_pos m = Pos.size m.
Proof. induction m as [m IH|m IH|]; simpl; now rewrite ?IH. Qed.

Lemma digits2_pos_log2 (m : positive) :
  Z.pos (digits2_pos m) = (Z.log2 (Z.pos m) + 1)%Z.
Proof.
  destruct m as [m|m|]; simpl; rewrite ?digits2_pos_size; lia.
Qed.

(** The mantissa and the exponent of a binary64 number: at most 53 digits,
    and exactly 53 above the least exponent. *)
Lemma bounded_canonical (m : positive) (e : Z) :
  bounded prec emax m e = true ->
  (- 1074 <= e)%Z /\ (Z.log2 (Z.pos m) <= 52)%Z
  /\ ((- 1074 < e)%Z -> Z.log2 (Z.pos m) = 52%Z).
Proof.
  unfold bounded, canonical_mantissa, fexp, SpecFloat.emin, prec, emax.
  rewrite andb_true_iff, Z.eqb_eq, digits2_pos_log2. intros [H _].
  change IntDef.Z.max with Z.max in H. lia.
Qed.

(** A number has one mantissa and one exponent. *)
Lemma canonical_unique (m m' : positive) (e e' : Z) :
  bounded prec emax m e = true -> bounded prec emax m' e' = true ->
  (Z.pos m * 2 ^ (e + 1074) = Z.pos m' * 2 ^ (e' + 1074))%Z ->
  m = m' /\ e = e'.
Proof.
  intros Hb Hb' E.
  destruct (bounded_canonical m e Hb) as [He [Hm Hn]].
  destruct (bounded_canonical m' e' Hb') as [He' [Hm' Hn']].
  apply (f_equal Z.log2) in E as L.
  rewrite !Z.log2_mul_pow2 in L by lia.
  assert (e = e') as <- by lia.
  split; [|reflexivity].
  apply Z.mul_reg_r in E; [congruence|].
  apply Z.pow_nonzero; lia.
Qed.

Lemma finite_scaled (m : positive) (e : Z) :
  (- 1074 <= e)%Z ->
  (if (0 <=? e)%Z then inject_Z (Z.pos m * 2 ^ e)
   else Z.pos m # (2 ^ Z.to_pos (- e)))
  == (Z.pos m * 2 ^ (e + 1074) # 2 ^ 1074).
Proof.
  intros He. unfold Qeq. destruct (Z.leb_spec 0 e) as [H|H]; cbn [Qnum Qden inject_Z].
  - rewrite Z.pow_add_r by lia. rewrite Pos2Z.inj_pow. lia.
  - rewrite !Pos2Z.inj_pow. rewrite Z2Pos.id by lia.
    rewrite <- Z.mul_assoc, <- Z.pow_add_r by lia.
    replace (e + 1074 + - e)%Z with 1074%Z by lia. reflexivity.
Qed.

Lemma isFinite_exact (v : float) :
  JSNumber.isFinite v = true <-> exists q, JSNumber.exact v = Some q.
Proof.
  unfold JSNumber.isFinite, JSNumber.exact.
  destruct (Prim2SF v); split; try discriminate; try (intros [q H]; discriminate);
    intros _; try reflexivity; eexists; reflexivity.
Qed.

Lemma isFinite_not_nan (v : float) :
  JSNumber.isFinite v = true -> PrimFloat.is_nan v = false.
Proof.
  intros H. destruct (PrimFloat.is_nan v) eqn:E; [|reflexivity].
  apply is_nan_spec in E. unfold JSNumber.isFinite in H. rewrite E in H.
  discriminate.
Qed.

(** Finite numbers that denote the same rational are equal numbers. *)
Lemma denoted_inj (x y : float) :
  JSNumber.isFinite x = true -> JSNumber.isFinite y = true ->
  denoted x == denoted y -> PrimFloat.eqb x y = true.
Proof.
  unfold JSNumber.isFinite, denoted, JSNumber.exact.
  pose proof (Prim2SF_valid x) as Vx. pose proof (Prim2SF_valid y) as Vy.
  rewrite eqb_spec.
  destruct (Prim2SF x) as [sx|sx| |sx mx ex] eqn:Ex; try discriminate;
    destruct (Prim2SF y) as [sy|sy| |sy my ey] eqn:Ey; try discriminate;
    intros _ _; cbv zeta.
  - reflexivity.
  - intros H. exfalso.
    cbn [SpecFloat.valid_binary] in Vy.
    destruct (bounded_canonical my ey Vy) as [He _].
    assert (P : 0 < (Z.pos my * 2 ^ (ey + 1074) # 2 ^ 1074)).
    { unfold Qlt. cbn [Qnum Qden]. 
      assert (0 < 2 ^ (ey + 1074))%Z by (apply Z.pow_pos_nonneg; lia). lia. }
    rewrite <- (finite_scaled my ey He) in P.
    set (r := if (0 <=? ey)%Z then inject_Z (Z.pos my * 2 ^ ey)
              else Z.pos my # (2 ^ Z.to_pos (- ey))) in *.
    destruct sy.
    + assert (R : r == 0) by (rewrite <- (Qopp_opp r), <- H; reflexivity).
      rewrite R in P. now apply Qlt_irrefl in P.
    + rewrite <- H in P. now apply Qlt_irrefl in P.
  - intros H. exfalso.
    cbn [SpecFloat.valid_binary] in Vx.
    destruct (bounded_canonical mx ex Vx) as [He _].
    assert (P : 0 < (Z.pos mx * 2 ^ (ex + 1074) # 2 ^ 1074)).
    { unfold Qlt. cbn [Qnum Qden]. 
      assert (0 < 2 ^ (ex + 1074))%Z by (apply Z.pow_pos_nonneg; lia). lia. }
    rewrite <- (finite_scaled mx ex He) in P.
    set (r := if (0 <=? ex)%Z then inject_Z (Z.pos mx * 2 ^ ex)
              else Z.pos mx # (2 ^ Z.to_pos (- ex))) in *.
    destruct sx.
    + assert (R : r == 0) by (rewrite <- (Qopp_opp r), H; reflexivity).
      rewrite R in P. now apply Qlt_irrefl in P.
    + rewrite H in P. now apply Qlt_irrefl in P.
  - intros H.
    cbn [SpecFloat.valid_binary] in Vx, Vy.
    destruct (bounded_canonical mx ex Vx) as [Hx _].
    destruct (bounded_canonical my ey Vy) as [Hy _].
    pose proof (finite_scaled mx ex Hx) as Sx.
    pose proof (finite_scaled my ey Hy) as Sy.
    assert (Px : (0 < Z.pos mx * 2 ^ (ex + 1074))%Z).
    { assert (0 < 2 ^ (ex + 1074))%Z by (apply Z.pow_pos_nonneg; lia). lia. }
    assert (Py : (0 < Z.pos my * 2 ^ (ey + 1074))%Z).
    { assert (0 < 2 ^ (ey + 1074))%Z by (apply Z.pow_pos_nonneg; lia). lia. }
    assert (E : sx = sy
                /\ (Z.pos mx * 2 ^ (ex + 1074) = Z.pos my * 2 ^ (ey + 1074))%Z).
    { set (D := (2 ^ 1074)%positive) in *.
      set (Nx := (Z.pos mx * 2 ^ (ex + 1074))%Z) in *.
      set (Ny := (Z.pos my * 2 ^ (ey + 1074))%Z) in *.
      destruct sx, sy; rewrite Sx, Sy in H; unfold Qeq in H;
        cbn [Qnum Qden Qopp] in H.
      - split; [reflexivity|]. nia.
      - exfalso. nia.
      - exfalso. nia.
      - split; [reflexivity|]. nia. }
    destruct E as [<- E].
    destruct (canonical_unique mx my ex ey Vx Vy E) as [<- <-].
    unfold SFeqb. now rewrite SFcompare_refl.
Qed.

Lemma float_eqb_denoted (a b : float) :
  PrimFloat.eqb a b = true ->
  denoted a == denoted b /\ JSNumber.isFinite a = JSNumber.isFinite b.
Proof.
  intros H. destruct (float_eqb_true a b H) as [[[sa Ha] [sb Hb]]|[-> _]].
  - unfold denoted, JSNumber.exact, JSNumber.isFinite. rewrite Ha, Hb.
    split; reflexivity.
  - split; reflexivity.
Qed.

Lemma exactAddition_spec (a b : float) :
  exactAddition a b = true ->
  JSNumber.isFinite (a + b) = true
  /\ denoted (a + b) == denoted a + denoted b.
Proof.
  unfold exactAddition, denoted.
  destruct (JSNumber.exact a) as [x|]; [|discriminate].
  destruct (JSNumber.exact b) as [y|]; [|discriminate].
  destruct (JSNumber.exact (a + b)) as [z|] eqn:Ez; [|discriminate].
  intros H. apply Qeq_bool_iff in H. split; [|exact H].
  apply isFinite_exact. now exists z.
Qed.

(** When no addition rounds, the sum denotes the sum of what the numbers
    denote. *)
Lemma noRoundingFrom_sum (l : list float) (acc : float) :
  noRoundingFrom acc l = true -> JSNumber.isFinite acc = true ->
  JSNumber.isFinite (fold_left PrimFloat.add l acc) = true
  /\ denoted (fold_left PrimFloat.add l acc) == denoted acc + sumQ (map denoted l).
Proof.
  revert acc. induction l as [|x l IH]; intros acc; simpl.
  - intros _ Hf. split; [exact Hf|]. unfold sumQ. simpl. ring.
  - rewrite andb_true_iff. intros [Hx Hl] _.
    destruct (exactAddition_spec acc x Hx) as [Hf Hs].
    destruct (IH _ Hl Hf) as [Hf' Hs'].
    split; [exact Hf'|]. rewrite Hs', Hs, sumQ_cons. ring.
Qed.

Lemma noRounding_sum (l : list float) :
  noRounding l = true ->
  JSNumber.isFinite (sumNumbers l) = true
  /\ denoted (sumNumbers l) == sumQ (map denoted l).
Proof.
  intros H. destruct (noRoundingFrom_sum l 0 H eq_refl) as [Hf Hs].
  split; [exact Hf|]. rewrite Hs. change (denoted 0) with 0. ring.
Qed.

Lemma noRounding_amounts (l : list Expense) :
  noRounding (map amount l) = true ->
  JSNumber.isFinite (sumAmounts l) = true /\ denoted (sumAmounts l) == exactSum l.
Proof.
  intros H. rewrite sumAmounts_map.
  destruct (noRounding_sum _ H) as [Hf Hs]. split; [exact Hf|].
  rewrite Hs, map_map. reflexivity.
Qed.

(** Totals of parts that hold the records [l] each once: when no addition
    rounds, they add up to the sum of [l]. *)
Lemma totals_of_parts (l : list Expense) (parts : list (list Expense))
  (totals : list float) :
  Permutation (List.concat parts) l ->
  Forall2 (fun part total =>
             JSNumber.isFinite total = true /\ denoted total == exactSum part)
          parts totals ->
  noRounding (map amount l) = true ->
  noRounding totals = true ->
  PrimFloat.eqb (sumNumbers totals) (sumAmounts l) = true.
Proof.
  intros Hperm Hparts Hl Ht.
  destruct (noRounding_amounts l Hl) as [Fl Sl].
  destruct (noRounding_sum totals Ht) as [Ft St].
  apply denoted_inj; [exact Ft | exact Fl|].
  rewrite St, Sl, <- (exactSum_perm _ _ Hperm), <- exactSum_concat.
  clear - Hparts. induction Hparts as [|part total parts totals [_ H] _ IH].
  - reflexivity.
  - cbn [map]. now rewrite !sumQ_cons, H, IH.
Qed.

(** ** Totals, amended *)

Lemma exact_parts {A : Type} (part : A -> list Expense) (total : A -> float)
  (xs : list A) :
  (forall x, In x xs ->
     noRounding (map amount (part x)) = true ->
     PrimFloat.eqb (total x) (sumAmounts (part x)) = true) ->
  forallb (fun x => noRounding (map amount (part x))) xs = true ->
  Forall2 (fun p t => JSNumber.isFinite t = true /\ denoted t == exactSum p)
          (map part xs) (map total xs).
Proof.
  intros Htotal Hall. rewrite forallb_forall in Hall.
  induction xs as [|x xs IH]; cbn [map]; constructor.
  - specialize (Hall x (or_introl eq_refl)).
    destruct (noRounding_amounts _ Hall) as [Hf Hs].
    destruct (float_eqb_denoted _ _ (Htotal x (or_introl eq_refl) Hall)) as [Hd Hi].
    split; [now rewrite Hi | now rewrite Hd].
  - apply IH.
    + intros y Hy. apply Htotal. now right.
    + intros y Hy. apply Hall. now right.
Qed.



(** Totals that are each computed without rounding can still add up to
    another number than the records: the amounts 2^53, 0, -1 and 1 add up
    to 2^53 in input order, the totals 2^53, 1 and -1 of the categories A,
    B and C to 2^53 - 1. *)
Example exact_totals_can_round_when_added :
  exists gs,
    sortedCategories codeUnitCompare largeAmounts = Normal gs
    /\ noRounding (map amount largeAmounts) = true
    /\ forallb (fun g => noRounding (map amount (items g))) gs = true
    /\ map (fun g => categoryTotal (items g)) gs
       = [9007199254740992%float; 1%float; (-1)%float]
    /\ noRounding (map (fun g => categoryTotal (items g)) gs) = false
    /\ sumNumbers (map (fun g => categoryTotal (items g)) gs)
       = 9007199254740991%float
    /\ sumAmounts largeAmounts = 9007199254740992%float.
Proof.
  eexists. split; [vm_compute; reflexivity|].
  repeat split; vm_compute; reflexivity.
Qed.

(** C10, amended. The months hold the records each exactly once, whatever
    the search term, and the value of the series at a label is the total
    kept for the records of that month. Whenever no addition rounds - in
    adding up all records in input order, in adding up the records of each
    month, and in adding up the values of the series in their order - the
    values of the series add up, as binary64 numbers, to the grand total.
    Every render shows this series next to this grand total. *)
Theorem monthly_series_total_exactly (tz : Z) (expenses : list Expense) :
  let bucket := fun L => filter (inMonth (monthLabelOf tz) L) expenses in
  Permutation (List.concat (map bucket (monthLabels tz expenses))) expenses
  /\ monthValues tz expenses
     = map (fun L => runningTotal (bucket L)) (monthLabels tz expenses)
  /\ (noRounding (map amount expenses) = true ->
      forallb (fun L => noRounding (map amount (bucket L)))
              (monthLabels tz expenses) = true ->
      noRounding (monthValues tz expenses) = true ->
      PrimFloat.eqb (sumNumbers (monthValues tz expenses)) (totalSpent expenses)
      = true)
  /\ forall cmp searchTerm view,
       DashboardPage tz cmp expenses searchTerm = Normal view ->
       chartData view = monthValues tz expenses
       /\ viewTotalSpent view = totalSpent expenses.
Proof.
  cbv zeta.
  set (bucket := fun L => filter (inMonth (monthLabelOf tz) L) expenses).
  destruct (monthlyTotals_spec tz expenses) as [Hl Hv]. fold bucket in Hv.
  assert (Hp : Permutation (List.concat (map bucket (monthLabels tz expenses)))
                           expenses).
  { rewrite Hl. apply (partition_all (fun exp => monthLabelOf tz (date exp))). }
  split; [exact Hp|]. split; [exact Hv|]. split.
  - intros Hf Hall Ht. unfold totalSpent. rewrite Hv in *.
    apply (totals_of_parts expenses (map bucket (monthLabels tz expenses)));
      try assumption.
    apply (exact_parts bucket (fun L => runningTotal (bucket L))); [|exact Hall].
    intros L _ HL. apply runningTotal_is_the_sum.
    apply isFinite_not_nan. now apply noRounding_amounts.
  - intros cmp searchTerm view. unfold DashboardPage.
    destruct (sortedCategories cmp _); [|discriminate].
    destruct (sortedMonths tz _); [|discriminate].
    simpl. intros Hview. injection Hview as <-. split; reflexivity.
Qed.

Lemma monthly_series_total_exactly_witness :
  monthValues 0 scenarioA = [7.25%float; 12%float]
  /\ totalSpent scenarioA = 19.25%float
  /\ noRounding (map amount scenarioA) = true
  /\ PrimFloat.eqb (sumNumbers (monthValues 0 scenarioA)) (totalSpent scenarioA)
     = true.
Proof.
  split; [vm_compute; reflexivity|].
  split; [vm_compute; reflexivity|].
  split; [vm_compute; reflexivity|].
  destruct (monthly_series_total_exactly 0 scenarioA) as [_ [_ [H _]]].
  apply H; vm_compute; reflexivity.
Defined.

(** Values of the series that are each computed without rounding can still
    add up to another number than the grand total: for the amounts 2^53
    (March), 0 (April), -1 (May) and 1 (April) the series is 2^53, 1, -1,
    which adds up to 2^53 - 1, and the grand total is 2^53. *)
Example exact_series_can_round_when_added :
  noRounding (map amount largeAmounts) = true
  /\ forallb (fun L => noRounding
                         (map amount (filter (inMonth (monthLabelOf 0) L)
                                             largeAmounts)))
             (monthLabels 0 largeAmounts) = true
  /\ monthValues 0 largeAmounts
     = [9007199254740992%float; 1%float; (-1)%float]
  /\ noRounding (monthValues 0 largeAmounts) = false
  /\ sumNumbers (monthValues 0 largeAmounts) = 9007199254740991%float
  /\ totalSpent largeAmounts = 9007199254740992%float.
Proof. repeat split; vm_compute; reflexivity. Qed.
